(** * JIT access controller: a shallow embedding of the request service,
      the reconciler and the HMAC authenticator.

    The Go sources are embedded as executable Rocq functions.  Go strings
    and byte slices are Rocq [string]s (sequences of 8-bit characters),
    Go's 64-bit [int]/[int64] are [Z] with the wrap-around written out,
    DynamoDB tables are finite maps indexed by their primary key, and the
    collaborators that live outside the process (clock, UUID source,
    identity provider) are read from an explicit environment, as is the
    image of the index [gsi_account] that the bind handler queries before
    its unconditional put.

    One invocation runs to completion on the store it is given and reads
    the clock once; apart from that index image, which may be older than
    the store, invocations do not interleave.  A DynamoDB call fails only
    by its condition
    expression (transport failures are not modelled), so the branches that
    only wrap such an error are absent; the audit put and the webhook
    delivery, whose errors every caller discards, always go through.
    Where the code iterates over a Go map or reads an index without a
    sort key, the model takes the order in which the finite map lists its
    entries. *)

From Stdlib Require Import ZArith NArith Ascii String List Lia Bool.
From stdpp Require Import gmap strings list fin_maps.

Local Open Scope Z_scope.

(* ===================================================================== *)
(** * Go primitives *)
(* ===================================================================== *)

Module Go.

Definition min_int64 : Z := - 2 ^ 63.
Definition max_int64 : Z := 2 ^ 63 - 1.

(** Two's-complement wrap-around of 64-bit signed arithmetic. *)
Definition wrap64 (x : Z) : Z := (x + 2 ^ 63) mod 2 ^ 64 - 2 ^ 63.

(** Saturation, as done by [time.Time.Sub]. *)
Definition sat64 (x : Z) : Z := Z.max min_int64 (Z.min max_int64 x).

Fixpoint map_string (f : ascii -> ascii) (s : string) : string :=
  match s with
  | EmptyString => EmptyString
  | String c rest => String (f c) (map_string f rest)
  end.

Definition upper_byte (c : ascii) : ascii :=
  let n := N_of_ascii c in
  if ((97 <=? n) && (n <=? 122))%N then ascii_of_N (n - 32) else c.

Definition lower_byte (c : ascii) : ascii :=
  let n := N_of_ascii c in
  if ((65 <=? n) && (n <=? 90))%N then ascii_of_N (n + 32) else c.

(** Every byte of [s] is below [utf8.RuneSelf]: the test by which
    [strings.ToUpper] and [strings.ToLower] choose their byte-wise path. *)
Fixpoint isASCII (s : string) : bool :=
  match s with
  | EmptyString => true
  | String c rest => (N_of_ascii c <? 128)%N && isASCII rest
  end.

(** [strings.ToUpper] and [strings.ToLower] on the strings that satisfy
    [isASCII], as HTTP methods and header names do: the letters a-z (A-Z)
    are shifted by 32 and every other byte is kept.  On a string with a
    byte from 128 on the library decodes runes and maps them by the
    Unicode case tables, which are no part of this development: there
    these definitions differ from the library, and what is stated below
    about the results of [ToUpper] and [ToLower] is stated for [isASCII]
    strings only; the rest holds whatever the two functions compute. *)
Definition ToUpper (s : string) : string := map_string upper_byte s.
Definition ToLower (s : string) : string := map_string lower_byte s.

(** [strings.Join]. *)
Fixpoint Join (elems : list string) (sep : string) : string :=
  match elems with
  | [] => EmptyString
  | [x] => x
  | x :: rest => x +:+ sep +:+ Join rest sep
  end.

Definition is_digit (c : ascii) : bool :=
  let n := N_of_ascii c in ((48 <=? n) && (n <=? 57))%N.

Fixpoint parse_digits (s : string) (acc : Z) : option Z :=
  match s with
  | EmptyString => Some acc
  | String c rest =>
      if is_digit c
      then parse_digits rest (10 * acc + (Z.of_N (N_of_ascii c) - 48))
      else None
  end.

(** [strconv.ParseInt(s, 10, 64)]: an optional sign, at least one decimal
    digit, nothing else, and a value that fits in an [int64]. *)
Definition ParseInt (s : string) : option Z :=
  let signed (neg : bool) (digits : string) :=
    match digits with
    | EmptyString => None
    | _ =>
        match parse_digits digits 0 with
        | Some n =>
            let v := if neg then - n else n in
            if (min_int64 <=? v) && (v <=? max_int64) then Some v else None
        | None => None
        end
    end in
  match s with
  | EmptyString => None
  | String c rest =>
      if Ascii.eqb c "+" then signed false rest
      else if Ascii.eqb c "-" then signed true rest
      else signed false s
  end.

Definition digit_char (d : Z) : ascii := ascii_of_N (Z.to_N (48 + d)).

Fixpoint format_digits (fuel : nat) (n : Z) (acc : string) : string :=
  match fuel with
  | O => acc
  | S fuel' =>
      let acc' := String (digit_char (n mod 10)) acc in
      if n <? 10 then acc' else format_digits fuel' (n / 10) acc'
  end.

(** [strconv.FormatInt(n, 10)] for an [int64] (at most 19 digits). *)
Definition FormatInt (n : Z) : string :=
  if n <? 0 then String "-" (format_digits 20 (- n) EmptyString)
  else format_digits 20 n EmptyString.

(** ** errors

    [fmt.Errorf] with a plain message, and with a wrapped cause
    (["msg: %w"]). *)
Inductive error :=
| Errorf (msg : string)
| Wrapf (msg : string) (cause : error).

Fixpoint Error (e : error) : string :=
  match e with
  | Errorf msg => msg
  | Wrapf msg cause => msg +:+ ": " +:+ Error cause
  end.

Inductive result (A : Type) :=
| Ok (a : A)
| Err (e : error).
Arguments Ok {A} a.
Arguments Err {A} e.

Definition empty (s : string) : bool := String.eqb s "".

(** ** package time

    An instant is its number of nanoseconds since the Unix epoch; a
    [time.Duration] is an [int64] count of nanoseconds. *)

Definition Second : Z := 1000000000.
Definition Minute : Z := 60 * Second.
Definition unixToInternal : Z := 62135596800.

(** [time.Unix(sec, 0)]: the seconds are kept internally as an [int64]
    count from year 1, which wraps for the largest [sec]. *)
Definition Unix (sec : Z) : Z :=
  (wrap64 (sec + unixToInternal) - unixToInternal) * Second.

(** [t.Unix()]. *)
Definition UnixSeconds (t : Z) : Z := t / Second.

(** [time.Since(t)] read at the instant [now]: [now.Sub(t)], which
    saturates at the smallest and largest [Duration]. *)
Definition Since (now t : Z) : Z := sat64 (now - t).

(** ** package strings, slicing and narrowing

    Strings are byte sequences.  The bytes searched for below (['/'],
    ['|'], ['=']) are ASCII, which never occurs inside a multi-byte UTF-8
    sequence, so a loop over runes and a loop over bytes find the same
    positions. *)

(** [strings.HasPrefix]. *)
Definition HasPrefix (s prefix : string) : bool := String.prefix prefix s.

(** [strings.HasSuffix]:
    [len(s) >= len(suffix) && s[len(s)-len(suffix):] == suffix]. *)
Definition HasSuffix (s suffix : string) : bool :=
  (String.length suffix <=? String.length s)%nat
  && String.eqb
       (String.substring (String.length s - String.length suffix)
          (String.length suffix) s)
       suffix.

(** [strings.Contains]. *)
Fixpoint Contains (s substr : string) : bool :=
  String.prefix substr s
  || match s with
     | EmptyString => false
     | String _ rest => Contains rest substr
     end.

(** The slice expression [s[lo:hi]] with indices computed at run time: it
    panics unless [0 <= lo <= hi <= len(s)]; [None] is the panic. *)
Definition slice (s : string) (lo hi : Z) : option string :=
  if (0 <=? lo) && (lo <=? hi) && (hi <=? Z.of_nat (String.length s))
  then Some (String.substring (Z.to_nat lo) (Z.to_nat (hi - lo)) s)
  else None.

(** The position of the first byte [c] of [s], counted from [i]. *)
Fixpoint index_from (s : string) (c : ascii) (i : nat) : option nat :=
  match s with
  | EmptyString => None
  | String x rest => if Ascii.eqb x c then Some i else index_from rest c (S i)
  end.

(** The conversion [int32(x)]. *)
Definition wrap32 (x : Z) : Z := (x + 2 ^ 31) mod 2 ^ 32 - 2 ^ 31.

End Go.

(* ===================================================================== *)
(** * crypto/sha256, encoding/hex, crypto/hmac *)
(* ===================================================================== *)

Module Sha256.

Definition w32 (x : Z) : Z := Z.land x 4294967295.
Definition add32 (x y : Z) : Z := w32 (x + y).
Definition rotr (n x : Z) : Z :=
  w32 (Z.lor (Z.shiftr x n) (Z.shiftl x (32 - n))).

Definition Ch (x y z : Z) : Z :=
  Z.lxor (Z.land x y) (Z.land (w32 (Z.lnot x)) z).
Definition Maj (x y z : Z) : Z :=
  Z.lxor (Z.lxor (Z.land x y) (Z.land x z)) (Z.land y z).
Definition bsig0 (x : Z) : Z := Z.lxor (Z.lxor (rotr 2 x) (rotr 13 x)) (rotr 22 x).
Definition bsig1 (x : Z) : Z := Z.lxor (Z.lxor (rotr 6 x) (rotr 11 x)) (rotr 25 x).
Definition ssig0 (x : Z) : Z := Z.lxor (Z.lxor (rotr 7 x) (rotr 18 x)) (Z.shiftr x 3).
Definition ssig1 (x : Z) : Z := Z.lxor (Z.lxor (rotr 17 x) (rotr 19 x)) (Z.shiftr x 10).

Definition is_prime (n : Z) : bool :=
  (1 <? n) && forallb (fun d => negb (n mod d =? 0))
                      (map Z.of_nat (seq 2 (Z.to_nat n - 2))).

Definition first_primes (k : nat) : list Z :=
  firstn k (filter is_prime (map Z.of_nat (seq 2 310))).

Fixpoint icbrt_bits (bits : nat) (n r : Z) : Z :=
  match bits with
  | O => r
  | S b =>
      let c := r + 2 ^ Z.of_nat b in
      icbrt_bits b n (if c * c * c <=? n then c else r)
  end.

(** Integer cube root (largest [r] with [r^3 <= n]) for [n < 2^120]. *)
Definition icbrt (n : Z) : Z := icbrt_bits 40 n 0.

(** Round constants: the first 32 bits of the fractional parts of the cube
    roots of the first 64 primes. *)
Definition K : list Z :=
  Eval vm_compute in map (fun p => w32 (icbrt (p * 2 ^ 96))) (first_primes 64).

(** Initial hash value: the first 32 bits of the fractional parts of the
    square roots of the first 8 primes. *)
Definition H0 : list Z :=
  Eval vm_compute in map (fun p => w32 (Z.sqrt (p * 2 ^ 64))) (first_primes 8).

Definition state : Type := (Z * Z * Z * Z * Z * Z * Z * Z)%type.

Definition init : state :=
  match H0 with
  | [a; b; c; d; e; f; g; h] => (a, b, c, d, e, f, g, h)
  | _ => (0, 0, 0, 0, 0, 0, 0, 0)
  end.

Definition round (s : state) (kw : Z * Z) : state :=
  let '(a, b, c, d, e, f, g, h) := s in
  let t1 := w32 (h + bsig1 e + Ch e f g + fst kw + snd kw) in
  let t2 := add32 (bsig0 a) (Maj a b c) in
  (add32 t1 t2, a, b, c, add32 d t1, e, f, g).

(** Big-endian 32-bit words of a block. *)
Fixpoint words (bytes : list Z) : list Z :=
  match bytes with
  | b0 :: b1 :: b2 :: b3 :: rest =>
      (Z.shiftl b0 24 + Z.shiftl b1 16 + Z.shiftl b2 8 + b3) :: words rest
  | _ => []
  end.

(** Message schedule; [recent] holds the words produced so far, newest
    first. *)
Fixpoint extend (n : nat) (recent : list Z) : list Z :=
  match n with
  | O => recent
  | S n' =>
      let w := w32 (ssig1 (nth 1 recent 0) + nth 6 recent 0
                    + ssig0 (nth 14 recent 0) + nth 15 recent 0) in
      extend n' (w :: recent)
  end.

Definition schedule (block : list Z) : list Z :=
  rev (extend 48 (rev (words block))).

Definition compress (s : state) (block : list Z) : state :=
  let '(a, b, c, d, e, f, g, h) := s in
  let '(a', b', c', d', e', f', g', h') :=
    fold_left round (combine K (schedule block)) s in
  (add32 a a', add32 b b', add32 c c', add32 d d',
   add32 e e', add32 f f', add32 g g', add32 h h').

Definition be_bytes (n : nat) (x : Z) : list Z :=
  map (fun i => Z.land (Z.shiftr x (8 * Z.of_nat i)) 255) (rev (seq 0 n)).

Definition pad (msg : list Z) : list Z :=
  let len := Z.of_nat (length msg) in
  msg ++ [128] ++ repeat 0 (Z.to_nat ((55 - len) mod 64)) ++ be_bytes 8 (8 * len).

Fixpoint blocks (fuel : nat) (l : list Z) : list (list Z) :=
  match fuel with
  | O => []
  | S fuel' =>
      match l with
      | [] => []
      | _ => firstn 64 l :: blocks fuel' (skipn 64 l)
      end
  end.

Definition digest_bytes (s : state) : list Z :=
  let '(a, b, c, d, e, f, g, h) := s in
  flat_map (be_bytes 4) [a; b; c; d; e; f; g; h].

Definition bytes_of_string (s : string) : list Z :=
  map (fun c => Z.of_N (N_of_ascii c)) (list_ascii_of_string s).

Definition string_of_bytes (l : list Z) : string :=
  string_of_list_ascii (map (fun b => ascii_of_N (Z.to_N b)) l).

(** [sha256.Sum256]: the 32-byte digest of [data]. *)
Definition Sum256 (data : string) : string :=
  let padded := pad (bytes_of_string data) in
  string_of_bytes
    (digest_bytes (fold_left compress (blocks (length padded) padded) init)).

Definition BlockSize : nat := 64.

End Sha256.

Module Hex.

Definition hextable : string := "0123456789abcdef".

Definition hexdigit (n : N) : ascii :=
  match String.get (N.to_nat n) hextable with
  | Some c => c
  | None => "0"%char
  end.

(** [hex.EncodeToString]: two digits per byte, high nibble first. *)
Fixpoint EncodeToString (src : string) : string :=
  match src with
  | EmptyString => EmptyString
  | String c rest =>
      let v := N_of_ascii c in
      String (hexdigit (N.shiftr v 4))
             (String (hexdigit (N.land v 15)) (EncodeToString rest))
  end.

Definition is_lower_hex (c : ascii) : bool :=
  let n := N_of_ascii c in
  (((48 <=? n) && (n <=? 57)) || ((97 <=? n) && (n <=? 102)))%N.

Fixpoint all_lower_hex (s : string) : bool :=
  match s with
  | EmptyString => true
  | String c rest => is_lower_hex c && all_lower_hex rest
  end.

End Hex.

Module Hmac.

(** A running SHA-256 hash ([hash.Hash]): the bytes written so far. *)
Record hash := { written : string }.

Definition hash_new : hash := {| written := EmptyString |}.
Definition hash_write (h : hash) (p : string) : hash :=
  {| written := written h +:+ p |}.
Definition hash_sum (h : hash) : string := Sha256.Sum256 (written h).

Record hmac := { opad : string; ipad : string; inner : hash }.

Definition xor_byte (k : N) (c : ascii) : ascii :=
  ascii_of_N (N.lxor (N_of_ascii c) k).

(** [copy(pad, key)] into a zeroed block-size buffer. *)
Definition zero_extend (key : string) : string :=
  key +:+ string_of_list_ascii
            (repeat Ascii.zero (Sha256.BlockSize - String.length key)).

(** [hmac.New(sha256.New, key)]. *)
Definition New (key : string) : hmac :=
  let key :=
    if (Sha256.BlockSize <? String.length key)%nat
    then hash_sum (hash_write hash_new key)
    else key in
  let ipad := Go.map_string (xor_byte 54) (zero_extend key) in
  let opad := Go.map_string (xor_byte 92) (zero_extend key) in
  {| opad := opad; ipad := ipad; inner := hash_write hash_new ipad |}.

Definition Write (m : hmac) (p : string) : hmac :=
  {| opad := opad m; ipad := ipad m; inner := hash_write (inner m) p |}.

(** [mac.Sum(nil)]. *)
Definition Sum (m : hmac) : string :=
  let inner_sum := hash_sum (inner m) in
  hash_sum (hash_write (hash_write hash_new (opad m)) inner_sum).

(** HMAC-SHA256 as RFC 2104 writes it:
    [H((K0 xor opad) || H((K0 xor ipad) || text))], where [K0] is the key
    (hashed first when longer than a block) filled with zeros to a block. *)
Definition rfc2104 (key text : string) : string :=
  let k :=
    if (Sha256.BlockSize <? String.length key)%nat then Sha256.Sum256 key else key in
  let k0 := zero_extend k in
  Sha256.Sum256
    (Go.map_string (xor_byte 92) k0
     +:+ Sha256.Sum256 (Go.map_string (xor_byte 54) k0 +:+ text)).

End Hmac.


(* ===================================================================== *)
(** * internal/models *)
(* ===================================================================== *)

Module Models.

Inductive RequestStatus :=
| StatusPending | StatusApproved | StatusDenied | StatusGranted
| StatusRevoked | StatusExpired | StatusError.

Inductive EventType :=
| EventRequested | EventApproved | EventDenied | EventGranted
| EventRevoked | EventExpired | EventError.

Definition status_string (s : RequestStatus) : string :=
  match s with
  | StatusPending => "PENDING" | StatusApproved => "APPROVED"
  | StatusDenied => "DENIED" | StatusGranted => "GRANTED"
  | StatusRevoked => "REVOKED" | StatusExpired => "EXPIRED"
  | StatusError => "ERROR"
  end.

Definition status_eqb (a b : RequestStatus) : bool :=
  match a, b with
  | StatusPending, StatusPending | StatusApproved, StatusApproved
  | StatusDenied, StatusDenied | StatusGranted, StatusGranted
  | StatusRevoked, StatusRevoked | StatusExpired, StatusExpired
  | StatusError, StatusError => true
  | _, _ => false
  end.

(** Instants ([created_at], [end_time], ...) are kept as seconds since the
    Unix epoch; the code stores their RFC 3339 rendering in UTC, whose
    lexicographic order is the chronological one.  [None] is the omitted
    attribute. *)
Record JitConfig := {
  cfg_ChannelID : string;
  cfg_AccountID : string;
  ApproverMMUserIDs : list string;
  ApprovalPolicy : string;
  AllowSelfApproval : bool;
  MaxRequestHours : Z;
  SessionDurationMinutes : Z;
  UpdatedAt : Z
}.

Record JitRequest := {
  RequestID : string;
  AccountID : string;
  ChannelID : string;
  RequesterMMUserID : string;
  RequesterEmail : string;
  Jira : string;
  Reason : string;
  RequestedDurationMinutes : Z;
  Status : RequestStatus;
  CreatedAt : Z;
  ApprovedAt : option Z;
  DeniedAt : option Z;
  GrantTime : option Z;
  RevokedAt : option Z;
  ExpiredAt : option Z;
  EndTime : Z;
  ApproverMMUserID : string;
  ApproverEmail : string;
  IdentityStoreUserID : string;
  ErrorDetails : string
}.

Record AuditEvent := {
  ev_RequestID : string;
  ev_EventID : string;
  ev_EventTime : Z;
  ev_EventType : EventType;
  ev_AccountID : string;
  ev_ChannelID : string;
  ev_ActorMMUserID : string;
  ev_ActorEmail : string;
  ev_Details : list (string * string)
}.

Record NonceEntry := {
  ne_KeyID : string;
  ne_Nonce : string;
  ne_CreatedAt : Z;
  ne_ExpiresAt : Z
}.

Record WebhookPayload := {
  wh_RequestID : string;
  wh_Status : RequestStatus;
  wh_AccountID : string;
  wh_ChannelID : string;
  wh_Actor : string;
  wh_Details : list (string * string)
}.

Record CreateRequestInput := {
  cri_AccountID : string;
  cri_ChannelID : string;
  cri_RequesterMMUserID : string;
  cri_RequesterEmail : string;
  cri_Jira : string;
  cri_Reason : string;
  cri_RequestedDurationMinutes : Z
}.

Record ApproveRequestInput := {
  ari_RequestID : string;
  ari_ApproverMMUserID : string;
  ari_ApproverEmail : string
}.

Record DenyRequestInput := {
  dri_RequestID : string;
  dri_DenierMMUserID : string;
  dri_DenierEmail : string;
  dri_Reason : string
}.

Record RevokeRequestInput := {
  rri_RequestID : string;
  rri_ActorMMUserID : string;
  rri_ActorEmail : string
}.

Record StepFunctionInput := {
  sfi_RequestID : string;
  sfi_AccountID : string;
  sfi_ChannelID : string;
  sfi_IdentityStoreUserID : string;
  sfi_DurationMinutes : Z;
  sfi_RequesterEmail : string
}.

Record BindAccountInput := {
  bai_ChannelID : string;
  bai_AccountID : string
}.

Record SetApproversInput := {
  sai_ChannelID : string;
  sai_ApproverIDs : list string
}.

(** The query parameters of GET /requests.  [ri_Status] is the status
    name as sent, which need not be one of the seven statuses. *)
Record ReportingInput := {
  ri_ChannelID : string;
  ri_AccountID : string;
  ri_RequesterEmail : string;
  ri_Status : string;
  ri_StartDate : string;
  ri_EndDate : string;
  ri_NextToken : string;
  ri_Limit : Z
}.

Record ReportingResponse := {
  rr_Items : list JitRequest;
  rr_NextToken : string;
  rr_Filters : gmap string string
}.

End Models.

(* ===================================================================== *)
(** * The world outside one invocation *)
(* ===================================================================== *)

Module Sys.
Import Go Models.

(** What an invocation reads from its surroundings: the wall clock
    ([time.Now()], in nanoseconds), the UUID source, whether a workflow
    starter is configured, the answers of the identity provider, and the
    image of the global secondary index [gsi_account] of the config table
    that its query meets.  DynamoDB maintains the index asynchronously and
    reads of it are eventually consistent: the image is the config table as
    of some earlier instant, which is also what an invocation sees whose
    query runs before the write of an overlapping invocation. *)
Record Env := {
  now : Z;
  uuid : nat -> string;
  sfn_configured : bool;
  LookupUserByEmail : string -> result string;
  GrantAccess : string -> string -> option error;
  RevokeAccess : string -> string -> option error;
  gsi_account : gmap (string * string) JitConfig
}.

(** The durable state shared by all invocations: the four DynamoDB
    tables, the callbacks delivered to the plugin, the workflow
    executions started, and how many UUIDs have been drawn.  The config
    table is keyed by [(channel_id, account_id)], the requests table by
    [request_id], the nonce table by [(key_id, nonce)]; the audit table is
    append-only and kept in insertion order. *)
Record World := {
  tableConfig : gmap (string * string) JitConfig;
  tableRequests : gmap string JitRequest;
  tableAudit : list AuditEvent;
  tableNonces : gmap (string * string) NonceEntry;
  notified : list WebhookPayload;
  started : list StepFunctionInput;
  drawn : nat
}.

Definition set_config (f : gmap (string * string) JitConfig -> gmap (string * string) JitConfig)
    (w : World) : World :=
  {| tableConfig := f (tableConfig w); tableRequests := tableRequests w;
     tableAudit := tableAudit w; tableNonces := tableNonces w;
     notified := notified w; started := started w; drawn := drawn w |}.

Definition set_requests (f : gmap string JitRequest -> gmap string JitRequest)
    (w : World) : World :=
  {| tableConfig := tableConfig w; tableRequests := f (tableRequests w);
     tableAudit := tableAudit w; tableNonces := tableNonces w;
     notified := notified w; started := started w; drawn := drawn w |}.

Definition set_audit (f : list AuditEvent -> list AuditEvent) (w : World) : World :=
  {| tableConfig := tableConfig w; tableRequests := tableRequests w;
     tableAudit := f (tableAudit w); tableNonces := tableNonces w;
     notified := notified w; started := started w; drawn := drawn w |}.

Definition set_notified (f : list WebhookPayload -> list WebhookPayload)
    (w : World) : World :=
  {| tableConfig := tableConfig w; tableRequests := tableRequests w;
     tableAudit := tableAudit w; tableNonces := tableNonces w;
     notified := f (notified w); started := started w; drawn := drawn w |}.

Definition set_started (f : list StepFunctionInput -> list StepFunctionInput)
    (w : World) : World :=
  {| tableConfig := tableConfig w; tableRequests := tableRequests w;
     tableAudit := tableAudit w; tableNonces := tableNonces w;
     notified := notified w; started := f (started w); drawn := drawn w |}.

(** [uuid.New().String()]. *)
Definition new_uuid (env : Env) (w : World) : string * World :=
  (uuid env (drawn w),
   {| tableConfig := tableConfig w; tableRequests := tableRequests w;
      tableAudit := tableAudit w; tableNonces := tableNonces w;
      notified := notified w; started := started w; drawn := S (drawn w) |}).

Definition empty_world : World :=
  {| tableConfig := ∅; tableRequests := ∅; tableAudit := []; tableNonces := ∅;
     notified := []; started := []; drawn := O |}.

End Sys.

(* ===================================================================== *)
(** * internal/dynamo *)
(* ===================================================================== *)

Module Dynamo.
Import Go Models Sys.

(** An item carries its own key attributes: what is read under a key has
    that key in its fields. *)
Definition keyed_config (k : string * string) (c : JitConfig) : JitConfig :=
  {| cfg_ChannelID := k.1; cfg_AccountID := k.2;
     ApproverMMUserIDs := ApproverMMUserIDs c; ApprovalPolicy := ApprovalPolicy c;
     AllowSelfApproval := AllowSelfApproval c; MaxRequestHours := MaxRequestHours c;
     SessionDurationMinutes := SessionDurationMinutes c; UpdatedAt := UpdatedAt c |}.

(** Rebuilds a request with the given key and mutable attributes. *)
Definition patch (id : string) (st : RequestStatus)
    (approvedAt deniedAt grantTime revokedAt expiredAt : option Z)
    (approver approverEmail errorDetails : string) (r : JitRequest) : JitRequest :=
  {| RequestID := id; AccountID := AccountID r; ChannelID := ChannelID r;
     RequesterMMUserID := RequesterMMUserID r; RequesterEmail := RequesterEmail r;
     Jira := Jira r; Reason := Reason r;
     RequestedDurationMinutes := RequestedDurationMinutes r;
     Status := st; CreatedAt := CreatedAt r;
     ApprovedAt := approvedAt; DeniedAt := deniedAt; GrantTime := grantTime;
     RevokedAt := revokedAt; ExpiredAt := expiredAt; EndTime := EndTime r;
     ApproverMMUserID := approver; ApproverEmail := approverEmail;
     IdentityStoreUserID := IdentityStoreUserID r; ErrorDetails := errorDetails |}.

Definition keyed_request (id : string) (r : JitRequest) : JitRequest :=
  patch id (Status r) (ApprovedAt r) (DeniedAt r) (GrantTime r) (RevokedAt r)
        (ExpiredAt r) (ApproverMMUserID r) (ApproverEmail r) (ErrorDetails r) r.

(** One entry of the [updates] map passed to a status update. *)
Inductive update :=
| set_status (s : RequestStatus)
| set_approved_at (t : Z)
| set_denied_at (t : Z)
| set_grant_time (t : Z)
| set_revoked_at (t : Z)
| set_expired_at (t : Z)
| set_approver_mm_user_id (u : string)
| set_approver_email (e : string)
| set_error_details (d : string).

Definition apply_update (r : JitRequest) (u : update) : JitRequest :=
  let p st a d g rv ex ap ae ed := patch (RequestID r) st a d g rv ex ap ae ed r in
  let st := Status r in
  let a := ApprovedAt r in let d := DeniedAt r in let g := GrantTime r in
  let rv := RevokedAt r in let ex := ExpiredAt r in
  let ap := ApproverMMUserID r in let ae := ApproverEmail r in
  let ed := ErrorDetails r in
  match u with
  | set_status s => p s a d g rv ex ap ae ed
  | set_approved_at t => p st (Some t) d g rv ex ap ae ed
  | set_denied_at t => p st a (Some t) g rv ex ap ae ed
  | set_grant_time t => p st a d (Some t) rv ex ap ae ed
  | set_revoked_at t => p st a d g (Some t) ex ap ae ed
  | set_expired_at t => p st a d g rv (Some t) ap ae ed
  | set_approver_mm_user_id u => p st a d g rv ex u ae ed
  | set_approver_email e => p st a d g rv ex ap e ed
  | set_error_details x => p st a d g rv ex ap ae x
  end.

Definition apply_updates (updates : list update) (r : JitRequest) : JitRequest :=
  fold_left apply_update updates r.

(** The failure of a condition expression. *)
Definition ConditionalCheckFailed : error :=
  Errorf "ConditionalCheckFailedException: The conditional request failed".

(** ** Config operations *)

Definition GetConfig (w : World) (channelID accountID : string) : option JitConfig :=
  keyed_config (channelID, accountID) <$> tableConfig w !! (channelID, accountID).

Definition GetConfigsByChannel (w : World) (channelID : string) : list JitConfig :=
  map (fun kc => keyed_config kc.1 kc.2)
      (List.filter (fun kc => String.eqb (kc.1).1 channelID)
                   (map_to_list (tableConfig w))).

Definition PutConfig (w : World) (cfg : JitConfig) : World :=
  set_config (fun t => <[(cfg_ChannelID cfg, cfg_AccountID cfg) := cfg]> t) w.

(** Query with [Limit: 1] on the index [gsi_account], of which the
    invocation meets the image [index]; the config table itself is not
    read. *)
Definition GetChannelForAccount (index : gmap (string * string) JitConfig)
    (accountID : string) : option JitConfig :=
  match List.filter (fun kc => String.eqb (kc.1).2 accountID)
                    (map_to_list index) with
  | [] => None
  | kc :: _ => Some (keyed_config kc.1 kc.2)
  end.

(** ** Request operations *)

(** Put with [attribute_not_exists(request_id)]. *)
Definition CreateRequest (w : World) (req : JitRequest) : option error * World :=
  match tableRequests w !! RequestID req with
  | Some _ => (Some (Wrapf "CreateRequest" ConditionalCheckFailed), w)
  | None => (None, set_requests (fun t => <[RequestID req := req]> t) w)
  end.

Definition GetRequest (w : World) (requestID : string) : option JitRequest :=
  keyed_request requestID <$> tableRequests w !! requestID.

(** Update with the condition [#status = :expected]. *)
Definition ConditionalUpdateStatus (w : World) (requestID : string)
    (expectedStatus : RequestStatus) (updates : list update) : option error * World :=
  match GetRequest w requestID with
  | Some r =>
      if status_eqb (Status r) expectedStatus
      then (None, set_requests (fun t => <[requestID := apply_updates updates r]> t) w)
      else (Some (Wrapf "ConditionalUpdateStatus" ConditionalCheckFailed), w)
  | None => (Some (Wrapf "ConditionalUpdateStatus" ConditionalCheckFailed), w)
  end.

Fixpoint insert_by_end_time (r : JitRequest) (l : list JitRequest) : list JitRequest :=
  match l with
  | [] => [r]
  | x :: rest =>
      if EndTime r <=? EndTime x then r :: l else x :: insert_by_end_time r rest
  end.

(** Query on the index [gsi_status_endtime], ascending [end_time];
    [beforeEndTime = None] is the empty string of the source, and
    [limit <= 0] means no limit. *)
Definition QueryRequestsByStatus (w : World) (status : RequestStatus)
    (beforeEndTime : option Z) (limit : Z) : list JitRequest :=
  let hit (r : JitRequest) :=
    status_eqb (Status r) status &&
    match beforeEndTime with
    | Some et => EndTime r <=? et
    | None => true
    end in
  let all :=
    fold_right insert_by_end_time []
      (List.filter hit
         (map (fun kr => keyed_request kr.1 kr.2) (map_to_list (tableRequests w)))) in
  if 0 <? limit then firstn (Z.to_nat limit) all else all.

(** ** Audit operations *)

Definition PutAuditEvent (w : World) (event : AuditEvent) : World :=
  set_audit (fun t => t ++ [event]) w.

(** ** Nonce operations *)

(** Put with [attribute_not_exists(key_id) AND attribute_not_exists(nonce)]. *)
Definition StoreNonce (t : gmap (string * string) NonceEntry) (now : Z)
    (keyID nonce : string) (ttlSeconds : Z)
    : gmap (string * string) NonceEntry * option error :=
  let entry := {| ne_KeyID := keyID; ne_Nonce := nonce;
                  ne_CreatedAt := UnixSeconds now;
                  ne_ExpiresAt := wrap64 (UnixSeconds now + ttlSeconds) |} in
  match t !! (keyID, nonce) with
  | Some _ => (t, Some (Wrapf "StoreNonce" ConditionalCheckFailed))
  | None => (<[(keyID, nonce) := entry]> t, None)
  end.

Definition CheckNonce (t : gmap (string * string) NonceEntry)
    (keyID nonce : string) : bool :=
  match t !! (keyID, nonce) with
  | Some _ => true
  | None => false
  end.

(** The table's time-to-live sweep, run by DynamoDB on its own schedule:
    at the instant [now] any entry whose [expires_at] has passed may
    disappear, and no other entry does. *)
Definition ttl_sweep (now : Z) (t t' : gmap (string * string) NonceEntry) : Prop :=
  t' ⊆ t /\
  forall k e, t !! k = Some e -> UnixSeconds now < ne_ExpiresAt e -> t' !! k = Some e.

(** ** Reporting queries and pagination *)

(** [types.AttributeValue], as far as keys use it: a string, a number in
    its decimal rendering, or a boolean. *)
Inductive AttributeValue :=
| AttributeValueMemberS (Value : string)
| AttributeValueMemberN (Value : string)
| AttributeValueMemberBOOL (Value : bool).

Abbreviation Key := (gmap string AttributeValue).

(** [serializeStartKey]: [None] is the nil key.  The pairs come in the
    order the map hands them out. *)
Definition serializeStartKey (key : option Key) : string :=
  match key with
  | None => ""
  | Some key =>
      fold_left
        (fun token kv =>
           match kv.2 with
           | AttributeValueMemberS sv =>
               let token := if negb (empty token) then token +:+ "|" else token in
               token +:+ (kv.1 +:+ "=" +:+ sv)
           | _ => token
           end)
        (map_to_list key) ""
  end.

(** The loop of [splitToken] at index [i] with [rest = s[i:]]. *)
Fixpoint splitToken_loop (s rest : string) (i start : nat) (parts : list string)
    : list string :=
  match rest with
  | EmptyString => parts ++ [String.substring start (String.length s - start) s]
  | String c rest =>
      if Ascii.eqb c "|"
      then splitToken_loop s rest (S i) (S i)
             (parts ++ [String.substring start (i - start) s])
      else splitToken_loop s rest (S i) start parts
  end.

Definition splitToken (s : string) : list string := splitToken_loop s s 0 0 [].

(** The loop of [deserializeStartKey] over the parts. *)
Fixpoint deserialize_parts (parts : list string) (key : Key) : result Key :=
  match parts with
  | [] => Ok key
  | part :: parts =>
      match index_from part "=" 0 with
      | None => Err (Errorf ("invalid token part: " +:+ part))
      | Some idx =>
          let k := String.substring 0 idx part in
          let v := String.substring (S idx) (String.length part - S idx) part in
          deserialize_parts parts (<[k := AttributeValueMemberS v]> key)
      end
  end.

(** [deserializeStartKey]. *)
Definition deserializeStartKey (token : string) : result (option Key) :=
  if empty token then Ok None
  else
    match deserialize_parts (splitToken token) ∅ with
    | Ok key => Ok (Some key)
    | Err err => Err err
    end.

(** [dynamodb.QueryInput], as far as [QueryRequests] fills it; every
    expression value it binds is a string. *)
Record QueryInput := {
  IndexName : string;
  KeyConditionExpression : string;
  FilterExpression : option string;
  ExpressionAttributeNames : gmap string string;
  ExpressionAttributeValues : gmap string string;
  ScanIndexForward : bool;
  Limit : Z;
  ExclusiveStartKey : option Key
}.

Record QueryOutput := {
  Items : list JitRequest;
  LastEvaluatedKey : option Key
}.

(** [buildFilters]: expression, names and values; [skipChannel] is not
    read by the body. *)
Definition buildFilters (input : ReportingInput) (skipChannel : bool)
    : string * gmap string string * gmap string string :=
  let '(parts, names, values) :=
    if negb (empty (ri_Status input))
    then (["#fstatus = :fstatus"],
          <["#fstatus" := "status"]> (∅ : gmap string string),
          <[":fstatus" := ri_Status input]> (∅ : gmap string string))
    else ([], ∅, ∅) in
  let '(parts, names, values) :=
    if negb (empty (ri_RequesterEmail input)) && negb (empty (ri_ChannelID input))
    then (parts ++ ["#femail = :femail"],
          <["#femail" := "requester_email"]> names,
          <[":femail" := ri_RequesterEmail input]> values)
    else (parts, names, values) in
  match parts with
  | [] => ("", ∅, ∅)
  | first :: more =>
      (fold_left (fun expr part => expr +:+ " AND " +:+ part) more first, names, values)
  end.

(** The assignment of a non-empty filter to a query. *)
Definition with_filters (q : QueryInput)
    (f : string * gmap string string * gmap string string) : QueryInput :=
  let '(filterExpr, filterNames, filterValues) := f in
  if negb (empty filterExpr)
  then {| IndexName := IndexName q;
          KeyConditionExpression := KeyConditionExpression q;
          FilterExpression := Some filterExpr;
          ExpressionAttributeNames := filterNames;
          ExpressionAttributeValues := filterValues ∪ ExpressionAttributeValues q;
          ScanIndexForward := ScanIndexForward q;
          Limit := Limit q;
          ExclusiveStartKey := ExclusiveStartKey q |}
  else q.

(** The query [QueryRequests] builds before it reads the pagination
    token: the index is chosen by the first filter present among channel,
    account, requester and status. *)
Definition query_for (input : ReportingInput) : result QueryInput :=
  let limit := wrap32 (ri_Limit input) in
  let limit := if limit <=? 0 then 50 else limit in
  let between (keyExpr : string) (values : gmap string string) :=
    (keyExpr +:+ " AND created_at BETWEEN :sd AND :ed",
     <[":ed" := ri_EndDate input]> (<[":sd" := ri_StartDate input]> values)) in
  let on_index (index : string) (kv : string * gmap string string)
      (names : gmap string string) :=
    {| IndexName := index; KeyConditionExpression := kv.1;
       FilterExpression := None; ExpressionAttributeNames := names;
       ExpressionAttributeValues := kv.2; ScanIndexForward := false;
       Limit := limit; ExclusiveStartKey := None |} in
  if negb (empty (ri_ChannelID input)) then
    let keyExpr := "channel_id = :cid" in
    let values := <[":cid" := ri_ChannelID input]> (∅ : gmap string string) in
    let kv :=
      if negb (empty (ri_StartDate input)) && negb (empty (ri_EndDate input))
      then between keyExpr values
      else if negb (empty (ri_StartDate input))
      then (keyExpr +:+ " AND created_at >= :sd",
            <[":sd" := ri_StartDate input]> values)
      else if negb (empty (ri_EndDate input))
      then (keyExpr +:+ " AND created_at <= :ed",
            <[":ed" := ri_EndDate input]> values)
      else (keyExpr, values) in
    Ok (with_filters (on_index "gsi_channel_created" kv ∅) (buildFilters input true))
  else if negb (empty (ri_AccountID input)) then
    let keyExpr := "account_id = :aid" in
    let values := <[":aid" := ri_AccountID input]> (∅ : gmap string string) in
    let kv :=
      if negb (empty (ri_StartDate input)) && negb (empty (ri_EndDate input))
      then between keyExpr values
      else (keyExpr, values) in
    Ok (with_filters (on_index "gsi_account_created" kv ∅) (buildFilters input false))
  else if negb (empty (ri_RequesterEmail input)) then
    let keyExpr := "requester_email = :email" in
    let values := <[":email" := ri_RequesterEmail input]> (∅ : gmap string string) in
    let kv :=
      if negb (empty (ri_StartDate input)) && negb (empty (ri_EndDate input))
      then between keyExpr values
      else (keyExpr, values) in
    Ok (with_filters (on_index "gsi_requester_created" kv ∅) (buildFilters input false))
  else if negb (empty (ri_Status input)) then
    Ok (on_index "gsi_status_endtime"
          ("#status = :st", <[":st" := ri_Status input]> (∅ : gmap string string))
          (<["#status" := "status"]> (∅ : gmap string string)))
  else
    Err (Errorf ("QueryRequests: at least one filter "
                 +:+ "(channel_id, account_id, requester_email, or status) is required")).

(** [QueryRequests].  The index query is the table service's own; its
    answer to a query is the parameter [Query]. *)
Definition QueryRequests (Query : QueryInput -> result QueryOutput)
    (input : ReportingInput) : result (list JitRequest * string) :=
  match query_for input with
  | Err err => Err err
  | Ok queryInput =>
      let paged :=
        if negb (empty (ri_NextToken input))
        then
          match deserializeStartKey (ri_NextToken input) with
          | Err err => Err (Wrapf "QueryRequests invalid next_token" err)
          | Ok startKey =>
              Ok {| IndexName := IndexName queryInput;
                    KeyConditionExpression := KeyConditionExpression queryInput;
                    FilterExpression := FilterExpression queryInput;
                    ExpressionAttributeNames := ExpressionAttributeNames queryInput;
                    ExpressionAttributeValues := ExpressionAttributeValues queryInput;
                    ScanIndexForward := ScanIndexForward queryInput;
                    Limit := Limit queryInput;
                    ExclusiveStartKey := startKey |}
          end
        else Ok queryInput in
      match paged with
      | Err err => Err err
      | Ok queryInput =>
          match Query queryInput with
          | Err err => Err (Wrapf "QueryRequests" err)
          | Ok out =>
              let nextToken :=
                match LastEvaluatedKey out with
                | Some key => serializeStartKey (Some key)
                | None => ""
                end in
              Ok (Items out, nextToken)
          end
      end
  end.

End Dynamo.

(* ===================================================================== *)
(** * internal/auth *)
(* ===================================================================== *)

Module Auth.
Import Go.

(** [maxTimestampSkew = 5 * time.Minute]. *)
Definition maxTimestampSkew : Z := 5 * Minute.

Definition HeaderKeyID : string := "X-JIT-KeyID".
Definition HeaderTimestamp : string := "X-JIT-Timestamp".
Definition HeaderNonce : string := "X-JIT-Nonce".
Definition HeaderSignature : string := "X-JIT-Signature".

(** The errors of [ValidateRequest], one constructor per [fmt.Errorf]. *)
Inductive auth_error :=
| ErrMissingHeaders                   (* "missing required HMAC headers" *)
| ErrInvalidTimestamp                 (* "invalid timestamp format: %w" *)
| ErrTimestampSkew (skew : Z)         (* "timestamp outside allowed skew: %v" *)
| ErrNonceCheck (cause : error)       (* "nonce check failed: %w" *)
| ErrNonceUsed                        (* "nonce already used" *)
| ErrInvalidSignature                 (* "invalid signature" *)
| ErrStoreNonce (cause : error).      (* "failed to store nonce: %w" *)

(** The interface [NonceStore] over a store state [S].  Both calls may
    leave the store in another state than they found it: a store shared
    with other validators changes between two calls. *)
Class NonceStore (S : Type) := {
  StoreNonce : S -> Z -> string -> string -> Z -> S * option error;
  CheckNonce : S -> string -> string -> S * (bool * option error)
}.

(** [dynamo.Client] as a nonce store. *)
#[global] Instance dynamo_nonces : NonceStore (gmap (string * string) Models.NonceEntry) := {
  StoreNonce := Dynamo.StoreNonce;
  CheckNonce t keyID nonce := (t, (Dynamo.CheckNonce t keyID nonce, None))
}.

(** A table shared with a second validator whose own put of [pending]
    lands right after this validator's next read. *)
Record contended := {
  table : gmap (string * string) Models.NonceEntry;
  pending : option (string * string)
}.

#[global] Instance contended_nonces : NonceStore contended := {
  StoreNonce c now keyID nonce ttl :=
    let '(t, err) := Dynamo.StoreNonce (table c) now keyID nonce ttl in
    ({| table := t; pending := pending c |}, err);
  CheckNonce c keyID nonce :=
    let found := Dynamo.CheckNonce (table c) keyID nonce in
    let t :=
      match pending c with
      | Some (k, n) => (Dynamo.StoreNonce (table c) 0 k n 600).1
      | None => table c
      end in
    ({| table := t; pending := None |}, (found, None))
}.

(** [headerValue]: the exact key first, then any key equal up to case. *)
Definition headerValue (headers : gmap string string) (key : string) : string :=
  match headers !! key with
  | Some v => v
  | None =>
      let lower := ToLower key in
      match List.find (fun kv => String.eqb (ToLower kv.1) lower)
                      (map_to_list headers) with
      | Some kv => kv.2
      | None => EmptyString
      end
  end.

(** [buildSigningMessage]. *)
Definition buildSigningMessage (timestamp nonce method path body : string) : string :=
  let bodyHash := Sha256.Sum256 body in
  let bodyHashHex := Hex.EncodeToString bodyHash in
  Join [timestamp; nonce; ToUpper method; path; bodyHashHex] (String "010" EmptyString).

(** [computeHMAC]. *)
Definition computeHMAC (secret message : string) : string :=
  let mac := Hmac.New secret in
  let mac := Hmac.Write mac message in
  Hex.EncodeToString (Hmac.Sum mac).

(** [hmac.Equal]: equal length and equal bytes. *)
Definition hmac_Equal (a b : string) : bool := String.eqb a b.

(** The first loop of [ValidateRequest] over the entries of
    [SigningKeys], in the order the map hands them out. *)
Fixpoint match_key_id (entries : list (string * string))
    (keyID signingMessage signature : string) : bool :=
  match entries with
  | [] => false
  | (kid, secret) :: rest =>
      if negb (String.eqb kid keyID)
      then match_key_id rest keyID signingMessage signature
      else if hmac_Equal (computeHMAC secret signingMessage) signature
           then true
           else match_key_id rest keyID signingMessage signature
  end.

(** The second loop: every configured secret. *)
Fixpoint match_any (entries : list (string * string))
    (signingMessage signature : string) : bool :=
  match entries with
  | [] => false
  | (_, secret) :: rest =>
      if hmac_Equal (computeHMAC secret signingMessage) signature
      then true
      else match_any rest signingMessage signature
  end.

(** [int64(math.Ceil(maxTimestampSkew.Seconds() * 2))]; 300.0 and 600.0
    are exact in floating point. *)
Definition nonceTTL : Z := 2 * (maxTimestampSkew / Second).

Section validator.
Context {S : Type} `{NonceStore S}.

(** [HMACValidator.ValidateRequest], with the validator's [SigningKeys],
    the instant [now] and the state [store] of its [NonceStore]. *)
Definition ValidateRequest (SigningKeys : gmap string string) (now : Z) (store : S)
    (method path : string) (headers : gmap string string) (body : string)
    : S * option auth_error :=
  let keyID := headerValue headers HeaderKeyID in
  let timestamp := headerValue headers HeaderTimestamp in
  let nonce := headerValue headers HeaderNonce in
  let signature := headerValue headers HeaderSignature in
  if empty keyID || empty timestamp || empty nonce || empty signature
  then (store, Some ErrMissingHeaders)
  else
    match ParseInt timestamp with
    | None => (store, Some ErrInvalidTimestamp)
    | Some ts =>
        let skew := Since now (Unix ts) in
        let skew := if skew <? 0 then wrap64 (- skew) else skew in
        if maxTimestampSkew <? skew
        then (store, Some (ErrTimestampSkew skew))
        else
          match CheckNonce store keyID nonce with
          | (store, (_, Some err)) => (store, Some (ErrNonceCheck err))
          | (store, (true, None)) => (store, Some ErrNonceUsed)
          | (store, (false, None)) =>
              let signingMessage :=
                buildSigningMessage timestamp nonce method path body in
              let entries := map_to_list SigningKeys in
              let matched := match_key_id entries keyID signingMessage signature in
              let matched :=
                if negb matched then match_any entries signingMessage signature
                else matched in
              if negb matched
              then (store, Some ErrInvalidSignature)
              else
                match StoreNonce store now keyID nonce nonceTTL with
                | (store, Some err) => (store, Some (ErrStoreNonce err))
                | (store, None) => (store, None)
                end
          end
    end.

End validator.

(** [SignPayload], at the instant [now] and with [nonce] the fresh
    [uuid.New().String()]; its error result is always nil. *)
Definition SignPayload (now : Z) (nonce : string)
    (keyID secret method path body : string) : gmap string string :=
  let timestamp := FormatInt (UnixSeconds now) in
  let signingMessage := buildSigningMessage timestamp nonce method path body in
  let sig := computeHMAC secret signingMessage in
  <[HeaderKeyID := keyID]>
    (<[HeaderTimestamp := timestamp]>
       (<[HeaderNonce := nonce]>
          (<[HeaderSignature := sig]> ∅))).

End Auth.


(* ===================================================================== *)
(** * internal/audit, internal/webhook *)
(* ===================================================================== *)

Module Audit.
Import Go Models Sys.

(** [Logger.Log]: a fresh event id, the current time, one unconditional
    put.  Callers discard its error. *)
Definition Log (env : Env) (w : World)
    (requestID : string) (eventType : EventType)
    (accountID channelID actorMMUserID actorEmail : string)
    (details : list (string * string)) : World :=
  let '(eventID, w) := new_uuid env w in
  Dynamo.PutAuditEvent w
    {| ev_RequestID := requestID; ev_EventID := eventID;
       ev_EventTime := UnixSeconds (now env); ev_EventType := eventType;
       ev_AccountID := accountID; ev_ChannelID := channelID;
       ev_ActorMMUserID := actorMMUserID; ev_ActorEmail := actorEmail;
       ev_Details := details |}.

End Audit.

Module Webhook.
Import Models Sys.

(** [Client.Notify]: the payload handed to the plugin.  Callers discard
    its error. *)
Definition Notify (w : World) (payload : WebhookPayload) : World :=
  set_notified (fun l => l ++ [payload]) w.

(** The client behind [Notify], on the JSON encoding [body] of the
    payload. *)
Module Client.
Import Go.

Record Client := {
  webhookURL : string;
  keyID : string;
  secret : string
}.

(** What the transport answers to one POST. *)
Inductive reply :=
| TransportError (err : error)
| Response (StatusCode : Z).

(** What one attempt of [Notify] meets: the clock and the fresh nonce
    that [SignPayload] draws, the error of the context if it is done
    before the preceding back-off has elapsed, and the transport. *)
Record attempt := {
  clock : Z;
  nonce : string;
  done : option error;
  answer : gmap string string -> string -> reply
}.

Definition retryBackoffs : list Z := [1 * Second; 2 * Second; 4 * Second].

(** [Client.send]. *)
Definition send (c : Client) (a : attempt) (body : string) : option error :=
  let method := "POST" in
  let path := "/jit/webhook" in
  let hmacHeaders :=
    Auth.SignPayload (clock a) (nonce a) (keyID c) (secret c) method path body in
  match answer a hmacHeaders body with
  | TransportError err => Some (Wrapf "webhook HTTP error" err)
  | Response code =>
      if (code <? 200) || (300 <=? code)
      then Some (Errorf ("webhook returned status " +:+ FormatInt code))
      else None
  end.

(** The result of [Notify], with the POSTs made and the back-offs waited
    in full. *)
Record outcome := {
  err : option error;
  sends : nat;
  slept : Z
}.

(** The loop of [Notify] from the retry number [n] on, after [lastErr];
    [backoffs] is [retryBackoffs[n-1:]]. *)
Fixpoint retry (c : Client) (tries : nat -> attempt) (body : string)
    (n : nat) (backoffs : list Z) (sent : nat) (waited : Z) (lastErr : error)
    : outcome :=
  match backoffs with
  | [] =>
      {| err := Some (Wrapf "webhook notify failed after retries" lastErr);
         sends := sent; slept := waited |}
  | backoff :: backoffs =>
      match done (tries n) with
      | Some ctxErr => {| err := Some ctxErr; sends := sent; slept := waited |}
      | None =>
          match send c (tries n) body with
          | None => {| err := None; sends := S sent; slept := waited + backoff |}
          | Some e =>
              retry c tries body (S n) backoffs (S sent) (waited + backoff) e
          end
      end
  end.

(** [Client.Notify]. *)
Definition Notify (c : Client) (tries : nat -> attempt) (body : string) : outcome :=
  match send c (tries O) body with
  | None => {| err := None; sends := 1; slept := 0 |}
  | Some e => retry c tries body 1 retryBackoffs 1 0 e
  end.

End Client.

End Webhook.

(* ===================================================================== *)
(** * internal/handlers: the request service *)
(* ===================================================================== *)

Module Handlers.
Import Go Models Sys.

(** [h.SFN.StartExecution] when a starter is configured; a failure to
    start is logged and does not fail the approval. *)
Definition StartExecution (env : Env) (w : World) (input : StepFunctionInput) : World :=
  if sfn_configured env then set_started (fun l => l ++ [input]) w else w.

(** The membership loop over [cfg.ApproverMMUserIDs]. *)
Fixpoint isApprover (ids : list string) (user : string) : bool :=
  match ids with
  | [] => false
  | uid :: rest => if String.eqb uid user then true else isApprover rest user
  end.

(** [HandleCreateRequest]: POST /requests. *)
Definition HandleCreateRequest (env : Env) (w : World) (input : CreateRequestInput)
    : result JitRequest * World :=
  if empty (cri_AccountID input) || empty (cri_ChannelID input)
  then (Err (Errorf "account_id and channel_id are required"), w)
  else if empty (cri_RequesterMMUserID input) || empty (cri_RequesterEmail input)
  then (Err (Errorf "requester_mm_user_id and requester_email are required"), w)
  else if empty (cri_Jira input) && empty (cri_Reason input)
  then (Err (Errorf "either jira or reason must be provided"), w)
  else if cri_RequestedDurationMinutes input <=? 0
  then (Err (Errorf "requested_duration_minutes must be positive"), w)
  else
    match Dynamo.GetConfig w (cri_ChannelID input) (cri_AccountID input) with
    | None =>
        (Err (Errorf ("no binding found for channel " +:+ cri_ChannelID input
                      +:+ " and account " +:+ cri_AccountID input)), w)
    | Some cfg =>
        let maxMinutes := wrap64 (MaxRequestHours cfg * 60) in
        if (0 <? maxMinutes) && (maxMinutes <? cri_RequestedDurationMinutes input)
        then (Err (Errorf ("requested duration "
                           +:+ FormatInt (cri_RequestedDurationMinutes input)
                           +:+ " minutes exceeds maximum "
                           +:+ FormatInt maxMinutes +:+ " minutes")), w)
        else
          match LookupUserByEmail env (cri_RequesterEmail input) with
          | Err err => (Err (Wrapf "identity lookup" err), w)
          | Ok userID =>
              let '(requestID, w) := new_uuid env w in
              let endTime :=
                now env + wrap64 (cri_RequestedDurationMinutes input * Minute) in
              let req :=
                {| RequestID := requestID;
                   AccountID := cri_AccountID input;
                   ChannelID := cri_ChannelID input;
                   RequesterMMUserID := cri_RequesterMMUserID input;
                   RequesterEmail := cri_RequesterEmail input;
                   Jira := cri_Jira input;
                   Reason := cri_Reason input;
                   RequestedDurationMinutes := cri_RequestedDurationMinutes input;
                   Status := StatusPending;
                   CreatedAt := UnixSeconds (now env);
                   ApprovedAt := None; DeniedAt := None; GrantTime := None;
                   RevokedAt := None; ExpiredAt := None;
                   EndTime := UnixSeconds endTime;
                   ApproverMMUserID := ""; ApproverEmail := "";
                   IdentityStoreUserID := userID;
                   ErrorDetails := "" |} in
              match Dynamo.CreateRequest w req with
              | (Some err, w) => (Err (Wrapf "create request" err), w)
              | (None, w) =>
                  let w :=
                    Audit.Log env w requestID EventRequested
                      (cri_AccountID input) (cri_ChannelID input)
                      (cri_RequesterMMUserID input) (cri_RequesterEmail input)
                      [("jira", cri_Jira input); ("reason", cri_Reason input);
                       ("requested_duration_minutes",
                        FormatInt (cri_RequestedDurationMinutes input))] in
                  (Ok req, w)
              end
          end
    end.

Definition wrong_status (requestID : string) (st : RequestStatus) (expected : string)
    : error :=
  Errorf ("request " +:+ requestID +:+ " is in status " +:+ status_string st
          +:+ ", expected " +:+ expected).

Definition not_found (requestID : string) : error :=
  Errorf ("request " +:+ requestID +:+ " not found").

Definition not_approver (user : string) : error :=
  Errorf ("user " +:+ user +:+ " is not an authorized approver").

(** [HandleApproveRequest]: POST /requests/{id}/approve.  The result is
    the request as re-read after the update. *)
Definition HandleApproveRequest (env : Env) (w : World) (input : ApproveRequestInput)
    : result (option JitRequest) * World :=
  if empty (ari_RequestID input)
  then (Err (Errorf "request_id is required"), w)
  else if empty (ari_ApproverMMUserID input) || empty (ari_ApproverEmail input)
  then (Err (Errorf "approver_mm_user_id and approver_email are required"), w)
  else
    match Dynamo.GetRequest w (ari_RequestID input) with
    | None => (Err (not_found (ari_RequestID input)), w)
    | Some req =>
        if negb (status_eqb (Status req) StatusPending)
        then (Err (wrong_status (ari_RequestID input) (Status req) "PENDING"), w)
        else
          let cfg := Dynamo.GetConfig w (ChannelID req) (AccountID req) in
          let denied :=
            match cfg with
            | Some cfg =>
                if negb (isApprover (ApproverMMUserIDs cfg) (ari_ApproverMMUserID input))
                then Some (not_approver (ari_ApproverMMUserID input))
                else if negb (AllowSelfApproval cfg)
                        && String.eqb (ari_ApproverMMUserID input) (RequesterMMUserID req)
                then Some (Errorf "self-approval is not allowed")
                else None
            | None => None
            end in
          match denied with
          | Some err => (Err err, w)
          | None =>
              let updates :=
                [Dynamo.set_status StatusApproved;
                 Dynamo.set_approved_at (UnixSeconds (now env));
                 Dynamo.set_approver_mm_user_id (ari_ApproverMMUserID input);
                 Dynamo.set_approver_email (ari_ApproverEmail input)] in
              match Dynamo.ConditionalUpdateStatus w (ari_RequestID input)
                      StatusPending updates with
              | (Some err, w) => (Err (Wrapf "update to APPROVED" err), w)
              | (None, w) =>
                  let w :=
                    Audit.Log env w (ari_RequestID input) EventApproved
                      (AccountID req) (ChannelID req)
                      (ari_ApproverMMUserID input) (ari_ApproverEmail input) [] in
                  let sfInput :=
                    {| sfi_RequestID := RequestID req;
                       sfi_AccountID := AccountID req;
                       sfi_ChannelID := ChannelID req;
                       sfi_IdentityStoreUserID := IdentityStoreUserID req;
                       sfi_DurationMinutes := RequestedDurationMinutes req;
                       sfi_RequesterEmail := RequesterEmail req |} in
                  let w := StartExecution env w sfInput in
                  (Ok (Dynamo.GetRequest w (ari_RequestID input)), w)
              end
          end
    end.

(** [HandleDenyRequest]: POST /requests/{id}/deny. *)
Definition HandleDenyRequest (env : Env) (w : World) (input : DenyRequestInput)
    : result (option JitRequest) * World :=
  if empty (dri_RequestID input)
  then (Err (Errorf "request_id is required"), w)
  else if empty (dri_DenierMMUserID input) || empty (dri_DenierEmail input)
  then (Err (Errorf "denier_mm_user_id and denier_email are required"), w)
  else
    match Dynamo.GetRequest w (dri_RequestID input) with
    | None => (Err (not_found (dri_RequestID input)), w)
    | Some req =>
        if negb (status_eqb (Status req) StatusPending)
        then (Err (wrong_status (dri_RequestID input) (Status req) "PENDING"), w)
        else
          let cfg := Dynamo.GetConfig w (ChannelID req) (AccountID req) in
          let denied :=
            match cfg with
            | Some cfg =>
                if negb (isApprover (ApproverMMUserIDs cfg) (dri_DenierMMUserID input))
                then Some (not_approver (dri_DenierMMUserID input))
                else None
            | None => None
            end in
          match denied with
          | Some err => (Err err, w)
          | None =>
              let updates :=
                [Dynamo.set_status StatusDenied;
                 Dynamo.set_denied_at (UnixSeconds (now env));
                 Dynamo.set_approver_mm_user_id (dri_DenierMMUserID input);
                 Dynamo.set_approver_email (dri_DenierEmail input)] in
              match Dynamo.ConditionalUpdateStatus w (dri_RequestID input)
                      StatusPending updates with
              | (Some err, w) => (Err (Wrapf "update to DENIED" err), w)
              | (None, w) =>
                  let w :=
                    Audit.Log env w (dri_RequestID input) EventDenied
                      (AccountID req) (ChannelID req)
                      (dri_DenierMMUserID input) (dri_DenierEmail input) [] in
                  (Ok (Dynamo.GetRequest w (dri_RequestID input)), w)
              end
          end
    end.

(** [HandleRevokeRequest]: POST /requests/{id}/revoke. *)
Definition HandleRevokeRequest (env : Env) (w : World) (input : RevokeRequestInput)
    : result (option JitRequest) * World :=
  if empty (rri_RequestID input)
  then (Err (Errorf "request_id is required"), w)
  else if empty (rri_ActorMMUserID input) || empty (rri_ActorEmail input)
  then (Err (Errorf "actor_mm_user_id and actor_email are required"), w)
  else
    match Dynamo.GetRequest w (rri_RequestID input) with
    | None => (Err (not_found (rri_RequestID input)), w)
    | Some req =>
        if negb (status_eqb (Status req) StatusGranted)
        then (Err (wrong_status (rri_RequestID input) (Status req) "GRANTED"), w)
        else
          match RevokeAccess env (AccountID req) (IdentityStoreUserID req) with
          | Some err =>
              let errUpdates :=
                [Dynamo.set_status StatusError;
                 Dynamo.set_error_details (Error err)] in
              let w :=
                (Dynamo.ConditionalUpdateStatus w (rri_RequestID input)
                   StatusGranted errUpdates).2 in
              (Err (Wrapf "revoke access" err), w)
          | None =>
              let updates :=
                [Dynamo.set_status StatusRevoked;
                 Dynamo.set_revoked_at (UnixSeconds (now env))] in
              match Dynamo.ConditionalUpdateStatus w (rri_RequestID input)
                      StatusGranted updates with
              | (Some err, w) => (Err (Wrapf "update to REVOKED" err), w)
              | (None, w) =>
                  let w :=
                    Audit.Log env w (rri_RequestID input) EventRevoked
                      (AccountID req) (ChannelID req)
                      (rri_ActorMMUserID input) (rri_ActorEmail input) [] in
                  let w :=
                    Webhook.Notify w
                      {| wh_RequestID := rri_RequestID input;
                         wh_Status := StatusRevoked;
                         wh_AccountID := AccountID req;
                         wh_ChannelID := ChannelID req;
                         wh_Actor := rri_ActorEmail input;
                         wh_Details := [] |} in
                  (Ok (Dynamo.GetRequest w (rri_RequestID input)), w)
              end
          end
    end.

(** [HandleBindAccount]: POST /config/bind.  The check reads the index
    image of the invocation and the put that follows is unconditional, on
    the table as it is by then. *)
Definition HandleBindAccount (env : Env) (w : World) (input : BindAccountInput)
    : result JitConfig * World :=
  if empty (bai_ChannelID input) || empty (bai_AccountID input)
  then (Err (Errorf "channel_id and account_id are required"), w)
  else
    let existing :=
      Dynamo.GetChannelForAccount (gsi_account env) (bai_AccountID input) in
    let conflict :=
      match existing with
      | Some existing =>
          if negb (String.eqb (cfg_ChannelID existing) (bai_ChannelID input))
          then Some (Errorf ("account " +:+ bai_AccountID input
                             +:+ " is already bound to channel "
                             +:+ cfg_ChannelID existing))
          else None
      | None => None
      end in
    match conflict with
    | Some err => (Err err, w)
    | None =>
        let cfg :=
          match Dynamo.GetConfig w (bai_ChannelID input) (bai_AccountID input) with
          | Some existingCfg =>
              {| cfg_ChannelID := bai_ChannelID input;
                 cfg_AccountID := bai_AccountID input;
                 ApproverMMUserIDs := ApproverMMUserIDs existingCfg;
                 ApprovalPolicy := ApprovalPolicy existingCfg;
                 AllowSelfApproval := AllowSelfApproval existingCfg;
                 MaxRequestHours := MaxRequestHours existingCfg;
                 SessionDurationMinutes := SessionDurationMinutes existingCfg;
                 UpdatedAt := UnixSeconds (now env) |}
          | None =>
              {| cfg_ChannelID := bai_ChannelID input;
                 cfg_AccountID := bai_AccountID input;
                 ApproverMMUserIDs := [];
                 ApprovalPolicy := "one_of_n";
                 AllowSelfApproval := false;
                 MaxRequestHours := 4;
                 SessionDurationMinutes := 0;
                 UpdatedAt := UnixSeconds (now env) |}
          end in
        (Ok cfg, Dynamo.PutConfig w cfg)
    end.

(** [HandleSetApprovers]: POST /config/approvers. *)
Definition HandleSetApprovers (env : Env) (w : World) (input : SetApproversInput)
    : result (list JitConfig) * World :=
  if empty (sai_ChannelID input)
  then (Err (Errorf "channel_id is required"), w)
  else if (length (sai_ApproverIDs input) =? 0)%nat
  then (Err (Errorf "at least one approver ID is required"), w)
  else
    let configs := Dynamo.GetConfigsByChannel w (sai_ChannelID input) in
    if (length configs =? 0)%nat
    then (Err (Errorf ("no accounts bound to channel " +:+ sai_ChannelID input)), w)
    else
      let step (acc : list JitConfig * World) (cfg : JitConfig) :=
        let cfg :=
          {| cfg_ChannelID := cfg_ChannelID cfg; cfg_AccountID := cfg_AccountID cfg;
             ApproverMMUserIDs := sai_ApproverIDs input;
             ApprovalPolicy := ApprovalPolicy cfg;
             AllowSelfApproval := AllowSelfApproval cfg;
             MaxRequestHours := MaxRequestHours cfg;
             SessionDurationMinutes := SessionDurationMinutes cfg;
             UpdatedAt := UnixSeconds (now env) |} in
        (acc.1 ++ [cfg], Dynamo.PutConfig acc.2 cfg) in
      let '(updated, w) := fold_left step configs ([], w) in
      (Ok updated, w).

(** [HandleListRequests]: GET /requests.  It writes nothing; [Query] is
    the table service's answer to an index query. *)
Definition HandleListRequests (Query : Dynamo.QueryInput -> result Dynamo.QueryOutput)
    (input : ReportingInput) : result ReportingResponse :=
  if empty (ri_ChannelID input) && empty (ri_AccountID input)
     && empty (ri_RequesterEmail input) && empty (ri_Status input)
  then Err (Errorf ("at least one filter is required "
                    +:+ "(channel_id, account_id, requester_email, or status)"))
  else
    let limit := if ri_Limit input <=? 0 then 50 else ri_Limit input in
    let limit := if 200 <? limit then 200 else limit in
    let input :=
      {| ri_ChannelID := ri_ChannelID input; ri_AccountID := ri_AccountID input;
         ri_RequesterEmail := ri_RequesterEmail input; ri_Status := ri_Status input;
         ri_StartDate := ri_StartDate input; ri_EndDate := ri_EndDate input;
         ri_NextToken := ri_NextToken input; ri_Limit := limit |} in
    match Dynamo.QueryRequests Query input with
    | Err err => Err (Wrapf "query requests" err)
    | Ok (requests, nextToken) =>
        let put (name value : string) (filters : gmap string string) :=
          if negb (empty value) then <[name := value]> filters else filters in
        let filters :=
          put "end_date" (ri_EndDate input)
            (put "start_date" (ri_StartDate input)
               (put "status" (ri_Status input)
                  (put "requester_email" (ri_RequesterEmail input)
                     (put "account_id" (ri_AccountID input)
                        (put "channel_id" (ri_ChannelID input) ∅))))) in
        Ok {| rr_Items := requests; rr_NextToken := nextToken; rr_Filters := filters |}
    end.

(** [HandleGetBoundAccounts]: GET /config/accounts. *)
Definition HandleGetBoundAccounts (w : World) (channelID : string)
    : result (list JitConfig) :=
  if empty channelID
  then Err (Errorf "channel_id query parameter is required")
  else Ok (Dynamo.GetConfigsByChannel w channelID).

End Handlers.

(* ===================================================================== *)
(** * internal/handlers: the orchestrator's actions *)
(* ===================================================================== *)

Module Actions.
Import Go Models Sys.

Record StepFunctionActionPayload := {
  Action : string;
  p_RequestID : string;
  p_AccountID : string;
  p_ChannelID : string;
  p_IdentityStoreUserID : string;
  p_RequesterEmail : string;
  DurationSeconds : Z;
  p_Error : option string
}.

Record ActionResult := {
  ar_Status : string;
  ar_RequestID : string;
  Message : string
}.

(** [handleRevoke]: the workflow's revoke step after the wait. *)
Definition handleRevoke (env : Env) (w : World) (p : StepFunctionActionPayload)
    : result ActionResult * World :=
  match Dynamo.GetRequest w (p_RequestID p) with
  | None => (Err (Handlers.not_found (p_RequestID p)), w)
  | Some req =>
      if status_eqb (Status req) StatusRevoked || status_eqb (Status req) StatusExpired
      then (Ok {| ar_Status := status_string (Status req);
                  ar_RequestID := p_RequestID p;
                  Message := "already revoked or expired" |}, w)
      else
        match RevokeAccess env (AccountID req) (IdentityStoreUserID req) with
        | Some err => (Err (Wrapf "revoke access" err), w)
        | None =>
            let updates :=
              [Dynamo.set_status StatusExpired;
               Dynamo.set_expired_at (UnixSeconds (now env))] in
            match Dynamo.ConditionalUpdateStatus w (p_RequestID p)
                    StatusGranted updates with
            | (Some err, w) =>
                (Ok {| ar_Status := "already_handled";
                       ar_RequestID := p_RequestID p;
                       Message := "conditional update failed, likely already revoked" |},
                 w)
            | (None, w) =>
                let w :=
                  Audit.Log env w (p_RequestID p) EventExpired
                    (AccountID req) (ChannelID req) "" "system" [] in
                (Ok {| ar_Status := "expired"; ar_RequestID := p_RequestID p;
                       Message := "" |}, w)
            end
        end
  end.

(** [handleValidate]: the first step of the workflow. *)
Definition handleValidate (env : Env) (w : World) (p : StepFunctionActionPayload)
    : result ActionResult * World :=
  match Dynamo.GetRequest w (p_RequestID p) with
  | None => (Err (Handlers.not_found (p_RequestID p)), w)
  | Some req =>
      if negb (status_eqb (Status req) StatusApproved)
      then (Err (Handlers.wrong_status (p_RequestID p) (Status req) "APPROVED"), w)
      else (Ok {| ar_Status := "validated"; ar_RequestID := p_RequestID p;
                  Message := "" |}, w)
  end.

(** [handleGrant]: the assignment is created before the status moves. *)
Definition handleGrant (env : Env) (w : World) (p : StepFunctionActionPayload)
    : result ActionResult * World :=
  match Dynamo.GetRequest w (p_RequestID p) with
  | None => (Err (Handlers.not_found (p_RequestID p)), w)
  | Some req =>
      match GrantAccess env (AccountID req) (IdentityStoreUserID req) with
      | Some err => (Err (Wrapf "grant access" err), w)
      | None =>
          let updates :=
            [Dynamo.set_status StatusGranted;
             Dynamo.set_grant_time (UnixSeconds (now env))] in
          match Dynamo.ConditionalUpdateStatus w (p_RequestID p)
                  StatusApproved updates with
          | (Some err, w) => (Err (Wrapf "update to GRANTED" err), w)
          | (None, w) =>
              let w :=
                Audit.Log env w (p_RequestID p) EventGranted
                  (AccountID req) (ChannelID req) "" "system" [] in
              (Ok {| ar_Status := "granted"; ar_RequestID := p_RequestID p;
                     Message := "" |}, w)
          end
      end
  end.

(** [handleNotifyGranted]. *)
Definition handleNotifyGranted (env : Env) (w : World) (p : StepFunctionActionPayload)
    : result ActionResult * World :=
  match Dynamo.GetRequest w (p_RequestID p) with
  | None => (Err (Handlers.not_found (p_RequestID p)), w)
  | Some req =>
      let w :=
        Webhook.Notify w
          {| wh_RequestID := RequestID req; wh_Status := StatusGranted;
             wh_AccountID := AccountID req; wh_ChannelID := ChannelID req;
             wh_Actor := "system";
             wh_Details :=
               [("requester_email", RequesterEmail req);
                ("duration_minutes", FormatInt (RequestedDurationMinutes req))] |} in
      (Ok {| ar_Status := "notified"; ar_RequestID := p_RequestID p;
             Message := "" |}, w)
  end.

(** [handleNotifyRevoked]: the callback carries the stored status. *)
Definition handleNotifyRevoked (env : Env) (w : World) (p : StepFunctionActionPayload)
    : result ActionResult * World :=
  match Dynamo.GetRequest w (p_RequestID p) with
  | None => (Err (Handlers.not_found (p_RequestID p)), w)
  | Some req =>
      let w :=
        Webhook.Notify w
          {| wh_RequestID := RequestID req; wh_Status := Status req;
             wh_AccountID := AccountID req; wh_ChannelID := ChannelID req;
             wh_Actor := "system"; wh_Details := [] |} in
      (Ok {| ar_Status := "notified"; ar_RequestID := p_RequestID p;
             Message := "" |}, w)
  end.

(** [handleGrantError]: the catch of the grant step. *)
Definition handleGrantError (env : Env) (w : World) (p : StepFunctionActionPayload)
    : result ActionResult * World :=
  match Dynamo.GetRequest w (p_RequestID p) with
  | None => (Err (Handlers.not_found (p_RequestID p)), w)
  | Some req =>
      let errorDetail :=
        match p_Error p with
        | Some raw => raw
        | None => "grant step failed"
        end in
      let updates :=
        [Dynamo.set_status StatusError; Dynamo.set_error_details errorDetail] in
      let w :=
        match Dynamo.ConditionalUpdateStatus w (p_RequestID p)
                StatusApproved updates with
        | (Some err, w) =>
            (Dynamo.ConditionalUpdateStatus w (p_RequestID p)
               StatusGranted updates).2
        | (None, w) => w
        end in
      let w :=
        Audit.Log env w (p_RequestID p) EventError (AccountID req) (ChannelID req)
          "" "system" [("error", errorDetail); ("phase", "grant")] in
      let w :=
        Webhook.Notify w
          {| wh_RequestID := RequestID req; wh_Status := StatusError;
             wh_AccountID := AccountID req; wh_ChannelID := ChannelID req;
             wh_Actor := "system";
             wh_Details := [("error", errorDetail); ("phase", "grant")] |} in
      (Ok {| ar_Status := "error_handled"; ar_RequestID := p_RequestID p;
             Message := errorDetail |}, w)
  end.

(** [handleRevokeError]: the catch of the revoke step. *)
Definition handleRevokeError (env : Env) (w : World) (p : StepFunctionActionPayload)
    : result ActionResult * World :=
  match Dynamo.GetRequest w (p_RequestID p) with
  | None => (Err (Handlers.not_found (p_RequestID p)), w)
  | Some req =>
      let errorDetail :=
        match p_Error p with
        | Some raw => raw
        | None => "revoke step failed"
        end in
      let updates :=
        [Dynamo.set_status StatusError; Dynamo.set_error_details errorDetail] in
      let w :=
        (Dynamo.ConditionalUpdateStatus w (p_RequestID p) StatusGranted updates).2 in
      let w :=
        Audit.Log env w (p_RequestID p) EventError (AccountID req) (ChannelID req)
          "" "system" [("error", errorDetail); ("phase", "revoke")] in
      let w :=
        Webhook.Notify w
          {| wh_RequestID := RequestID req; wh_Status := StatusError;
             wh_AccountID := AccountID req; wh_ChannelID := ChannelID req;
             wh_Actor := "system";
             wh_Details := [("error", errorDetail); ("phase", "revoke")] |} in
      (Ok {| ar_Status := "error_handled"; ar_RequestID := p_RequestID p;
             Message := errorDetail |}, w)
  end.

(** [ActionHandler.Handle] on a decoded payload. *)
Definition Handle (env : Env) (w : World) (payload : StepFunctionActionPayload)
    : result ActionResult * World :=
  if String.eqb (Action payload) "validate" then handleValidate env w payload
  else if String.eqb (Action payload) "grant" then handleGrant env w payload
  else if String.eqb (Action payload) "notify_granted"
  then handleNotifyGranted env w payload
  else if String.eqb (Action payload) "revoke" then handleRevoke env w payload
  else if String.eqb (Action payload) "notify_revoked"
  then handleNotifyRevoked env w payload
  else if String.eqb (Action payload) "handle_grant_error"
  then handleGrantError env w payload
  else if String.eqb (Action payload) "handle_revoke_error"
  then handleRevokeError env w payload
  else (Err (Errorf ("unknown action: " +:+ Action payload)), w).

End Actions.

(* ===================================================================== *)
(** * internal/handlers: the router *)
(* ===================================================================== *)

Module Router.
Import Go Models Sys.

(** [matchPath]: whether [path] is [prefix], a non-empty id and [suffix].
    [None] is the panic of its slice expression. *)
Definition matchPath (path prefix suffix : string) : option bool :=
  if negb (HasPrefix path prefix) then Some false
  else if negb (HasSuffix path suffix) then Some false
  else
    match slice path (Z.of_nat (String.length prefix))
            (Z.of_nat (String.length path) - Z.of_nat (String.length suffix)) with
    | Some middle => Some (0 <? String.length middle)%nat
    | None => None
    end.

(** [extractPathParam]. *)
Definition extractPathParam (path prefix suffix : string) : option string :=
  slice path (Z.of_nat (String.length prefix))
    (Z.of_nat (String.length path) - Z.of_nat (String.length suffix)).

(** The handler a request is routed to, with its path parameter. *)
Inductive endpoint :=
| CreateRequest
| ApproveRequest (requestID : string)
| DenyRequest (requestID : string)
| RevokeRequest (requestID : string)
| ListRequests
| GetRequest (requestID : string)
| BindAccount
| SetApprovers
| GetBoundAccounts
| NotFound.

(** One case [method == verb && matchPath(path, prefix, suffix)] of the
    switch, with the extraction of its body. *)
Definition with_id (method verb path prefix suffix : string)
    (found : string -> endpoint) (otherwise : option endpoint) : option endpoint :=
  if negb (String.eqb method verb) then otherwise
  else
    match matchPath path prefix suffix with
    | None => None
    | Some false => otherwise
    | Some true => found <$> extractPathParam path prefix suffix
    end.

(** The switch of [Route] on method and path, cases in source order;
    [None] is a panic. *)
Definition dispatch (method path : string) : option endpoint :=
  let config_routes :=
    if String.eqb method "POST" && String.eqb path "/config/bind"
    then Some BindAccount
    else if String.eqb method "POST" && String.eqb path "/config/approvers"
    then Some SetApprovers
    else if String.eqb method "GET" && String.eqb path "/config/accounts"
    then Some GetBoundAccounts
    else Some NotFound in
  if String.eqb method "POST" && String.eqb path "/requests" then Some CreateRequest
  else
    with_id method "POST" path "/requests/" "/approve" ApproveRequest
      (with_id method "POST" path "/requests/" "/deny" DenyRequest
         (with_id method "POST" path "/requests/" "/revoke" RevokeRequest
            (if String.eqb method "GET" && String.eqb path "/requests"
             then Some ListRequests
             else if String.eqb method "GET" && HasPrefix path "/requests/"
             then
               match slice path (Z.of_nat (String.length "/requests/"))
                       (Z.of_nat (String.length path)) with
               | None => None
               | Some rest =>
                   if negb (Contains rest "/") then Some (GetRequest rest)
                   else config_routes
               end
             else config_routes))).

(** What [Route] does with a request. *)
Inductive routed :=
| Unauthorized (err : Auth.auth_error)
| Routed (e : endpoint)
| Panic.

(** [Router.Route] up to the call of the handler: the signature is
    checked before the path is looked at. *)
Definition Route {S : Type} `{Auth.NonceStore S}
    (SigningKeys : gmap string string) (now : Z) (store : S)
    (method path : string) (headers : gmap string string) (body : string)
    : S * routed :=
  match Auth.ValidateRequest SigningKeys now store method path headers body with
  | (store, Some err) => (store, Unauthorized err)
  | (store, None) =>
      (store,
       match dispatch method path with
       | Some e => Routed e
       | None => Panic
       end)
  end.

End Router.

(* ===================================================================== *)
(** * cmd/reconciler *)
(* ===================================================================== *)

Module Reconciler.
Import Go Models Sys.

Inductive Level := LevelInfo | LevelWarn | LevelError.

(** One [slog] record: level, message and attributes. *)
Record LogRecord := {
  level : Level;
  msg : string;
  attrs : list (string * string)
}.

Definition slog (l : Level) (m : string) (a : list (string * string)) : LogRecord :=
  {| level := l; msg := m; attrs := a |}.

(** [revokeExpired] on one request [req] of the query result. *)
Definition revokeExpired (env : Env) (w : World) (req : JitRequest)
    : option error * World * list LogRecord :=
  match RevokeAccess env (AccountID req) (IdentityStoreUserID req) with
  | Some err =>
      let errUpdates :=
        [Dynamo.set_status StatusError;
         Dynamo.set_error_details ("reconciler revoke failed: " +:+ Error err)] in
      let w := (Dynamo.ConditionalUpdateStatus w (RequestID req)
                  StatusGranted errUpdates).2 in
      let w :=
        Audit.Log env w (RequestID req) EventError (AccountID req) (ChannelID req)
          "" "reconciler" [("error", Error err)] in
      (Some (Wrapf ("revoke access for " +:+ RequestID req) err), w, [])
  | None =>
      let updates :=
        [Dynamo.set_status StatusExpired;
         Dynamo.set_expired_at (UnixSeconds (now env))] in
      match Dynamo.ConditionalUpdateStatus w (RequestID req) StatusGranted updates with
      | (Some err, w) =>
          (None, w,
           [slog LevelWarn
              "conditional update to EXPIRED failed, may have been revoked already"
              [("request_id", RequestID req); ("error", Error err)]])
      | (None, w) =>
          let w :=
            Audit.Log env w (RequestID req) EventExpired (AccountID req) (ChannelID req)
              "" "reconciler" [] in
          let w :=
            Webhook.Notify w
              {| wh_RequestID := RequestID req; wh_Status := StatusExpired;
                 wh_AccountID := AccountID req; wh_ChannelID := ChannelID req;
                 wh_Actor := "reconciler"; wh_Details := [] |} in
          (None, w,
           [slog LevelInfo "expired grant revoked"
              [("request_id", RequestID req); ("account_id", AccountID req);
               ("requester", RequesterEmail req)]])
      end
  end.

(** The loop of [Handle] over the query result: world, log and error
    count after the requests processed so far. *)
Fixpoint sweep (env : Env) (requests : list JitRequest)
    (w : World) (log : list LogRecord) (errCount : Z)
    : World * list LogRecord * Z :=
  match requests with
  | [] => (w, log, errCount)
  | req :: rest =>
      match revokeExpired env w req with
      | (Some err, w, l) =>
          sweep env rest w
            (log ++ l ++
               [slog LevelError "failed to revoke expired grant"
                  [("request_id", RequestID req); ("account_id", AccountID req);
                   ("error", Error err)]])
            (errCount + 1)
      | (None, w, l) => sweep env rest w (log ++ l) errCount
      end
  end.

(** [Reconciler.Handle]: one tick of the schedule. *)
Definition Handle (env : Env) (w : World) : option error * World * list LogRecord :=
  let now := UnixSeconds (now env) in
  let log := [slog LevelInfo "reconciler run starting" [("now", FormatInt now)]] in
  let requests := Dynamo.QueryRequestsByStatus w StatusGranted (Some now) 0 in
  let total := FormatInt (Z.of_nat (length requests)) in
  let log := log ++ [slog LevelInfo "found expired grants" [("count", total)]] in
  let '(w, log, errCount) := sweep env requests w log 0 in
  if 0 <? errCount
  then
    (Some (Errorf ("reconciler completed with " +:+ FormatInt errCount
                   +:+ " errors out of " +:+ total)),
     w,
     log ++ [slog LevelWarn "reconciler completed with errors"
               [("total", total); ("errors", FormatInt errCount)]])
  else
    (None, w,
     log ++ [slog LevelInfo "reconciler run completed" [("processed", total)]]).

End Reconciler.

(* ===================================================================== *)
(** * Vocabulary of the properties *)
(* ===================================================================== *)

Import Go Models Sys.

Abbreviation nonce_table := (gmap (string * string) NonceEntry).

(** The entry [StoreNonce] writes at the instant [now]. *)
Definition nonce_entry (now : Z) (keyID nonce : string) : NonceEntry :=
  {| ne_KeyID := keyID; ne_Nonce := nonce; ne_CreatedAt := UnixSeconds now;
     ne_ExpiresAt := wrap64 (UnixSeconds now + Auth.nonceTTL) |}.

(** What can happen to the nonce table up to the instant [T]: some
    validator handles some request, or the time-to-live sweep runs. *)
Inductive nonce_step (T : Z) : nonce_table -> nonce_table -> Prop :=
| step_validate (keys : gmap string string) (now : Z) (method path : string)
    (headers : gmap string string) (body : string) (t : nonce_table) :
    now <= T ->
    nonce_step T t (Auth.ValidateRequest keys now t method path headers body).1
| step_sweep (now : Z) (t t' : nonce_table) :
    now <= T -> Dynamo.ttl_sweep now t t' -> nonce_step T t t'.

(** The skew [ValidateRequest] compares with [maxTimestampSkew]: the
    absolute value of [time.Since], negated in 64 bits. *)
Definition observed_skew (now ts : Z) : Z :=
  let skew := Since now (Unix ts) in
  if skew <? 0 then wrap64 (- skew) else skew.

(** An operation that returns an error. *)
Definition fails {A : Type} (r : result A) : Prop := exists err, r = Err err.

(** The requests a reconciler tick finds overdue. *)
Definition overdue (env : Env) (w : World) : list JitRequest :=
  Dynamo.QueryRequestsByStatus w StatusGranted (Some (UnixSeconds (now env))) 0.

(** Invariant U-1: an account is bound to at most one channel. *)
Definition account_unique (w : World) : Prop :=
  forall ch1 ch2 acct,
    is_Some (tableConfig w !! (ch1, acct)) ->
    is_Some (tableConfig w !! (ch2, acct)) -> ch1 = ch2.

(** The image of [gsi_account] that the invocation meets has caught up
    with the config table, and no other invocation writes in between:
    what holds of invocations that run one after the other, each once the
    index has received the writes before it. *)
Definition index_current (env : Env) (w : World) : Prop :=
  gsi_account env = tableConfig w.

(** The audit events appended between two worlds. *)
Definition emitted (w w' : World) : list AuditEvent :=
  skipn (length (tableAudit w)) (tableAudit w').

(** The stored status of a request. *)
Definition status_of (w : World) (requestID : string) : option RequestStatus :=
  Status <$> Dynamo.GetRequest w requestID.




(** The entry points that write to the tables: the six writing routes,
    the workflow's actions and the reconciler's tick. *)
Inductive operation :=
| OpCreateRequest (input : CreateRequestInput)
| OpApproveRequest (input : ApproveRequestInput)
| OpDenyRequest (input : DenyRequestInput)
| OpRevokeRequest (input : RevokeRequestInput)
| OpBindAccount (input : BindAccountInput)
| OpSetApprovers (input : SetApproversInput)
| OpAction (payload : Actions.StepFunctionActionPayload)
| OpReconcile.

(** The world after an operation, whatever it answered. *)
Definition run (env : Env) (w : World) (op : operation) : World :=
  match op with
  | OpCreateRequest input => (Handlers.HandleCreateRequest env w input).2
  | OpApproveRequest input => (Handlers.HandleApproveRequest env w input).2
  | OpDenyRequest input => (Handlers.HandleDenyRequest env w input).2
  | OpRevokeRequest input => (Handlers.HandleRevokeRequest env w input).2
  | OpBindAccount input => (Handlers.HandleBindAccount env w input).2
  | OpSetApprovers input => (Handlers.HandleSetApprovers env w input).2
  | OpAction payload => (Actions.Handle env w payload).2
  | OpReconcile => (Reconciler.Handle env w).1.2
  end.

(** The edges of the request lifecycle. *)
Definition transition (a b : RequestStatus) : bool :=
  match a, b with
  | StatusPending, StatusApproved | StatusPending, StatusDenied
  | StatusApproved, StatusGranted | StatusApproved, StatusError
  | StatusGranted, StatusRevoked | StatusGranted, StatusExpired
  | StatusGranted, StatusError => true
  | _, _ => false
  end.

(** The statuses no edge leaves. *)
Definition terminal (s : RequestStatus) : bool :=
  match s with
  | StatusDenied | StatusRevoked | StatusExpired | StatusError => true
  | _ => false
  end.

(** The attributes of a request that are written once, at creation. *)
Definition same_request (a b : JitRequest) : Prop :=
  RequestID a = RequestID b /\ AccountID a = AccountID b
  /\ ChannelID a = ChannelID b
  /\ RequesterMMUserID a = RequesterMMUserID b
  /\ RequesterEmail a = RequesterEmail b
  /\ Jira a = Jira b /\ Reason a = Reason b
  /\ RequestedDurationMinutes a = RequestedDurationMinutes b
  /\ CreatedAt a = CreatedAt b /\ EndTime a = EndTime b
  /\ IdentityStoreUserID a = IdentityStoreUserID b.

(** How one row of the requests table may differ between two worlds: not
    at all, created PENDING, or moved along one edge of the lifecycle. *)
Definition row_step (before after : option JitRequest) : Prop :=
  after = before
  \/ (before = None /\ exists r, after = Some r /\ Status r = StatusPending)
  \/ (exists r r', before = Some r /\ after = Some r' /\ same_request r r'
                   /\ transition (Status r) (Status r') = true).

(** What the reconciler may do to a row: nothing, or end a grant. *)
Definition expiry_step (before after : option JitRequest) : Prop :=
  after = before
  \/ (exists r r', before = Some r /\ after = Some r' /\ same_request r r'
                   /\ Status r = StatusGranted
                   /\ (Status r' = StatusExpired \/ Status r' = StatusError)).

(** The worlds some sequence of operations leads to, each operation with
    a clock and surroundings of its own. *)
Definition reachable : World -> World -> Prop :=
  rtc (fun w w' => exists env op, w' = run env w op).

(** Every workflow execution started is for a request of its own, which
    is no longer PENDING. *)
Definition started_once (w : World) : Prop :=
  NoDup (map sfi_RequestID (started w))
  /\ forall i, In i (started w) ->
       exists r, Dynamo.GetRequest w (sfi_RequestID i) = Some r
                 /\ Status r <> StatusPending.

(** The primary key of a binding. *)
Definition key_of (c : JitConfig) : string * string := (cfg_ChannelID c, cfg_AccountID c).


(** The payload of one state of the workflow: the execution input with
    the state's action. *)
Definition with_action (action : string) (p : Actions.StepFunctionActionPayload)
    : Actions.StepFunctionActionPayload :=
  {| Actions.Action := action; Actions.p_RequestID := Actions.p_RequestID p;
     Actions.p_AccountID := Actions.p_AccountID p;
     Actions.p_ChannelID := Actions.p_ChannelID p;
     Actions.p_IdentityStoreUserID := Actions.p_IdentityStoreUserID p;
     Actions.p_RequesterEmail := Actions.p_RequesterEmail p;
     Actions.DurationSeconds := Actions.DurationSeconds p;
     Actions.p_Error := Actions.p_Error p |}.

(** The callbacks delivered between two worlds. *)
Definition delivered (w w' : World) : list WebhookPayload :=
  skipn (length (notified w)) (notified w').

(** The suffixes of a string, longest first. *)
Fixpoint suffixes (s : string) : list string :=
  s :: match s with
       | EmptyString => []
       | String _ rest => suffixes rest
       end.

(** Whether the byte [c] occurs in [s]. *)
Fixpoint has_byte (c : ascii) (s : string) : bool :=
  match s with
  | EmptyString => false
  | String x rest => Ascii.eqb x c || has_byte c rest
  end.

(** One pair of a pagination token. *)
Definition token_pair (kv : string * string) : string := kv.1 +:+ "=" +:+ kv.2.

(** [splitToken] as a recursion on the text, with the part read so far. *)
Fixpoint split_from (rest current : string) : list string :=
  match rest with
  | EmptyString => [current]
  | String c rest =>
      if Ascii.eqb c "|" then current :: split_from rest ""
      else split_from rest (current +:+ String c "")
  end.

(** The text after the first pair of a token. *)
Definition token_tail (pairs : list (string * string)) : string :=
  fold_right (fun p t => "|" +:+ token_pair p +:+ t) "" pairs.

(** A pair whose key and value can be told apart in a token. *)
Definition plain_pair (p : string * string) : Prop :=
  has_byte "|" p.1 = false /\ has_byte "=" p.1 = false /\ has_byte "|" p.2 = false.

(** The string attributes of a key, in the order the map hands them out. *)
Fixpoint string_attributes (l : list (string * Dynamo.AttributeValue))
    : list (string * string) :=
  match l with
  | [] => []
  | (k, Dynamo.AttributeValueMemberS s) :: rest => (k, s) :: string_attributes rest
  | _ :: rest => string_attributes rest
  end.




Definition with_limit (limit : Z) (i : ReportingInput) : ReportingInput :=
  {| ri_ChannelID := ri_ChannelID i; ri_AccountID := ri_AccountID i;
     ri_RequesterEmail := ri_RequesterEmail i; ri_Status := ri_Status i;
     ri_StartDate := ri_StartDate i; ri_EndDate := ri_EndDate i;
     ri_NextToken := ri_NextToken i; ri_Limit := limit |}.

(** The indexes of the requests table that reporting queries read. *)
Definition reporting_indexes : list string :=
  ["gsi_channel_created"; "gsi_account_created"; "gsi_requester_created";
   "gsi_status_endtime"].

(** A query that reads at most 200 items of one reporting index, newest
    first. *)
Definition bounded_query (q : Dynamo.QueryInput) : Prop :=
  1 <= Dynamo.Limit q <= 200 /\ Dynamo.ScanIndexForward q = false
  /\ In (Dynamo.IndexName q) reporting_indexes.

(** The one status change that leaves no audit event: a manual revoke
    whose call to the identity provider failed. *)
Definition unaudited_revoke_failure (env : Env) (w : World) (op : operation)
    (id : string) : Prop :=
  exists input req err,
    op = OpRevokeRequest input /\ rri_RequestID input = id
    /\ Dynamo.GetRequest w id = Some req /\ Status req = StatusGranted
    /\ RevokeAccess env (AccountID req) (IdentityStoreUserID req) = Some err.

(** What an operation appends to the audit table, and that it accounts
    for every status it changed. *)
Definition audit_step (env : Env) (w : World) (op : operation) (w' : World) : Prop :=
  exists events,
    tableAudit w' = tableAudit w ++ events
    /\ forall id, status_of w' id <> status_of w id ->
         (exists ev, In ev events /\ ev_RequestID ev = id)
         \/ unaudited_revoke_failure env w op id.

(** The events of one [revokeExpired] account for the status it changed. *)
Definition sweep_step (w w' : World) : Prop :=
  exists events,
    tableAudit w' = tableAudit w ++ events
    /\ forall id, status_of w' id <> status_of w id ->
         exists ev, In ev events /\ ev_RequestID ev = id.

(** The signing scheme in the words of the specification, for comparison
    with [buildSigningMessage] and [computeHMAC]: upper-case ASCII read
    off the alphabet, hexadecimal digits by division, exclusive or bit by
    bit.  [Sha256.Sum256] is the hash function on both sides. *)
Module Scheme.

Definition small_letters : string := "abcdefghijklmnopqrstuvwxyz".
Definition capital_letters : string := "ABCDEFGHIJKLMNOPQRSTUVWXYZ".

(** Where the byte [c] first occurs in [s]. *)
Fixpoint place (c : ascii) (s : string) : option nat :=
  match s with
  | EmptyString => None
  | String c' rest =>
      if Ascii.eqb c c' then Some O else option_map S (place c rest)
  end.

(** The capital of a small letter; any other byte is kept. *)
Definition capital (c : ascii) : ascii :=
  match place c small_letters with
  | Some i =>
      match String.get i capital_letters with
      | Some C => C
      | None => c
      end
  | None => c
  end.

(** Upper-case ASCII. *)
Fixpoint uppercase (s : string) : string :=
  match s with
  | EmptyString => EmptyString
  | String c rest => String (capital c) (uppercase rest)
  end.

(** The digit of a value below 16: 0-9, then a-f. *)
Definition hex_digit (v : N) : ascii :=
  if (v <? 10)%N then ascii_of_N (48 + v) else ascii_of_N (87 + v).

(** Lower-case hexadecimal: two digits per byte, the high one first. *)
Fixpoint hex (bytes : string) : string :=
  match bytes with
  | EmptyString => EmptyString
  | String c rest =>
      String (hex_digit (N_of_ascii c / 16))
             (String (hex_digit (N_of_ascii c mod 16)) (hex rest))
  end.

(** The canonical message: five fields, joined by single newlines. *)
Definition signing_message (timestamp nonce method path body : string) : string :=
  let newline := String "010" EmptyString in
  timestamp +:+ newline +:+ nonce +:+ newline +:+ uppercase method +:+ newline
  +:+ path +:+ newline +:+ hex (Sha256.Sum256 body).

(** Exclusive or of two bytes, bit by bit. *)
Definition xor (a b : ascii) : ascii :=
  match a, b with
  | Ascii a0 a1 a2 a3 a4 a5 a6 a7, Ascii b0 b1 b2 b3 b4 b5 b6 b7 =>
      Ascii (xorb a0 b0) (xorb a1 b1) (xorb a2 b2) (xorb a3 b3)
            (xorb a4 b4) (xorb a5 b5) (xorb a6 b6) (xorb a7 b7)
  end.

Fixpoint xor_each (pad : ascii) (s : string) : string :=
  match s with
  | EmptyString => EmptyString
  | String c rest => String (xor c pad) (xor_each pad rest)
  end.

Fixpoint zeros (n : nat) : string :=
  match n with
  | O => EmptyString
  | S n' => String Ascii.zero (zeros n')
  end.

(** HMAC (RFC 2104) over SHA-256, whose block has 64 bytes:
    [H(K0 xor opad, H(K0 xor ipad, text))], with [ipad] the byte 0x36 and
    [opad] the byte 0x5c repeated, and [K0] the key, hashed first when it
    is longer than a block, then filled with zeros to a block. *)
Definition hmac_sha256 (key text : string) : string :=
  let key := if (64 <? String.length key)%nat then Sha256.Sum256 key else key in
  let K0 := key +:+ zeros (64 - String.length key) in
  Sha256.Sum256 (xor_each "092" K0 +:+ Sha256.Sum256 (xor_each "054" K0 +:+ text)).

End Scheme.

(** The world after a sequence of operations under one environment. *)
Definition replay (env : Env) (ops : list operation) (w : World) : World :=
  fold_left (run env) ops w.

(** Concrete data on which the properties are exercised: the key set of
    the rotation test of the auth package, and a binding with requests in
    several states. *)
Module Scenario.

Definition oldSecret : string := "old-secret-1234567890".
Definition newSecret : string := "new-secret-0987654321".

Definition keys : gmap string string :=
  <["key-old" := oldSecret]> (<["key-new" := newSecret]> ∅).

(** 2023-11-14T22:13:20Z and later instants, in nanoseconds. *)
Definition t_sign : Z := 1700000000123456789.
Definition now1 : Z := 1700000001000000000.
Definition now2 : Z := 1700000100000000000.

Definition body : string := "{test:rotation}".

Definition no_nonces : nonce_table := ∅.

(** Signed with the old secret while presenting the id of the new key. *)
Definition signed : gmap string string :=
  Auth.SignPayload t_sign "nonce-1" "key-new" oldSecret "POST" "/requests" body.

Definition other : gmap string string :=
  Auth.SignPayload t_sign "nonce-2" "key-new" newSecret "POST" "/requests" body.

(** The same request with its signature replaced. *)
Definition tampered : gmap string string :=
  <[Auth.HeaderSignature :=
      "deadbeefdeadbeefdeadbeefdeadbeefdeadbeefdeadbeefdeadbeefdeadbeef"]> signed.

Definition recorded : nonce_table :=
  <[("key-new", "nonce-1") := nonce_entry now1 "key-new" "nonce-1"]> ∅.

(** The table after one more validation, of another request. *)
Definition interleaved : nonce_table :=
  (Auth.ValidateRequest keys now1 recorded "POST" "/requests" other body).1.

(** An identity provider that answers, and an index [gsi_account] that
    no write has reached yet. *)
Definition env : Env :=
  {| now := now1;
     uuid := fun n => "uuid-" +:+ FormatInt (Z.of_nat n);
     sfn_configured := true;
     LookupUserByEmail := fun email =>
       if String.eqb email "user@example.com" then Ok "uid-123"
       else Err (Errorf ("no user found for " +:+ email));
     GrantAccess := fun _ _ => None;
     RevokeAccess := fun _ _ => None;
     gsi_account := ∅ |}.

Definition request (id : string) (st : RequestStatus) (endTime : Z) : JitRequest :=
  {| RequestID := id; AccountID := "acct1"; ChannelID := "ch1";
     RequesterMMUserID := "mm-user-1"; RequesterEmail := "user@example.com";
     Jira := "JIRA-123"; Reason := "need access";
     RequestedDurationMinutes := 60; Status := st;
     CreatedAt := 1699996400;
     ApprovedAt := None; DeniedAt := None; GrantTime := None;
     RevokedAt := None; ExpiredAt := None; EndTime := endTime;
     ApproverMMUserID := ""; ApproverEmail := "";
     IdentityStoreUserID := "uid-123"; ErrorDetails := "" |}.

Definition binding (maxHours : Z) : JitConfig :=
  {| cfg_ChannelID := "ch1"; cfg_AccountID := "acct1";
     ApproverMMUserIDs := ["approver-1"]; ApprovalPolicy := "one_of_n";
     AllowSelfApproval := false; MaxRequestHours := maxHours;
     SessionDurationMinutes := 0; UpdatedAt := 1699990000 |}.

Definition world (configs : list JitConfig) (requests : list JitRequest) : World :=
  {| tableConfig :=
       list_to_map (map (fun c => ((cfg_ChannelID c, cfg_AccountID c), c)) configs);
     tableRequests := list_to_map (map (fun r => (RequestID r, r)) requests);
     tableAudit := []; tableNonces := ∅; notified := []; started := []; drawn := O |}.

(** A pending request whose binding has been deleted. *)
Definition orphaned : World := world [] [request "req-1" StatusPending 1700000000].

Definition approval : ApproveRequestInput :=
  {| ari_RequestID := "req-1"; ari_ApproverMMUserID := "random-user";
     ari_ApproverEmail := "random@example.com" |}.

Definition denial : DenyRequestInput :=
  {| dri_RequestID := "req-1"; dri_DenierMMUserID := "random-user";
     dri_DenierEmail := "random@example.com"; dri_Reason := "" |}.

(** A request that has already been revoked. *)
Definition revoked : World :=
  world [binding 4] [request "req-1" StatusRevoked 1700000000].

Definition revocation : RevokeRequestInput :=
  {| rri_RequestID := "req-1"; rri_ActorMMUserID := "admin-1";
     rri_ActorEmail := "admin@example.com" |}.

(** A binding without a positive limit, and a two-hour request. *)
Definition unlimited : World := world [binding 0] [].

Definition limited : World := world [binding 1] [].

Definition creation : CreateRequestInput :=
  {| cri_AccountID := "acct1"; cri_ChannelID := "ch1";
     cri_RequesterMMUserID := "mm-user-1"; cri_RequesterEmail := "user@example.com";
     cri_Jira := ""; cri_Reason := "test"; cri_RequestedDurationMinutes := 120 |}.

(** An account bound to channel [ch1], and an attempt to bind it to
    another channel. *)
Definition bound : World := world [binding 4] [].

Definition rebind : BindAccountInput :=
  {| bai_ChannelID := "ch2"; bai_AccountID := "acct1" |}.

(** An invocation that meets the index when it has caught up with the
    table of [bound]. *)
Definition env_current : Env :=
  {| now := now1;
     uuid := uuid env;
     sfn_configured := true;
     LookupUserByEmail := LookupUserByEmail env;
     GrantAccess := GrantAccess env;
     RevokeAccess := RevokeAccess env;
     gsi_account := tableConfig bound |}.

(** A provider that refuses to revoke for one user only. *)
Definition env_partial : Env :=
  {| now := now1;
     uuid := fun n => "uuid-" +:+ FormatInt (Z.of_nat n);
     sfn_configured := true;
     LookupUserByEmail := fun _ => Ok "uid-123";
     GrantAccess := fun _ _ => None;
     RevokeAccess := fun _ user =>
       if String.eqb user "uid-bad" then Some (Errorf "SSO unavailable") else None;
     gsi_account := ∅ |}.

Definition request_of (id user : string) (st : RequestStatus) (endTime : Z)
    : JitRequest :=
  {| RequestID := id; AccountID := "acct1"; ChannelID := "ch1";
     RequesterMMUserID := "mm-user-1"; RequesterEmail := "user@example.com";
     Jira := "JIRA-123"; Reason := "need access";
     RequestedDurationMinutes := 60; Status := st;
     CreatedAt := 1699996400;
     ApprovedAt := None; DeniedAt := None; GrantTime := None;
     RevokedAt := None; ExpiredAt := None; EndTime := endTime;
     ApproverMMUserID := ""; ApproverEmail := "";
     IdentityStoreUserID := user; ErrorDetails := "" |}.

(** Two overdue grants (the provider fails for the first), a request
    already revoked, and a grant that is not due yet. *)
Definition due : World :=
  world [binding 4]
    [request_of "req-1" "uid-bad" StatusGranted 1699999000;
     request_of "req-2" "uid-123" StatusGranted 1699999500;
     request_of "req-3" "uid-123" StatusRevoked 1699999000;
     request_of "req-4" "uid-123" StatusGranted 1700003600].

Definition step_revoke (id : string) : Actions.StepFunctionActionPayload :=
  {| Actions.Action := "revoke"; Actions.p_RequestID := id;
     Actions.p_AccountID := "acct1"; Actions.p_ChannelID := "ch1";
     Actions.p_IdentityStoreUserID := "uid-123";
     Actions.p_RequesterEmail := "user@example.com";
     Actions.DurationSeconds := 3600; Actions.p_Error := None |}.

(** A grant of the user for whom the provider fails, overdue when a
    tick's query selected it, that a manual revoke has ended since. *)
Definition raced : World :=
  world [binding 4] [request_of "req-1" "uid-bad" StatusRevoked 1699999000].

(** A binding with one request, in the given state and due an hour after
    [t_sign]. *)
Definition single (st : RequestStatus) : World :=
  world [binding 4] [request "req-1" st 1700003600].

Definition approval_by (id approver : string) : ApproveRequestInput :=
  {| ari_RequestID := id; ari_ApproverMMUserID := approver;
     ari_ApproverEmail := "approver@example.com" |}.

(** From empty tables to an approved request. *)
Definition history : list operation :=
  [OpBindAccount {| bai_ChannelID := "ch1"; bai_AccountID := "acct1" |};
   OpSetApprovers {| sai_ChannelID := "ch1"; sai_ApproverIDs := ["approver-1"] |};
   OpCreateRequest creation;
   OpApproveRequest (approval_by "uuid-0" "approver-1")].

(** The webhook client that notifies the plugin. *)
Definition plugin : Webhook.Client.Client :=
  {| Webhook.Client.webhookURL := "https://mattermost.example.com/plugins/jit/webhook";
     Webhook.Client.keyID := "key-new";
     Webhook.Client.secret := newSecret |}.

(** The last key of a page of the channel index. *)
Definition start_key : Dynamo.Key :=
  <["channel_id" := Dynamo.AttributeValueMemberS "ch1"]>
    (<["created_at" := Dynamo.AttributeValueMemberS "2023-11-14T21:13:20Z"]>
       (<["request_id" := Dynamo.AttributeValueMemberS "req-1"]> ∅)).

End Scenario.

(* ===================================================================== *)
(** * Facts about the primitives *)
(* ===================================================================== *)

Lemma empty_false (s : string) : empty s = false <-> s <> "".
Proof. unfold empty. apply String.eqb_neq. Qed.

Lemma length_string_of_list (l : list ascii) :
  String.length (string_of_list_ascii l) = length l.
Proof. induction l as [|c l IH]; simpl; [reflexivity | now rewrite IH]. Qed.

(** The digest always has 32 bytes. *)
Lemma Sum256_length (data : string) : String.length (Sha256.Sum256 data) = 32%nat.
Proof.
  unfold Sha256.Sum256.
  generalize (fold_left Sha256.compress
                (Sha256.blocks (length (Sha256.pad (Sha256.bytes_of_string data)))
                               (Sha256.pad (Sha256.bytes_of_string data)))
                Sha256.init).
  intros [[[[[[[a b] c] d] e] f] g] h].
  unfold Sha256.string_of_bytes.
  rewrite length_string_of_list, length_map.
  reflexivity.
Qed.

Lemma EncodeToString_length (src : string) :
  String.length (Hex.EncodeToString src) = (2 * String.length src)%nat.
Proof. induction src as [|c s IH]; simpl; [reflexivity | rewrite IH; lia]. Qed.

Lemma hexdigit_nibbles (c : ascii) :
  Hex.is_lower_hex (Hex.hexdigit (N.shiftr (N_of_ascii c) 4)) = true /\
  Hex.is_lower_hex (Hex.hexdigit (N.land (N_of_ascii c) 15)) = true.
Proof. destruct c as [[] [] [] [] [] [] [] []]; split; reflexivity. Qed.

Lemma EncodeToString_lower_hex (src : string) :
  Hex.all_lower_hex (Hex.EncodeToString src) = true.
Proof.
  induction src as [|c s IH]; [reflexivity|].
  cbn [Hex.EncodeToString Hex.all_lower_hex].
  destruct (hexdigit_nibbles c) as [-> ->]. exact IH.
Qed.

Lemma hmac_is_rfc2104 (key text : string) :
  Hmac.Sum (Hmac.Write (Hmac.New key) text) = Hmac.rfc2104 key text.
Proof.
  unfold Hmac.Sum, Hmac.Write, Hmac.New, Hmac.rfc2104, Hmac.hash_sum,
    Hmac.hash_write, Hmac.hash_new.
  cbn [Hmac.written Hmac.inner Hmac.opad Hmac.ipad].
  destruct (Sha256.BlockSize <? String.length key)%nat; reflexivity.
Qed.

Lemma computeHMAC_length (secret message : string) :
  String.length (Auth.computeHMAC secret message) = 64%nat.
Proof.
  unfold Auth.computeHMAC, Hmac.Sum, Hmac.hash_sum.
  rewrite EncodeToString_length, Sum256_length. reflexivity.
Qed.

Lemma computeHMAC_nonempty (secret message : string) :
  Auth.computeHMAC secret message <> "".
Proof.
  intros E. pose proof (computeHMAC_length secret message) as L.
  rewrite E in L. discriminate L.
Qed.

(** Known answers: FIPS 180-4 and RFC 4231. *)
Example Sum256_abc :
  Hex.EncodeToString (Sha256.Sum256 "abc")
  = "ba7816bf8f01cfea414140de5dae2223b00361a396177a9cb410ff61f20015ad".
Proof. vm_compute. reflexivity. Qed.

Example Sum256_two_blocks :
  Hex.EncodeToString
    (Sha256.Sum256 "abcdbcdecdefdefgefghfghighijhijkijkljklmklmnlmnomnopnopq")
  = "248d6a61d20638b8e5c026930c3e6039a33ce45964ff2167f6ecedd419db06c1".
Proof. vm_compute. reflexivity. Qed.

Example computeHMAC_rfc4231_2 :
  Auth.computeHMAC "Jefe" "what do ya want for nothing?"
  = "5bdcc146bf60754e6a042426089575c75a003f089d2739839dec58b964ec3843".
Proof. vm_compute. reflexivity. Qed.

Example computeHMAC_rfc4231_6 :
  Auth.computeHMAC
    (string_of_list_ascii (repeat (ascii_of_N 170) 131))
    "Test Using Larger Than Block-Size Key - Hash Key First"
  = "60e431591ee0b67f0d8a26aacbf5b77f8e0bc6213728c5140546040f0ee37f54".
Proof. vm_compute. reflexivity. Qed.

(** The signing message of the compatibility test of the auth package. *)
Example buildSigningMessage_cross :
  Auth.buildSigningMessage "1700000000" "test-nonce-123" "post" "/requests" "{}"
  = "1700000000" +:+ String "010" "test-nonce-123" +:+ String "010" "POST"
    +:+ String "010" "/requests" +:+ String "010"
    "44136fa355b3678a1146ad16f7e8649e94fb4fc21fe77e8310c060f61caaff8a".
Proof. vm_compute. reflexivity. Qed.

(* ===================================================================== *)
(** * The authenticator *)
(* ===================================================================== *)

Lemma SignPayload_lookup (now : Z) (nonce keyID secret method path body : string) :
  let headers := Auth.SignPayload now nonce keyID secret method path body in
  let timestamp := FormatInt (UnixSeconds now) in
  headers !! Auth.HeaderKeyID = Some keyID /\
  headers !! Auth.HeaderTimestamp = Some timestamp /\
  headers !! Auth.HeaderNonce = Some nonce /\
  headers !! Auth.HeaderSignature
  = Some (Auth.computeHMAC secret
            (Auth.buildSigningMessage timestamp nonce method path body)).
Proof.
  unfold Auth.SignPayload, Auth.HeaderKeyID, Auth.HeaderTimestamp,
    Auth.HeaderNonce, Auth.HeaderSignature.
  repeat split.
Qed.

Lemma headerValue_exact (headers : gmap string string) (key v : string) :
  headers !! key = Some v -> Auth.headerValue headers key = v.
Proof. intros E. unfold Auth.headerValue. now rewrite E. Qed.

Lemma upper_byte_capital (c : ascii) : upper_byte c = Scheme.capital c.
Proof. destruct c as [[] [] [] [] [] [] [] []]; reflexivity. Qed.

Lemma ToUpper_uppercase (s : string) : ToUpper s = Scheme.uppercase s.
Proof.
  unfold ToUpper. induction s as [|c s IH]; [reflexivity|].
  cbn [map_string Scheme.uppercase]. now rewrite IH, upper_byte_capital.
Qed.

Lemma hexdigit_hex_digit (c : ascii) :
  Hex.hexdigit (N.shiftr (N_of_ascii c) 4) = Scheme.hex_digit (N_of_ascii c / 16)
  /\ Hex.hexdigit (N.land (N_of_ascii c) 15) = Scheme.hex_digit (N_of_ascii c mod 16).
Proof. destruct c as [[] [] [] [] [] [] [] []]; split; reflexivity. Qed.

Lemma EncodeToString_hex (s : string) : Hex.EncodeToString s = Scheme.hex s.
Proof.
  induction s as [|c s IH]; [reflexivity|].
  cbn [Hex.EncodeToString Scheme.hex].
  destruct (hexdigit_hex_digit c) as [-> ->]. now rewrite IH.
Qed.

Lemma xor_byte_xor (c : ascii) :
  Hmac.xor_byte 54 c = Scheme.xor c "054" /\ Hmac.xor_byte 92 c = Scheme.xor c "092".
Proof. destruct c as [[] [] [] [] [] [] [] []]; split; reflexivity. Qed.

Lemma map_xor_byte (s : string) :
  map_string (Hmac.xor_byte 54) s = Scheme.xor_each "054" s
  /\ map_string (Hmac.xor_byte 92) s = Scheme.xor_each "092" s.
Proof.
  induction s as [|c s [IH1 IH2]]; [split; reflexivity|].
  cbn [map_string Scheme.xor_each].
  destruct (xor_byte_xor c) as [-> ->]. now rewrite IH1, IH2.
Qed.

Lemma zero_extend_zeros (key : string) :
  Hmac.zero_extend key = key +:+ Scheme.zeros (64 - String.length key).
Proof.
  unfold Hmac.zero_extend, Sha256.BlockSize. f_equal.
  induction (64 - String.length key)%nat as [|n IH]; [reflexivity|].
  cbn [repeat string_of_list_ascii Scheme.zeros]. now rewrite IH.
Qed.

Lemma Join_five (a b c d e sep : string) :
  Join [a; b; c; d; e] sep
  = a +:+ sep +:+ b +:+ sep +:+ c +:+ sep +:+ d +:+ sep +:+ e.
Proof. reflexivity. Qed.

Lemma buildSigningMessage_scheme (timestamp nonce method path body : string) :
  Auth.buildSigningMessage timestamp nonce method path body
  = Scheme.signing_message timestamp nonce method path body.
Proof.
  unfold Auth.buildSigningMessage, Scheme.signing_message.
  rewrite Join_five, ToUpper_uppercase, EncodeToString_hex.
  reflexivity.
Qed.

Lemma computeHMAC_scheme (secret message : string) :
  Auth.computeHMAC secret message = Scheme.hex (Scheme.hmac_sha256 secret message).
Proof.
  unfold Auth.computeHMAC. rewrite hmac_is_rfc2104, EncodeToString_hex.
  unfold Hmac.rfc2104, Scheme.hmac_sha256, Sha256.BlockSize.
  destruct (64 <? String.length secret)%nat;
    rewrite zero_extend_zeros;
    match goal with
    | |- context [map_string (Hmac.xor_byte 92) ?k] =>
        destruct (map_xor_byte k) as [-> ->]
    end; reflexivity.
Qed.

(** C4: for a method of ASCII bytes, the signing message is the five
    fields timestamp, nonce, upper-cased method, path and lower-case
    hexadecimal SHA-256 of the body, in that order and joined by single
    newlines, and the signature that [computeHMAC] and [SignPayload] emit
    is the lower-case hexadecimal HMAC-SHA256 of that message under the
    key, 64 digits among 0-9 and a-f, all as [Scheme] words them; the
    hash function is the one that gives the digest of FIPS 180-4 for the
    message abc and the code of RFC 4231 in its second test case. *)
Theorem signing_message_canonical
    (timestamp nonce method path body secret keyID : string) (now : Z) :
  isASCII method = true ->
  let message := Auth.buildSigningMessage timestamp nonce method path body in
  message = Scheme.signing_message timestamp nonce method path body
  /\ Auth.computeHMAC secret message
     = Scheme.hex (Scheme.hmac_sha256 secret message)
  /\ String.length (Auth.computeHMAC secret message) = 64%nat
  /\ Hex.all_lower_hex (Auth.computeHMAC secret message) = true
  /\ Auth.SignPayload now nonce keyID secret method path body !! Auth.HeaderSignature
     = Some (Scheme.hex
               (Scheme.hmac_sha256 secret
                  (Scheme.signing_message (FormatInt (UnixSeconds now))
                     nonce method path body)))
  /\ Scheme.hex (Sha256.Sum256 "abc")
     = "ba7816bf8f01cfea414140de5dae2223b00361a396177a9cb410ff61f20015ad"
  /\ Scheme.hex (Scheme.hmac_sha256 "Jefe" "what do ya want for nothing?")
     = "5bdcc146bf60754e6a042426089575c75a003f089d2739839dec58b964ec3843".
Proof.
  intros _ message.
  split; [apply buildSigningMessage_scheme|].
  split; [apply computeHMAC_scheme|].
  split; [apply computeHMAC_length|].
  split; [apply EncodeToString_lower_hex|].
  split.
  { destruct (SignPayload_lookup now nonce keyID secret method path body)
      as (_ & _ & _ & ->).
    now rewrite computeHMAC_scheme, buildSigningMessage_scheme. }
  split; vm_compute; reflexivity.
Qed.

Lemma signing_message_canonical_witness :
  isASCII "post" = true
  /\ Auth.buildSigningMessage "1700000000" "test-nonce-123" "post" "/requests"
       Scenario.body
     = Scheme.signing_message "1700000000" "test-nonce-123" "POST" "/requests"
         Scenario.body
  /\ Auth.computeHMAC "shared-secret"
       (Auth.buildSigningMessage "1700000000" "test-nonce-123" "post" "/requests"
          Scenario.body)
     = Scheme.hex
         (Scheme.hmac_sha256 "shared-secret"
            (Auth.buildSigningMessage "1700000000" "test-nonce-123" "post"
               "/requests" Scenario.body)).
Proof.
  split; [reflexivity|].
  destruct (signing_message_canonical "1700000000" "test-nonce-123" "post"
              "/requests" Scenario.body "shared-secret" "key-new" Scenario.now1
              eq_refl) as (Hmsg & Hmac & _).
  split; [exact Hmsg | exact Hmac].
Defined.

Lemma wrap64_small (x : Z) : min_int64 <= x <= max_int64 -> wrap64 x = x.
Proof.
  unfold wrap64, min_int64, max_int64. intros Hx.
  rewrite Z.mod_small by lia. lia.
Qed.

Lemma sat64_small (x : Z) : min_int64 <= x <= max_int64 -> sat64 x = x.
Proof. unfold sat64. lia. Qed.

Lemma digit_char_spec (d : Z) :
  0 <= d < 10 ->
  is_digit (digit_char d) = true
  /\ Z.of_N (N_of_ascii (digit_char d)) - 48 = d
  /\ Ascii.eqb (digit_char d) "+" = false
  /\ Ascii.eqb (digit_char d) "-" = false.
Proof.
  intros Hd.
  assert (d = 0 \/ d = 1 \/ d = 2 \/ d = 3 \/ d = 4 \/ d = 5 \/ d = 6 \/ d = 7
          \/ d = 8 \/ d = 9) as Hcases by lia.
  repeat (destruct Hcases as [-> | Hcases]; [repeat split|]).
  subst d. repeat split.
Qed.

Lemma parse_format_digits (fuel : nat) :
  forall n acc, 0 <= n < 10 ^ Z.of_nat fuel ->
  exists k, forall a,
    parse_digits (format_digits fuel n acc) a = parse_digits acc (a * 10 ^ k + n)
    /\ 0 <= k.
Proof.
  induction fuel as [|fuel IH]; intros n acc Hn.
  - exists 0. intros a. cbn [format_digits]. split; [f_equal|]; simpl in Hn; lia.
  - cbn [format_digits].
    assert (0 <= n mod 10 < 10) as Hd by (apply Z.mod_pos_bound; lia).
    destruct (digit_char_spec _ Hd) as (Hdig & Hval & _ & _).
    destruct (Z.ltb_spec n 10) as [Hlt | Hge].
    + exists 1. intros a. cbn [parse_digits]. rewrite Hdig, Hval.
      rewrite Z.mod_small by lia. split; [f_equal|]; lia.
    + assert (0 <= n / 10 < 10 ^ Z.of_nat fuel) as Hq.
      { split; [apply Z.div_pos; lia|].
        apply Z.div_lt_upper_bound; [lia|].
        replace (10 * 10 ^ Z.of_nat fuel) with (10 ^ Z.of_nat (S fuel)); [lia|].
        rewrite Nat2Z.inj_succ, Z.pow_succ_r by lia. reflexivity. }
      destruct (IH (n / 10) (String (digit_char (n mod 10)) acc) Hq) as [k Hk].
      exists (k + 1). intros a. destruct (Hk a) as [-> Hk0].
      cbn [parse_digits]. rewrite Hdig, Hval. split; [|lia]. f_equal.
      rewrite Z.pow_add_r by lia.
      pose proof (Z.div_mod n 10). lia.
Qed.

Lemma format_digits_head (fuel : nat) :
  forall n acc, exists d rest,
    0 <= d < 10 /\ format_digits (S fuel) n acc = String (digit_char d) rest.
Proof.
  induction fuel as [|fuel IH]; intros n acc.
  - exists (n mod 10), acc. split; [apply Z.mod_pos_bound; lia|].
    cbn [format_digits]. now destruct (n <? 10).
  - destruct (Z.ltb_spec n 10) as [Hlt | Hge].
    + exists (n mod 10), acc. split; [apply Z.mod_pos_bound; lia|].
      cbn [format_digits]. destruct (Z.ltb_spec n 10); [reflexivity | lia].
    + destruct (IH (n / 10) (String (digit_char (n mod 10)) acc)) as (d & rest & Hd & E).
      exists d, rest. split; [exact Hd|].
      rewrite <- E. cbn [format_digits].
      destruct (Z.ltb_spec n 10); [lia | reflexivity].
Qed.

(** A timestamp written by [FormatInt] is read back by [ParseInt]. *)
Lemma ParseInt_FormatInt (n : Z) :
  0 <= n <= max_int64 -> ParseInt (FormatInt n) = Some n.
Proof.
  intros Hn. unfold FormatInt.
  destruct (Z.ltb_spec n 0) as [?|_]; [lia|].
  destruct (format_digits_head 19 n "") as (d & rest & Hd & E).
  destruct (digit_char_spec _ Hd) as (_ & _ & Hplus & Hminus).
  assert (0 <= n < 10 ^ Z.of_nat 20) as Hb.
  { unfold max_int64 in Hn. split; [lia|]. simpl. lia. }
  destruct (parse_format_digits 20 n "" Hb) as [k Hk].
  destruct (Hk 0) as [Hp _]. cbn [parse_digits] in Hp.
  rewrite Z.mul_0_l, Z.add_0_l in Hp.
  unfold ParseInt. rewrite E, Hplus, Hminus, <- E, Hp.
  destruct (Z.leb_spec min_int64 n), (Z.leb_spec n max_int64);
    unfold min_int64 in *; simpl; try reflexivity; lia.
Qed.

Lemma FormatInt_nonempty (n : Z) : FormatInt n <> "".
Proof.
  unfold FormatInt. destruct (n <? 0); [discriminate|].
  destruct (format_digits_head 19 n "") as (d & rest & _ & ->). discriminate.
Qed.

(** The freshness test of [ValidateRequest] on a timestamp within range. *)
Lemma skew_fresh (now ts : Z) :
  0 <= now <= max_int64 -> 0 <= ts * Second <= max_int64 ->
  let skew := Since now (Unix ts) in
  (if skew <? 0 then wrap64 (- skew) else skew) = Z.abs (now - ts * Second).
Proof.
  intros Hnow Hts. unfold Since, Unix.
  assert (0 <= ts <= max_int64) as Hts'.
  { unfold Second, max_int64 in *. lia. }
  rewrite wrap64_small
    by (unfold unixToInternal, min_int64, max_int64, Second in *; lia).
  replace (ts + unixToInternal - unixToInternal) with ts by lia.
  rewrite sat64_small by (unfold min_int64, max_int64 in *; lia).
  cbv zeta.
  destruct (Z.ltb_spec (now - ts * Second) 0).
  - rewrite wrap64_small by (unfold min_int64, max_int64 in *; lia). lia.
  - lia.
Qed.

Lemma match_any_complete (entries : list (string * string))
    (kid secret message : string) :
  (kid, secret) ∈ entries ->
  Auth.match_any entries message (Auth.computeHMAC secret message) = true.
Proof.
  induction entries as [|[k s] rest IH]; intros Hin.
  - inversion Hin.
  - cbn [Auth.match_any]. unfold Auth.hmac_Equal.
    destruct (String.eqb_spec (Auth.computeHMAC s message)
                              (Auth.computeHMAC secret message)) as [_|Hne];
      [reflexivity|].
    apply IH. apply elem_of_cons in Hin as [Heq | Hin]; [|exact Hin].
    inversion Heq; subst. contradiction.
Qed.

Lemma match_any_sound (entries : list (string * string)) (message signature : string) :
  Auth.match_any entries message signature = true ->
  exists kid secret,
    (kid, secret) ∈ entries /\ Auth.computeHMAC secret message = signature.
Proof.
  induction entries as [|[k s] rest IH]; cbn [Auth.match_any]; intros Hm.
  - discriminate.
  - unfold Auth.hmac_Equal in Hm.
    destruct (String.eqb_spec (Auth.computeHMAC s message) signature) as [E|_].
    + exists k, s. split; [left | exact E].
    + destruct (IH Hm) as (k' & s' & Hin & E). exists k', s'. split; [now right | exact E].
Qed.

Lemma match_key_id_sound (entries : list (string * string))
    (keyID message signature : string) :
  Auth.match_key_id entries keyID message signature = true ->
  exists secret,
    (keyID, secret) ∈ entries /\ Auth.computeHMAC secret message = signature.
Proof.
  induction entries as [|[k s] rest IH]; cbn [Auth.match_key_id]; intros Hm.
  - discriminate.
  - destruct (String.eqb_spec k keyID) as [->|Hne]; cbn [negb] in Hm.
    + unfold Auth.hmac_Equal in Hm.
      destruct (String.eqb_spec (Auth.computeHMAC s message) signature) as [E|_].
      * exists s. split; [left | exact E].
      * destruct (IH Hm) as (s' & Hin & E). exists s'. split; [now right | exact E].
    + destruct (IH Hm) as (s' & Hin & E). exists s'. split; [now right | exact E].
Qed.

Ltac validate_unfold :=
  unfold Auth.ValidateRequest; cbv zeta;
  cbn [Auth.CheckNonce Auth.StoreNonce Auth.dynamo_nonces];
  unfold Dynamo.CheckNonce, Dynamo.StoreNonce.

(** Whatever the outcome, a validation leaves the table as it was or adds
    the one entry of its own nonce. *)
Lemma validate_outcomes (keys : gmap string string) (now : Z) (store : nonce_table)
    (method path : string) (headers : gmap string string) (body : string) :
  let keyID := Auth.headerValue headers Auth.HeaderKeyID in
  let nonce := Auth.headerValue headers Auth.HeaderNonce in
  (exists err,
      Auth.ValidateRequest keys now store method path headers body = (store, Some err))
  \/ (store !! (keyID, nonce) = None
      /\ keyID <> "" /\ nonce <> ""
      /\ Auth.ValidateRequest keys now store method path headers body
         = (<[(keyID, nonce) := nonce_entry now keyID nonce]> store, None)).
Proof.
  intros keyID nonce. validate_unfold. fold keyID nonce.
  destruct (empty keyID) eqn:Ek; [left; eauto|].
  destruct (empty (Auth.headerValue headers Auth.HeaderTimestamp)); [left; eauto|].
  destruct (empty nonce) eqn:En; [left; eauto|].
  destruct (empty (Auth.headerValue headers Auth.HeaderSignature)); [left; eauto|].
  cbn [orb].
  destruct (ParseInt _); [|left; eauto].
  destruct (Auth.maxTimestampSkew <? _); [left; eauto|].
  destruct (store !! (keyID, nonce)) eqn:Hl; [left; eauto|].
  destruct (negb _); [left; eauto|].
  right. apply empty_false in Ek, En. repeat split; assumption.
Qed.

Lemma validate_failure_keeps_store (keys : gmap string string) (now : Z)
    (store store' : nonce_table) (method path : string)
    (headers : gmap string string) (body : string) (err : Auth.auth_error) :
  Auth.ValidateRequest keys now store method path headers body = (store', Some err) ->
  store' = store.
Proof.
  intros Hv.
  destruct (validate_outcomes keys now store method path headers body)
    as [[e He] | (_ & _ & _ & He)]; rewrite He in Hv; inversion Hv; reflexivity.
Qed.

Lemma validate_preserves_entries (keys : gmap string string) (now : Z)
    (store : nonce_table) (method path : string)
    (headers : gmap string string) (body : string) (k : string * string)
    (e : NonceEntry) :
  store !! k = Some e ->
  (Auth.ValidateRequest keys now store method path headers body).1 !! k = Some e.
Proof.
  intros Hk.
  destruct (validate_outcomes keys now store method path headers body)
    as [[err He] | (Hnone & _ & _ & He)]; rewrite He; cbn [fst]; [exact Hk|].
  rewrite lookup_insert_ne; [exact Hk|]. intros <-. congruence.
Qed.

(** A pair already in the table makes the validation fail before the
    signature is looked at. *)
Lemma validate_replayed (keys : gmap string string) (now : Z) (store : nonce_table)
    (method path : string) (headers : gmap string string) (body : string) :
  is_Some (store !! (Auth.headerValue headers Auth.HeaderKeyID,
                     Auth.headerValue headers Auth.HeaderNonce)) ->
  exists err,
    Auth.ValidateRequest keys now store method path headers body = (store, Some err)
    /\ (err = Auth.ErrNonceUsed \/ err = Auth.ErrMissingHeaders
        \/ err = Auth.ErrInvalidTimestamp \/ exists skew, err = Auth.ErrTimestampSkew skew).
Proof.
  intros [e He]. validate_unfold.
  destruct (_ || _); [eauto 6|].
  destruct (ParseInt _); [|eauto 6].
  destruct (Auth.maxTimestampSkew <? _); [eauto 7|].
  rewrite He. eauto.
Qed.

(** With the headers present, the timestamp fresh and the pair in the
    table, the failure is the replay. *)
Lemma validate_replayed_fresh (keys : gmap string string) (now ts : Z)
    (store : nonce_table) (method path : string) (headers : gmap string string)
    (body : string) :
  let keyID := Auth.headerValue headers Auth.HeaderKeyID in
  let timestamp := Auth.headerValue headers Auth.HeaderTimestamp in
  let nonce := Auth.headerValue headers Auth.HeaderNonce in
  let signature := Auth.headerValue headers Auth.HeaderSignature in
  keyID <> "" -> timestamp <> "" -> nonce <> "" -> signature <> "" ->
  ParseInt timestamp = Some ts ->
  0 <= now <= max_int64 -> 0 <= ts * Second <= max_int64 ->
  Z.abs (now - ts * Second) <= Auth.maxTimestampSkew ->
  is_Some (store !! (keyID, nonce)) ->
  Auth.ValidateRequest keys now store method path headers body
  = (store, Some Auth.ErrNonceUsed).
Proof.
  intros keyID timestamp nonce signature Hk Ht Hn Hs Hp Hnow Hts Hfresh [e He].
  validate_unfold. fold keyID timestamp nonce signature.
  apply empty_false in Hk, Ht, Hn, Hs. rewrite Hk, Ht, Hn, Hs, Hp. cbn [orb].
  rewrite (skew_fresh now ts Hnow Hts).
  destruct (Z.ltb_spec Auth.maxTimestampSkew (Z.abs (now - ts * Second))); [lia|].
  now rewrite He.
Qed.

Lemma UnixSeconds_bounds (t : Z) :
  0 <= t <= max_int64 ->
  0 <= UnixSeconds t <= max_int64 /\ 0 <= UnixSeconds t * Second <= max_int64.
Proof.
  intros Ht. unfold UnixSeconds, Second, max_int64 in *.
  pose proof (Z.div_pos t 1000000000 ltac:(lia) ltac:(lia)).
  pose proof (Z.mul_div_le t 1000000000 ltac:(lia)).
  lia.
Qed.

(** A request signed by [SignPayload] with any configured secret, under
    any non-empty key id, still fresh and with an unused nonce, is
    accepted, and its nonce is recorded. *)
Lemma validate_signed (keys : gmap string string) (now t_sign : Z)
    (nonce keyID k0 secret method path body : string) (store : nonce_table) :
  keys !! k0 = Some secret ->
  keyID <> "" -> nonce <> "" ->
  0 <= t_sign <= max_int64 -> 0 <= now <= max_int64 ->
  Z.abs (now - UnixSeconds t_sign * Second) <= Auth.maxTimestampSkew ->
  store !! (keyID, nonce) = None ->
  Auth.ValidateRequest keys now store method path
    (Auth.SignPayload t_sign nonce keyID secret method path body) body
  = (<[(keyID, nonce) := nonce_entry now keyID nonce]> store, None).
Proof.
  intros Hkey Hk Hn Hsign Hnow Hfresh Hnone.
  destruct (SignPayload_lookup t_sign nonce keyID secret method path body)
    as (H1 & H2 & H3 & H4).
  destruct (UnixSeconds_bounds t_sign Hsign) as [Hts Hts'].
  validate_unfold.
  rewrite (headerValue_exact _ _ _ H1), (headerValue_exact _ _ _ H2),
    (headerValue_exact _ _ _ H3), (headerValue_exact _ _ _ H4).
  rewrite (proj2 (empty_false _) Hk), (proj2 (empty_false _) Hn),
    (proj2 (empty_false _) (FormatInt_nonempty _)),
    (proj2 (empty_false _) (computeHMAC_nonempty _ _)).
  cbn [orb]. rewrite (ParseInt_FormatInt _ Hts).
  rewrite (skew_fresh now _ Hnow Hts').
  destruct (Z.ltb_spec Auth.maxTimestampSkew
              (Z.abs (now - UnixSeconds t_sign * Second))); [lia|].
  rewrite Hnone.
  rewrite (match_any_complete (map_to_list keys) k0 secret)
    by (now apply elem_of_map_to_list).
  destruct (Auth.match_key_id _ _ _ _); reflexivity.
Qed.

(** A signature that no configured secret produces is rejected. *)
Lemma validate_unknown_secret (keys : gmap string string) (now ts : Z)
    (store : nonce_table) (method path : string) (headers : gmap string string)
    (body : string) :
  let keyID := Auth.headerValue headers Auth.HeaderKeyID in
  let timestamp := Auth.headerValue headers Auth.HeaderTimestamp in
  let nonce := Auth.headerValue headers Auth.HeaderNonce in
  let signature := Auth.headerValue headers Auth.HeaderSignature in
  keyID <> "" -> timestamp <> "" -> nonce <> "" -> signature <> "" ->
  ParseInt timestamp = Some ts ->
  0 <= now <= max_int64 -> 0 <= ts * Second <= max_int64 ->
  Z.abs (now - ts * Second) <= Auth.maxTimestampSkew ->
  store !! (keyID, nonce) = None ->
  (forall k secret, keys !! k = Some secret ->
     Auth.computeHMAC secret
       (Auth.buildSigningMessage timestamp nonce method path body) <> signature) ->
  Auth.ValidateRequest keys now store method path headers body
  = (store, Some Auth.ErrInvalidSignature).
Proof.
  intros keyID timestamp nonce signature Hk Ht Hn Hs Hp Hnow Hts Hfresh Hnone Hno.
  validate_unfold. fold keyID timestamp nonce signature.
  apply empty_false in Hk, Ht, Hn, Hs. rewrite Hk, Ht, Hn, Hs, Hp. cbn [orb].
  rewrite (skew_fresh now ts Hnow Hts).
  destruct (Z.ltb_spec Auth.maxTimestampSkew (Z.abs (now - ts * Second))); [lia|].
  rewrite Hnone.
  destruct (Auth.match_key_id _ _ _ _) eqn:E1.
  { apply match_key_id_sound in E1 as (s & Hin & E).
    apply elem_of_map_to_list in Hin. now apply Hno in Hin. }
  cbn [negb].
  destruct (Auth.match_any _ _ _) eqn:E2; [|reflexivity].
  apply match_any_sound in E2 as (k & s & Hin & E).
  apply elem_of_map_to_list in Hin. now apply Hno in Hin.
Qed.

Lemma no_secret_matches (keys : gmap string string) (message signature : string) :
  Auth.match_any (map_to_list keys) message signature = false ->
  forall k secret, keys !! k = Some secret ->
    Auth.computeHMAC secret message <> signature.
Proof.
  intros Hm k secret Hin E. apply elem_of_map_to_list in Hin.
  rewrite <- E, (match_any_complete _ k secret) in Hm by exact Hin. discriminate.
Qed.

(** For every implementation of [NonceStore]: a validation succeeds only
    if the lookup reported the pair absent and the put that followed
    reported no error. *)
Lemma validate_success_stored {S : Type} `{Auth.NonceStore S}
    (keys : gmap string string) (now : Z) (store store' : S)
    (method path : string) (headers : gmap string string) (body : string) :
  Auth.ValidateRequest keys now store method path headers body = (store', None) ->
  exists s1,
    Auth.CheckNonce store (Auth.headerValue headers Auth.HeaderKeyID)
      (Auth.headerValue headers Auth.HeaderNonce) = (s1, (false, None))
    /\ Auth.StoreNonce s1 now (Auth.headerValue headers Auth.HeaderKeyID)
         (Auth.headerValue headers Auth.HeaderNonce) Auth.nonceTTL = (store', None).
Proof.
  unfold Auth.ValidateRequest. cbv zeta.
  destruct (_ || _); [discriminate|].
  destruct (ParseInt _); [|discriminate].
  destruct (Auth.maxTimestampSkew <? _); [discriminate|].
  destruct (Auth.CheckNonce _ _ _) as [s1 [[] [e|]]]; try discriminate.
  destruct (negb _); [discriminate|].
  destruct (Auth.StoreNonce _ _ _ _ _) as [s2 [e|]] eqn:Hs; [discriminate|].
  intros [= <-]. exists s1. split; [reflexivity | exact Hs].
Qed.

(** The put of [StoreNonce] is a unique-constraint insert. *)
Lemma StoreNonce_unique (t : nonce_table) (now : Z) (keyID nonce : string) (ttl : Z) :
  (is_Some (t !! (keyID, nonce)) ->
   exists err, Dynamo.StoreNonce t now keyID nonce ttl = (t, Some err))
  /\ (t !! (keyID, nonce) = None ->
      exists e,
        Dynamo.StoreNonce t now keyID nonce ttl = (<[(keyID, nonce) := e]> t, None)
        /\ ne_ExpiresAt e = wrap64 (UnixSeconds now + ttl)).
Proof.
  unfold Dynamo.StoreNonce. split.
  - intros [e ->]. eauto.
  - intros ->. eauto.
Qed.

(** While its [expires_at] lies ahead, a recorded pair stays recorded. *)
Lemma nonce_survives (T : Z) (k : string * string) (e : NonceEntry)
    (t t' : nonce_table) :
  UnixSeconds T < ne_ExpiresAt e ->
  rtc (nonce_step T) t t' -> t !! k = Some e -> t' !! k = Some e.
Proof.
  intros Hlive Hrun. induction Hrun as [t | t t1 t2 Hstep _ IH]; [easy|].
  intros Hk. apply IH. destruct Hstep as [keys now m p h b t _ | now t t' Hle [_ Hkeep]].
  - now apply validate_preserves_entries.
  - apply (Hkeep _ _ Hk).
    assert (UnixSeconds now <= UnixSeconds T); [|lia].
    unfold UnixSeconds, Second. apply Z.div_le_mono; lia.
Qed.

(** A validation that changes the table has passed every check. *)
Lemma validate_consumes_when_valid (keys : gmap string string) (now : Z)
    (store : nonce_table) (method path : string) (headers : gmap string string)
    (body : string) :
  let keyID := Auth.headerValue headers Auth.HeaderKeyID in
  let timestamp := Auth.headerValue headers Auth.HeaderTimestamp in
  let nonce := Auth.headerValue headers Auth.HeaderNonce in
  let signature := Auth.headerValue headers Auth.HeaderSignature in
  (Auth.ValidateRequest keys now store method path headers body).1 <> store ->
  (Auth.ValidateRequest keys now store method path headers body).2 = None
  /\ keyID <> "" /\ timestamp <> "" /\ nonce <> "" /\ signature <> ""
  /\ store !! (keyID, nonce) = None
  /\ (exists ts, ParseInt timestamp = Some ts
                 /\ observed_skew now ts <= Auth.maxTimestampSkew)
  /\ (exists k secret,
        keys !! k = Some secret
        /\ Auth.computeHMAC secret
             (Auth.buildSigningMessage timestamp nonce method path body) = signature).
Proof.
  intros keyID timestamp nonce signature. validate_unfold.
  fold keyID timestamp nonce signature.
  destruct (empty keyID) eqn:Ek; [easy|].
  destruct (empty timestamp) eqn:Et; [easy|].
  destruct (empty nonce) eqn:En; [easy|].
  destruct (empty signature) eqn:Es; [easy|].
  cbn [orb].
  destruct (ParseInt timestamp) as [ts|] eqn:Hp; [|easy].
  fold (observed_skew now ts).
  destruct (Z.ltb_spec Auth.maxTimestampSkew (observed_skew now ts)); [easy|].
  destruct (store !! (keyID, nonce)) eqn:Hl; [easy|].
  destruct (Auth.match_key_id _ _ _ _) eqn:E1; cbn [negb].
  - intros _. apply match_key_id_sound in E1 as (s & Hin & E).
    apply elem_of_map_to_list in Hin. apply empty_false in Ek, Et, En, Es.
    repeat split; eauto.
  - destruct (Auth.match_any _ _ _) eqn:E2; cbn [negb]; [|easy].
    intros _. apply match_any_sound in E2 as (k & s & Hin & E).
    apply elem_of_map_to_list in Hin. apply empty_false in Ek, Et, En, Es.
    repeat split; eauto.
Qed.

(** C3: a validation fails when the pair (key id, nonce) of the request is
    already in the nonce store; the nonce is recorded by a put that fails
    on an existing pair, and for every nonce store a failed put is a failed
    validation (a validation succeeds only after a lookup that found
    nothing and a put without error); hence, once a validation with a pair
    has succeeded at [now1], no validation with the same pair succeeds
    while the recorded entry is alive, whatever other validations and
    time-to-live sweeps happen in between. *)
Theorem nonce_observed_once :
  (forall (keys : gmap string string) (now : Z) (store : nonce_table)
          (method path : string) (headers : gmap string string) (body : string),
      is_Some (store !! (Auth.headerValue headers Auth.HeaderKeyID,
                         Auth.headerValue headers Auth.HeaderNonce)) ->
      exists err,
        Auth.ValidateRequest keys now store method path headers body
        = (store, Some err)
        /\ (err = Auth.ErrNonceUsed \/ err = Auth.ErrMissingHeaders
            \/ err = Auth.ErrInvalidTimestamp
            \/ exists skew, err = Auth.ErrTimestampSkew skew))
  /\ (forall (t : nonce_table) (now : Z) (keyID nonce : string) (ttl : Z),
        is_Some (t !! (keyID, nonce)) ->
        exists err, Dynamo.StoreNonce t now keyID nonce ttl = (t, Some err))
  /\ (forall (S : Type) (NS : Auth.NonceStore S) (keys : gmap string string)
             (now : Z) (store store' : S) (method path : string)
             (headers : gmap string string) (body : string),
        Auth.ValidateRequest keys now store method path headers body
        = (store', None) ->
        exists s1,
          Auth.CheckNonce store (Auth.headerValue headers Auth.HeaderKeyID)
            (Auth.headerValue headers Auth.HeaderNonce) = (s1, (false, None))
          /\ Auth.StoreNonce s1 now (Auth.headerValue headers Auth.HeaderKeyID)
               (Auth.headerValue headers Auth.HeaderNonce) Auth.nonceTTL
             = (store', None))
  /\ (forall (keys1 keys2 : gmap string string) (now1 now2 : Z)
             (t0 t1 t2 : nonce_table) (method1 path1 body1 method2 path2 body2 : string)
             (headers1 headers2 : gmap string string),
        0 <= now1 <= max_int64 ->
        Auth.ValidateRequest keys1 now1 t0 method1 path1 headers1 body1 = (t1, None) ->
        rtc (nonce_step now2) t1 t2 ->
        Auth.headerValue headers2 Auth.HeaderKeyID
        = Auth.headerValue headers1 Auth.HeaderKeyID ->
        Auth.headerValue headers2 Auth.HeaderNonce
        = Auth.headerValue headers1 Auth.HeaderNonce ->
        UnixSeconds now2 < UnixSeconds now1 + Auth.nonceTTL ->
        exists err,
          Auth.ValidateRequest keys2 now2 t2 method2 path2 headers2 body2
          = (t2, Some err)).
Proof.
  split; [exact validate_replayed|].
  split; [intros t now keyID nonce ttl; apply StoreNonce_unique|].
  split; [intros S NS; apply validate_success_stored|].
  intros keys1 keys2 now1 now2 t0 t1 t2 m1 p1 b1 m2 p2 b2 h1 h2
    Hnow Hfirst Hrun Hk Hn Hlive.
  destruct (validate_outcomes keys1 now1 t0 m1 p1 h1 b1)
    as [[e He] | (_ & _ & _ & He)]; rewrite He in Hfirst; [discriminate|].
  injection Hfirst as <-.
  destruct (UnixSeconds_bounds now1 Hnow) as [Hs _].
  assert (ne_ExpiresAt (nonce_entry now1 (Auth.headerValue h1 Auth.HeaderKeyID)
                          (Auth.headerValue h1 Auth.HeaderNonce))
          = UnixSeconds now1 + Auth.nonceTTL) as Hexp.
  { cbn [nonce_entry ne_ExpiresAt]. apply wrap64_small.
    change Auth.nonceTTL with 600.
    unfold UnixSeconds, Second, min_int64, max_int64 in *.
    pose proof (Z.mul_div_le now1 1000000000 ltac:(lia)).
    pose proof (Z.div_pos now1 1000000000 ltac:(lia) ltac:(lia)). lia. }
  destruct (validate_replayed keys2 now2 t2 m2 p2 h2 b2) as (err & Herr & _).
  - rewrite Hk, Hn. eexists.
    eapply (nonce_survives now2); [|exact Hrun|apply lookup_insert_eq].
    rewrite Hexp. exact Hlive.
  - exists err. exact Herr.
Qed.

Lemma nonce_observed_once_witness :
  Auth.ValidateRequest Scenario.keys Scenario.now1 Scenario.no_nonces
    "POST" "/requests" Scenario.signed Scenario.body = (Scenario.recorded, None)
  /\ (exists err,
        Auth.ValidateRequest Scenario.keys Scenario.now2 Scenario.interleaved
          "POST" "/requests" Scenario.signed Scenario.body
        = (Scenario.interleaved, Some err)).
Proof.
  assert (Auth.ValidateRequest Scenario.keys Scenario.now1 Scenario.no_nonces
            "POST" "/requests" Scenario.signed Scenario.body
          = (Scenario.recorded, None)) as Hfirst by (vm_compute; reflexivity).
  split; [exact Hfirst|].
  destruct nonce_observed_once as (_ & _ & _ & Honce).
  eapply (Honce Scenario.keys Scenario.keys Scenario.now1 Scenario.now2
            Scenario.no_nonces Scenario.recorded);
    [unfold Scenario.now1, max_int64; lia
    |exact Hfirst
    |apply rtc_once, step_validate; unfold Scenario.now1, Scenario.now2; lia
    |reflexivity
    |reflexivity
    |vm_compute; reflexivity].
Defined.

(** A put that loses the race against another validator is a failed
    validation: the lookup found nothing, the conditional put found the
    pair. *)
Example validate_lost_race :
  (Auth.ValidateRequest Scenario.keys Scenario.now1
     {| Auth.table := Scenario.no_nonces;
        Auth.pending := Some ("key-new", "nonce-1") |}
     "POST" "/requests" Scenario.signed Scenario.body).2
  = Some (Auth.ErrStoreNonce (Wrapf "StoreNonce" Dynamo.ConditionalCheckFailed)).
Proof. vm_compute. reflexivity. Qed.

(** C5: a request signed by [SignPayload] with the secret of any pair of
    the configured key set is accepted, given a fresh timestamp and an
    unused nonce, whichever (non-empty) key id it presents, also one that
    maps to another secret, since every configured secret is tried; once
    the pair is removed from the key set, the same request, whose
    signature no remaining secret produces, is rejected. *)
Theorem rotation_continuity (keys : gmap string string) (now t_sign : Z)
    (nonce keyID k0 secret method path body : string) (store : nonce_table) :
  keys !! k0 = Some secret ->
  keyID <> "" -> nonce <> "" ->
  0 <= t_sign <= max_int64 -> 0 <= now <= max_int64 ->
  Z.abs (now - UnixSeconds t_sign * Second) <= Auth.maxTimestampSkew ->
  store !! (keyID, nonce) = None ->
  let headers := Auth.SignPayload t_sign nonce keyID secret method path body in
  let message :=
    Auth.buildSigningMessage (FormatInt (UnixSeconds t_sign)) nonce method path body in
  Auth.ValidateRequest keys now store method path headers body
  = (<[(keyID, nonce) := nonce_entry now keyID nonce]> store, None)
  /\ ((forall k s, delete k0 keys !! k = Some s ->
         Auth.computeHMAC s message <> Auth.computeHMAC secret message) ->
      Auth.ValidateRequest (delete k0 keys) now store method path headers body
      = (store, Some Auth.ErrInvalidSignature)).
Proof.
  intros Hkey Hk Hn Hsign Hnow Hfresh Hnone headers message.
  split; [now apply (validate_signed keys now t_sign nonce keyID k0)|].
  intros Honly.
  destruct (SignPayload_lookup t_sign nonce keyID secret method path body)
    as (H1 & H2 & H3 & H4).
  destruct (UnixSeconds_bounds t_sign Hsign) as [Hts Hts'].
  apply (validate_unknown_secret _ now (UnixSeconds t_sign));
    fold headers;
    rewrite ?(headerValue_exact _ _ _ H1), ?(headerValue_exact _ _ _ H2),
      ?(headerValue_exact _ _ _ H3), ?(headerValue_exact _ _ _ H4);
    try assumption.
  - apply FormatInt_nonempty.
  - apply computeHMAC_nonempty.
  - now apply ParseInt_FormatInt.
Qed.

Lemma rotation_continuity_witness :
  Scenario.keys !! "key-old" = Some Scenario.oldSecret
  /\ Scenario.keys !! "key-new" = Some Scenario.newSecret
  /\ Auth.ValidateRequest Scenario.keys Scenario.now1 Scenario.no_nonces
       "POST" "/requests" Scenario.signed Scenario.body = (Scenario.recorded, None)
  /\ Auth.ValidateRequest (delete "key-old" Scenario.keys) Scenario.now1
       Scenario.no_nonces "POST" "/requests" Scenario.signed Scenario.body
     = (Scenario.no_nonces, Some Auth.ErrInvalidSignature).
Proof.
  assert (Scenario.keys !! "key-old" = Some Scenario.oldSecret) as Hold
    by (vm_compute; reflexivity).
  destruct (rotation_continuity Scenario.keys Scenario.now1 Scenario.t_sign
              "nonce-1" "key-new" "key-old" Scenario.oldSecret
              "POST" "/requests" Scenario.body Scenario.no_nonces)
    as [Hboth Hremoved].
  - exact Hold.
  - discriminate.
  - discriminate.
  - unfold Scenario.t_sign, max_int64; lia.
  - unfold Scenario.now1, max_int64; lia.
  - vm_compute. discriminate.
  - reflexivity.
  - split; [exact Hold|]. split; [vm_compute; reflexivity|].
    split; [exact Hboth|].
    apply Hremoved. apply no_secret_matches. vm_compute. reflexivity.
Defined.

(** Why the key id of C5 has to be non-empty: an empty [X-JIT-KeyID] is a
    missing header, whatever the key set holds. *)
Example empty_key_id_is_missing (keys : gmap string string) (store : nonce_table) :
  Auth.ValidateRequest keys Scenario.now1 store "POST" "/requests"
    (Auth.SignPayload Scenario.t_sign "nonce-1" "" Scenario.oldSecret
       "POST" "/requests" Scenario.body) Scenario.body
  = (store, Some Auth.ErrMissingHeaders).
Proof. reflexivity. Qed.

(** C10: a validation that fails, for whatever reason (a missing header,
    a stale timestamp, a signature that no configured secret produces,
    ...), leaves the nonce table as it was; the table changes only when
    all four headers are present, the timestamp is fresh, the pair is
    unused and some configured secret produces the signature; so after a
    failed validation a later valid request can still use the same
    (key id, nonce) pair. *)
Theorem failed_validation_keeps_nonce (keys : gmap string string) (now : Z)
    (store : nonce_table) (method path : string) (headers : gmap string string)
    (body : string) :
  let keyID := Auth.headerValue headers Auth.HeaderKeyID in
  let timestamp := Auth.headerValue headers Auth.HeaderTimestamp in
  let nonce := Auth.headerValue headers Auth.HeaderNonce in
  let signature := Auth.headerValue headers Auth.HeaderSignature in
  let outcome := Auth.ValidateRequest keys now store method path headers body in
  (forall err, outcome.2 = Some err -> outcome.1 = store)
  /\ (outcome.1 <> store ->
      outcome.2 = None
      /\ keyID <> "" /\ timestamp <> "" /\ nonce <> "" /\ signature <> ""
      /\ store !! (keyID, nonce) = None
      /\ (exists ts, ParseInt timestamp = Some ts
                     /\ observed_skew now ts <= Auth.maxTimestampSkew)
      /\ (exists k secret,
            keys !! k = Some secret
            /\ Auth.computeHMAC secret
                 (Auth.buildSigningMessage timestamp nonce method path body)
               = signature))
  /\ (forall err (keys2 : gmap string string) (now2 t_sign : Z)
             (k0 secret method2 path2 body2 : string),
        outcome.2 = Some err ->
        store !! (keyID, nonce) = None ->
        keyID <> "" -> nonce <> "" ->
        keys2 !! k0 = Some secret ->
        0 <= t_sign <= max_int64 -> 0 <= now2 <= max_int64 ->
        Z.abs (now2 - UnixSeconds t_sign * Second) <= Auth.maxTimestampSkew ->
        Auth.ValidateRequest keys2 now2 outcome.1 method2 path2
          (Auth.SignPayload t_sign nonce keyID secret method2 path2 body2) body2
        = (<[(keyID, nonce) := nonce_entry now2 keyID nonce]> store, None)).
Proof.
  intros keyID timestamp nonce signature outcome.
  assert (forall err, outcome.2 = Some err -> outcome.1 = store) as Hkeep.
  { intros err Herr. destruct outcome as [s o] eqn:Ho. cbn [fst snd] in *. subst o.
    now apply validate_failure_keeps_store in Ho. }
  split; [exact Hkeep|].
  split; [apply validate_consumes_when_valid|].
  intros err keys2 now2 t_sign k0 secret m2 p2 b2 Herr Hnone Hk Hn Hkey Hsign Hnow Hfresh.
  rewrite (Hkeep err Herr).
  now apply (validate_signed keys2 now2 t_sign nonce keyID k0).
Qed.

Lemma failed_validation_keeps_nonce_witness :
  Auth.ValidateRequest Scenario.keys Scenario.now1 Scenario.no_nonces
    "POST" "/requests" Scenario.tampered Scenario.body
  = (Scenario.no_nonces, Some Auth.ErrInvalidSignature)
  /\ Auth.ValidateRequest Scenario.keys Scenario.now2
       (Auth.ValidateRequest Scenario.keys Scenario.now1 Scenario.no_nonces
          "POST" "/requests" Scenario.tampered Scenario.body).1
       "POST" "/requests"
       (Auth.SignPayload Scenario.now2 "nonce-1" "key-new" Scenario.newSecret
          "POST" "/requests" Scenario.body) Scenario.body
     = (<[("key-new", "nonce-1") := nonce_entry Scenario.now2 "key-new" "nonce-1"]>
          Scenario.no_nonces, None).
Proof.
  assert (Auth.ValidateRequest Scenario.keys Scenario.now1 Scenario.no_nonces
            "POST" "/requests" Scenario.tampered Scenario.body
          = (Scenario.no_nonces, Some Auth.ErrInvalidSignature)) as Hfail
    by (vm_compute; reflexivity).
  split; [exact Hfail|].
  destruct (failed_validation_keeps_nonce Scenario.keys Scenario.now1
              Scenario.no_nonces "POST" "/requests" Scenario.tampered Scenario.body)
    as (_ & _ & Hlater).
  apply (Hlater Auth.ErrInvalidSignature Scenario.keys Scenario.now2 Scenario.now2
           "key-new" Scenario.newSecret).
  - now rewrite Hfail.
  - reflexivity.
  - discriminate.
  - discriminate.
  - vm_compute; reflexivity.
  - unfold Scenario.now2, max_int64; lia.
  - unfold Scenario.now2, max_int64; lia.
  - vm_compute. discriminate.
Defined.

(* ===================================================================== *)
(** * The store *)
(* ===================================================================== *)

Lemma status_eqb_eq (a b : RequestStatus) : status_eqb a b = true <-> a = b.
Proof. destruct a, b; split; intros E; try reflexivity; discriminate E. Qed.

Lemma status_eqb_neq (a b : RequestStatus) : status_eqb a b = false <-> a <> b.
Proof. destruct a, b; split; intros E; try reflexivity; try discriminate E; congruence. Qed.

Lemma drop_emitted (w : World) (events : list AuditEvent) (w' : World) :
  tableAudit w' = tableAudit w ++ events -> emitted w w' = events.
Proof. intros E. unfold emitted. rewrite E. apply drop_app_length. Qed.

Lemma emitted_nothing (w w' : World) : tableAudit w' = tableAudit w -> emitted w w' = [].
Proof. intros E. apply drop_emitted. now rewrite app_nil_r. Qed.

Lemma ConditionalUpdateStatus_ok (w : World) (requestID : string)
    (expected : RequestStatus) (updates : list Dynamo.update) (r : JitRequest) :
  Dynamo.GetRequest w requestID = Some r -> Status r = expected ->
  Dynamo.ConditionalUpdateStatus w requestID expected updates
  = (None,
     set_requests (fun t => <[requestID := Dynamo.apply_updates updates r]> t) w).
Proof.
  intros Hr Hs. unfold Dynamo.ConditionalUpdateStatus. rewrite Hr, Hs.
  now rewrite (proj2 (status_eqb_eq expected expected) eq_refl).
Qed.

Lemma ConditionalUpdateStatus_conflict (w : World) (requestID : string)
    (expected : RequestStatus) (updates : list Dynamo.update) :
  status_of w requestID <> Some expected ->
  Dynamo.ConditionalUpdateStatus w requestID expected updates
  = (Some (Wrapf "ConditionalUpdateStatus" Dynamo.ConditionalCheckFailed), w).
Proof.
  unfold status_of, Dynamo.ConditionalUpdateStatus. intros Hs.
  destruct (Dynamo.GetRequest w requestID) as [r|]; [|reflexivity].
  destruct (status_eqb (Status r) expected) eqn:E; [|reflexivity].
  apply status_eqb_eq in E. cbn in Hs. congruence.
Qed.

(* ===================================================================== *)
(** * The request service *)
(* ===================================================================== *)

Ltac world_simpl :=
  unfold Audit.Log, Webhook.Notify, Dynamo.PutAuditEvent, Dynamo.GetRequest,
    new_uuid, set_requests, set_audit, set_notified, set_started;
  cbn [tableConfig tableRequests tableAudit tableNonces notified started drawn
       fst snd].

(** C1, the defect: [HandleApproveRequest] and [HandleDenyRequest]
    announce that they verify that the actor is an authorized approver,
    but they run the check only under [if cfg != nil], which has no else
    branch, while [HandleCreateRequest] refuses a missing binding.  Here
    request [req-1] is PENDING and its binding (ch1, acct1) is gone: the
    approve of an actor who is no approver succeeds and moves the request
    to APPROVED, and so does the deny, to DENIED, where C1 has both fail
    and the request stay PENDING. *)
Lemma outsider_decides_without_binding :
  status_of Scenario.orphaned "req-1" = Some StatusPending
  /\ Dynamo.GetConfig Scenario.orphaned "ch1" "acct1" = None
  /\ ~ fails (Handlers.HandleApproveRequest Scenario.env Scenario.orphaned
                Scenario.approval).1
  /\ status_of (Handlers.HandleApproveRequest Scenario.env Scenario.orphaned
                  Scenario.approval).2 "req-1" = Some StatusApproved
  /\ ~ fails (Handlers.HandleDenyRequest Scenario.env Scenario.orphaned
                Scenario.denial).1
  /\ status_of (Handlers.HandleDenyRequest Scenario.env Scenario.orphaned
                  Scenario.denial).2 "req-1" = Some StatusDenied.
Proof.
  split; [vm_compute; reflexivity|].
  split; [vm_compute; reflexivity|].
  split; [intros [err Herr]; vm_compute in Herr; discriminate Herr|].
  split; [vm_compute; reflexivity|].
  split; [intros [err Herr]; vm_compute in Herr; discriminate Herr|].
  vm_compute; reflexivity.
Qed.

(** The extent of that defect: on every pending request whose binding
    no longer exists, an approve (deny) that names the request, an actor
    and the actor's email succeeds, whoever the actor is; the request
    moves to APPROVED (DENIED) with the actor recorded, and one APPROVED
    (DENIED) audit event is emitted. *)
Theorem approve_deny_without_binding (env : Env) (w : World) (req : JitRequest)
    (requestID actor email reason : string) :
  Dynamo.GetRequest w requestID = Some req ->
  Status req = StatusPending ->
  Dynamo.GetConfig w (ChannelID req) (AccountID req) = None ->
  requestID <> "" -> actor <> "" -> email <> "" ->
  (exists r',
      (Handlers.HandleApproveRequest env w
         {| ari_RequestID := requestID; ari_ApproverMMUserID := actor;
            ari_ApproverEmail := email |}).1 = Ok (Some r')
      /\ Status r' = StatusApproved /\ ApproverMMUserID r' = actor
      /\ status_of (Handlers.HandleApproveRequest env w
                      {| ari_RequestID := requestID; ari_ApproverMMUserID := actor;
                         ari_ApproverEmail := email |}).2 requestID
         = Some StatusApproved
      /\ map ev_EventType
           (emitted w (Handlers.HandleApproveRequest env w
                         {| ari_RequestID := requestID; ari_ApproverMMUserID := actor;
                            ari_ApproverEmail := email |}).2)
         = [EventApproved])
  /\ (exists r',
        (Handlers.HandleDenyRequest env w
           {| dri_RequestID := requestID; dri_DenierMMUserID := actor;
              dri_DenierEmail := email; dri_Reason := reason |}).1 = Ok (Some r')
        /\ Status r' = StatusDenied /\ ApproverMMUserID r' = actor
        /\ status_of (Handlers.HandleDenyRequest env w
                        {| dri_RequestID := requestID; dri_DenierMMUserID := actor;
                           dri_DenierEmail := email; dri_Reason := reason |}).2 requestID
           = Some StatusDenied
        /\ map ev_EventType
             (emitted w (Handlers.HandleDenyRequest env w
                           {| dri_RequestID := requestID; dri_DenierMMUserID := actor;
                              dri_DenierEmail := email; dri_Reason := reason |}).2)
           = [EventDenied]).
Proof.
  intros Hreq Hpending Hcfg Hid Hactor Hemail.
  apply empty_false in Hid, Hactor, Hemail.
  split.
  - unfold Handlers.HandleApproveRequest.
    cbn [ari_RequestID ari_ApproverMMUserID ari_ApproverEmail].
    rewrite Hid, Hactor, Hemail, Hreq, Hpending, Hcfg. cbn [orb negb status_eqb].
    rewrite (ConditionalUpdateStatus_ok _ _ _ _ _ Hreq Hpending).
    unfold Handlers.StartExecution, status_of.
    destruct (sfn_configured env); world_simpl; rewrite lookup_insert_eq;
      (eexists; split; [reflexivity|]; split; [reflexivity|]; split; [reflexivity|];
       split; [reflexivity|]; erewrite drop_emitted by reflexivity; reflexivity).
  - unfold Handlers.HandleDenyRequest.
    cbn [dri_RequestID dri_DenierMMUserID dri_DenierEmail].
    rewrite Hid, Hactor, Hemail, Hreq, Hpending, Hcfg. cbn [orb negb status_eqb].
    rewrite (ConditionalUpdateStatus_ok _ _ _ _ _ Hreq Hpending).
    unfold status_of. world_simpl. rewrite lookup_insert_eq.
    eexists; split; [reflexivity|]; split; [reflexivity|]; split; [reflexivity|].
    split; [reflexivity|]. erewrite drop_emitted by reflexivity; reflexivity.
Qed.

Lemma approve_deny_without_binding_witness :
  Dynamo.GetRequest Scenario.orphaned "req-1"
  = Some (Scenario.request "req-1" StatusPending 1700000000)
  /\ Dynamo.GetConfig Scenario.orphaned "ch1" "acct1" = None
  /\ (exists r',
        (Handlers.HandleApproveRequest Scenario.env Scenario.orphaned
           Scenario.approval).1 = Ok (Some r')
        /\ Status r' = StatusApproved)
  /\ (exists r',
        (Handlers.HandleDenyRequest Scenario.env Scenario.orphaned
           Scenario.denial).1 = Ok (Some r')
        /\ Status r' = StatusDenied).
Proof.
  assert (Dynamo.GetRequest Scenario.orphaned "req-1"
          = Some (Scenario.request "req-1" StatusPending 1700000000)) as Hreq
    by (vm_compute; reflexivity).
  assert (Dynamo.GetConfig Scenario.orphaned "ch1" "acct1" = None) as Hcfg
    by (vm_compute; reflexivity).
  split; [exact Hreq|]. split; [exact Hcfg|].
  destruct (approve_deny_without_binding Scenario.env Scenario.orphaned
              (Scenario.request "req-1" StatusPending 1700000000)
              "req-1" "random-user" "random@example.com" "")
    as [(r1 & Ha & Hs & _) (r2 & Hd & Hs2 & _)];
    [exact Hreq | reflexivity | exact Hcfg | discriminate | discriminate
    | discriminate |].
  split; [exists r1 | exists r2]; split; assumption.
Defined.

(** C2 fails as stated: a manual revoke of a request that is already
    REVOKED is answered with an error. *)
Lemma revoke_again_counterexample :
  status_of Scenario.revoked "req-1" = Some StatusRevoked
  /\ Handlers.HandleRevokeRequest Scenario.env Scenario.revoked Scenario.revocation
     = (Err (Errorf "request req-1 is in status REVOKED, expected GRANTED"),
        Scenario.revoked).
Proof. split; vm_compute; reflexivity. Qed.

(** C2, amended: a manual revoke of a request whose stored status is
    REVOKED or EXPIRED returns an error (the request is not GRANTED), emits
    no audit event and leaves the request, with the rest of the store,
    unchanged. *)
Theorem revoke_of_finished_request (env : Env) (w : World)
    (input : RevokeRequestInput) (req : JitRequest) :
  Dynamo.GetRequest w (rri_RequestID input) = Some req ->
  Status req = StatusRevoked \/ Status req = StatusExpired ->
  fails (Handlers.HandleRevokeRequest env w input).1
  /\ (Handlers.HandleRevokeRequest env w input).2 = w
  /\ emitted w (Handlers.HandleRevokeRequest env w input).2 = []
  /\ (rri_RequestID input <> "" -> rri_ActorMMUserID input <> "" ->
      rri_ActorEmail input <> "" ->
      (Handlers.HandleRevokeRequest env w input).1
      = Err (Handlers.wrong_status (rri_RequestID input) (Status req) "GRANTED")).
Proof.
  intros Hreq Hst. unfold Handlers.HandleRevokeRequest, fails.
  assert (status_eqb (Status req) StatusGranted = false) as Hng
    by (destruct Hst as [-> | ->]; reflexivity).
  destruct (empty (rri_RequestID input)) eqn:E1;
    [cbn [fst snd]; rewrite emitted_nothing by reflexivity;
     repeat split; eauto; intros H; apply empty_false in H; congruence|].
  destruct (empty (rri_ActorMMUserID input)) eqn:E2;
    [cbn [fst snd orb]; rewrite emitted_nothing by reflexivity;
     repeat split; eauto; intros _ H; apply empty_false in H; congruence|].
  destruct (empty (rri_ActorEmail input)) eqn:E3;
    [cbn [fst snd orb]; rewrite emitted_nothing by reflexivity;
     repeat split; eauto; intros _ _ H; apply empty_false in H; congruence|].
  cbn [orb]. rewrite Hreq, Hng. cbn [negb fst snd].
  rewrite emitted_nothing by reflexivity. repeat split; eauto.
Qed.

Lemma revoke_of_finished_request_witness :
  Dynamo.GetRequest Scenario.revoked "req-1"
  = Some (Scenario.request "req-1" StatusRevoked 1700000000)
  /\ fails (Handlers.HandleRevokeRequest Scenario.env Scenario.revoked
              Scenario.revocation).1
  /\ (Handlers.HandleRevokeRequest Scenario.env Scenario.revoked
        Scenario.revocation).2 = Scenario.revoked.
Proof.
  assert (Dynamo.GetRequest Scenario.revoked "req-1"
          = Some (Scenario.request "req-1" StatusRevoked 1700000000)) as Hreq
    by (vm_compute; reflexivity).
  split; [exact Hreq|].
  destruct (revoke_of_finished_request Scenario.env Scenario.revoked
              Scenario.revocation _ Hreq (or_introl eq_refl))
    as (Hfails & Hsame & _).
  split; assumption.
Defined.

(** C6 fails as stated: under a binding whose [max_request_hours] is 0
    (so that every positive duration exceeds [max_request_hours * 60]) a
    request of 120 minutes is created, persisted and audited. *)
Lemma create_over_zero_limit_counterexample :
  (exists cfg,
      Dynamo.GetConfig Scenario.unlimited "ch1" "acct1" = Some cfg
      /\ MaxRequestHours cfg * 60 < cri_RequestedDurationMinutes Scenario.creation)
  /\ ~ fails (Handlers.HandleCreateRequest Scenario.env Scenario.unlimited
                Scenario.creation).1
  /\ status_of (Handlers.HandleCreateRequest Scenario.env Scenario.unlimited
                  Scenario.creation).2 "uuid-0" = Some StatusPending
  /\ map ev_EventType
       (emitted Scenario.unlimited
          (Handlers.HandleCreateRequest Scenario.env Scenario.unlimited
             Scenario.creation).2) = [EventRequested].
Proof.
  split; [eexists; split; [vm_compute; reflexivity | vm_compute; reflexivity]|].
  split; [intros [err Herr]; vm_compute in Herr; discriminate Herr|].
  split; vm_compute; reflexivity.
Qed.

Lemma create_rejected_reason (env : Env) (w : World) (input : CreateRequestInput) :
  cri_AccountID input <> "" -> cri_ChannelID input <> "" ->
  cri_RequesterMMUserID input <> "" -> cri_RequesterEmail input <> "" ->
  cri_Jira input <> "" \/ cri_Reason input <> "" ->
  0 < cri_RequestedDurationMinutes input ->
  (Dynamo.GetConfig w (cri_ChannelID input) (cri_AccountID input) = None ->
   (Handlers.HandleCreateRequest env w input).1
   = Err (Errorf ("no binding found for channel " +:+ cri_ChannelID input
                  +:+ " and account " +:+ cri_AccountID input)))
  /\ (forall cfg,
        Dynamo.GetConfig w (cri_ChannelID input) (cri_AccountID input) = Some cfg ->
        0 < MaxRequestHours cfg * 60 <= max_int64 ->
        MaxRequestHours cfg * 60 < cri_RequestedDurationMinutes input ->
        (Handlers.HandleCreateRequest env w input).1
        = Err (Errorf ("requested duration "
                       +:+ FormatInt (cri_RequestedDurationMinutes input)
                       +:+ " minutes exceeds maximum "
                       +:+ FormatInt (MaxRequestHours cfg * 60) +:+ " minutes"))).
Proof.
  intros Ha Hc Hu He Hj Hd. unfold Handlers.HandleCreateRequest.
  apply empty_false in Ha, Hc, Hu, He. rewrite Ha, Hc, Hu, He. cbn [orb].
  assert (empty (cri_Jira input) && empty (cri_Reason input) = false) as ->.
  { destruct Hj as [Hj | Hj]; apply empty_false in Hj; rewrite Hj;
      [reflexivity | apply andb_false_r]. }
  destruct (Z.leb_spec (cri_RequestedDurationMinutes input) 0); [lia|].
  split.
  - now intros ->.
  - intros cfg -> Hpos Hover.
    rewrite wrap64_small by (unfold min_int64, max_int64 in *; lia).
    destruct (Z.ltb_spec 0 (MaxRequestHours cfg * 60)); [|lia].
    destruct (Z.ltb_spec (MaxRequestHours cfg * 60)
                         (cri_RequestedDurationMinutes input)); [|lia].
    reflexivity.
Qed.

(** C6, amended: a create-request for which no binding exists for
    (channel, account), or whose duration exceeds the binding's
    [max_request_hours * 60] when that limit is positive (and within the
    64-bit integers), fails with a validation error (for an otherwise
    well-formed input: "no binding found ..." or "requested duration ...
    exceeds maximum ..."); no request row is persisted and no audit event
    is emitted: the store is unchanged. *)
Theorem create_rejected (env : Env) (w : World) (input : CreateRequestInput) :
  Dynamo.GetConfig w (cri_ChannelID input) (cri_AccountID input) = None
  \/ (exists cfg,
        Dynamo.GetConfig w (cri_ChannelID input) (cri_AccountID input) = Some cfg
        /\ 0 < MaxRequestHours cfg * 60 <= max_int64
        /\ MaxRequestHours cfg * 60 < cri_RequestedDurationMinutes input) ->
  fails (Handlers.HandleCreateRequest env w input).1
  /\ (Handlers.HandleCreateRequest env w input).2 = w
  /\ tableRequests (Handlers.HandleCreateRequest env w input).2 = tableRequests w
  /\ emitted w (Handlers.HandleCreateRequest env w input).2 = []
  /\ (cri_AccountID input <> "" -> cri_ChannelID input <> "" ->
      cri_RequesterMMUserID input <> "" -> cri_RequesterEmail input <> "" ->
      cri_Jira input <> "" \/ cri_Reason input <> "" ->
      0 < cri_RequestedDurationMinutes input ->
      (Handlers.HandleCreateRequest env w input).1
      = Err (Errorf ("no binding found for channel " +:+ cri_ChannelID input
                     +:+ " and account " +:+ cri_AccountID input))
      \/ exists limit,
          (Handlers.HandleCreateRequest env w input).1
          = Err (Errorf ("requested duration "
                         +:+ FormatInt (cri_RequestedDurationMinutes input)
                         +:+ " minutes exceeds maximum "
                         +:+ FormatInt limit +:+ " minutes"))).
Proof.
  intros Hcase.
  assert (fails (Handlers.HandleCreateRequest env w input).1
          /\ (Handlers.HandleCreateRequest env w input).2 = w) as [Hfails Hsame].
  { unfold Handlers.HandleCreateRequest, fails.
    destruct (_ || _); [cbn [fst snd]; eauto|].
    destruct (_ || _); [cbn [fst snd]; eauto|].
    destruct (_ && _); [cbn [fst snd]; eauto|].
    destruct (_ <=? 0); [cbn [fst snd]; eauto|].
    destruct Hcase as [-> | (cfg & -> & Hpos & Hover)]; [cbn [fst snd]; eauto|].
    rewrite wrap64_small by (unfold min_int64, max_int64 in *; lia).
    destruct (Z.ltb_spec 0 (MaxRequestHours cfg * 60)); [|lia].
    destruct (Z.ltb_spec (MaxRequestHours cfg * 60)
                         (cri_RequestedDurationMinutes input)); [|lia].
    cbn [andb fst snd]. eauto. }
  split; [exact Hfails|]. split; [exact Hsame|].
  split; [now rewrite Hsame|]. split; [rewrite Hsame; now apply emitted_nothing|].
  intros Ha Hc Hu He Hj Hd.
  destruct (create_rejected_reason env w input Ha Hc Hu He Hj Hd) as [Hnone Hover].
  destruct Hcase as [Hcfg | (cfg & Hcfg & Hpos & Hlt)];
    [left; now apply Hnone | right; eexists; now apply (Hover cfg)].
Qed.

Lemma create_rejected_witness :
  (exists cfg,
      Dynamo.GetConfig Scenario.limited "ch1" "acct1" = Some cfg
      /\ 0 < MaxRequestHours cfg * 60 <= max_int64
      /\ MaxRequestHours cfg * 60 < cri_RequestedDurationMinutes Scenario.creation)
  /\ fails (Handlers.HandleCreateRequest Scenario.env Scenario.limited
              Scenario.creation).1
  /\ (Handlers.HandleCreateRequest Scenario.env Scenario.limited
        Scenario.creation).2 = Scenario.limited.
Proof.
  assert (exists cfg,
      Dynamo.GetConfig Scenario.limited "ch1" "acct1" = Some cfg
      /\ 0 < MaxRequestHours cfg * 60 <= max_int64
      /\ MaxRequestHours cfg * 60 < cri_RequestedDurationMinutes Scenario.creation)
    as Hover.
  { eexists. split; [vm_compute; reflexivity|].
    cbn [MaxRequestHours Dynamo.keyed_config Scenario.binding Scenario.creation
         cri_RequestedDurationMinutes].
    unfold max_int64. lia. }
  split; [exact Hover|].
  destruct (create_rejected Scenario.env Scenario.limited Scenario.creation
              (or_intror Hover)) as (Hfails & Hsame & _).
  split; assumption.
Defined.

(* ===================================================================== *)
(** * Bindings *)
(* ===================================================================== *)

Lemma GetChannelForAccount_Some (index : gmap (string * string) JitConfig)
    (accountID : string) (c : JitConfig) :
  Dynamo.GetChannelForAccount index accountID = Some c ->
  exists ch stored,
    index !! (ch, accountID) = Some stored
    /\ c = Dynamo.keyed_config (ch, accountID) stored.
Proof.
  unfold Dynamo.GetChannelForAccount.
  destruct (List.filter _ _) as [|[[ch acct] stored] rest] eqn:Hf; [discriminate|].
  intros [= <-].
  assert (In ((ch, acct), stored)
             (List.filter (fun kc : string * string * JitConfig =>
                             String.eqb (kc.1).2 accountID)
                          (map_to_list index))) as Hin
    by (rewrite Hf; now left).
  apply filter_In in Hin as [Hin Heq]. cbn in Heq.
  apply String.eqb_eq in Heq. subst acct.
  apply list_elem_of_In, elem_of_map_to_list in Hin. eauto.
Qed.

Lemma GetChannelForAccount_None (index : gmap (string * string) JitConfig)
    (accountID : string) :
  Dynamo.GetChannelForAccount index accountID = None ->
  forall ch, index !! (ch, accountID) = None.
Proof.
  unfold Dynamo.GetChannelForAccount.
  destruct (List.filter _ _) as [|kc rest] eqn:Hf; [|discriminate].
  intros _ ch. destruct (index !! (ch, accountID)) as [c|] eqn:Hl; [|reflexivity].
  apply elem_of_map_to_list, list_elem_of_In in Hl.
  assert (In ((ch, accountID), c)
             (List.filter (fun kc : string * string * JitConfig =>
                             String.eqb (kc.1).2 accountID)
                          (map_to_list index))) as Hin.
  { apply filter_In. split; [exact Hl|]. cbn. apply String.eqb_refl. }
  rewrite Hf in Hin. destruct Hin.
Qed.

(** Under U-1 and with the index caught up, a bind to another channel
    than the one the account is bound to is refused and writes nothing. *)
Lemma bind_conflict (env : Env) (w : World) (input : BindAccountInput) (ch : string) :
  index_current env w ->
  account_unique w ->
  is_Some (tableConfig w !! (ch, bai_AccountID input)) ->
  ch <> bai_ChannelID input ->
  fails (Handlers.HandleBindAccount env w input).1
  /\ (Handlers.HandleBindAccount env w input).2 = w.
Proof.
  intros Hi Hu [c Hc] Hne. unfold Handlers.HandleBindAccount, fails.
  red in Hi. rewrite Hi.
  destruct (_ || _); [cbn [fst snd]; eauto|].
  destruct (Dynamo.GetChannelForAccount (tableConfig w) (bai_AccountID input))
    as [existing|] eqn:He.
  - apply GetChannelForAccount_Some in He as (ch' & stored & Hl & ->).
    assert (ch' = ch) as -> by (apply (Hu ch' ch (bai_AccountID input)); eauto).
    cbn [Dynamo.keyed_config cfg_ChannelID fst].
    destruct (String.eqb_spec ch (bai_ChannelID input)); [contradiction|].
    cbn [negb fst snd]. eauto.
  - rewrite (GetChannelForAccount_None _ _ He ch) in Hc. discriminate.
Qed.

Lemma put_keeps_unique (w : World) (cfg : JitConfig) :
  account_unique w ->
  (forall ch, is_Some (tableConfig w !! (ch, cfg_AccountID cfg)) ->
              ch = cfg_ChannelID cfg) ->
  account_unique (Dynamo.PutConfig w cfg).
Proof.
  intros Hu Hsame. unfold Dynamo.PutConfig, set_config, account_unique.
  cbn [tableConfig]. intros ch1 ch2 acct H1 H2.
  apply lookup_insert_is_Some in H1 as [[= <- <-] | [Hk1 H1]];
    apply lookup_insert_is_Some in H2 as [[= <-] | [Hk2 H2]].
  - reflexivity.
  - symmetry. now apply Hsame.
  - subst acct. now apply Hsame.
  - apply (Hu ch1 ch2 acct); assumption.
Qed.

Lemma bind_keeps_unique (env : Env) (w : World) (input : BindAccountInput) :
  index_current env w ->
  account_unique w -> account_unique (Handlers.HandleBindAccount env w input).2.
Proof.
  intros Hi Hu. unfold Handlers.HandleBindAccount.
  red in Hi. rewrite Hi.
  destruct (_ || _); [exact Hu|].
  set (cfg := match Dynamo.GetConfig w (bai_ChannelID input) (bai_AccountID input) with
              | Some existingCfg => _
              | None => _
              end).
  assert (cfg_ChannelID cfg = bai_ChannelID input
          /\ cfg_AccountID cfg = bai_AccountID input) as [Hch Hacct]
    by (unfold cfg; destruct (Dynamo.GetConfig _ _ _); split; reflexivity).
  destruct (Dynamo.GetChannelForAccount (tableConfig w) (bai_AccountID input))
    as [existing|] eqn:He.
  - destruct (String.eqb_spec (cfg_ChannelID existing) (bai_ChannelID input)) as [Heq|];
      [|exact Hu].
    cbn [negb snd]. apply put_keeps_unique; [exact Hu|].
    rewrite Hch, Hacct. intros ch [c Hc].
    apply GetChannelForAccount_Some in He as (ch' & stored & Hl & ->).
    cbn in Heq. subst ch'. apply (Hu ch (bai_ChannelID input) (bai_AccountID input)); eauto.
  - cbn [snd]. apply put_keeps_unique; [exact Hu|].
    rewrite Hacct. intros ch [c Hc].
    rewrite (GetChannelForAccount_None _ _ He ch) in Hc. discriminate.
Qed.

Lemma same_keys_unique (w w' : World) :
  (forall k, is_Some (tableConfig w' !! k) <-> is_Some (tableConfig w !! k)) ->
  account_unique w -> account_unique w'.
Proof.
  intros Hk Hu ch1 ch2 acct H1 H2. apply (Hu ch1 ch2 acct); now apply Hk.
Qed.

(** A loop of puts over bindings that are in the table keeps its keys. *)
Lemma fold_put_same_keys
    (f : list JitConfig * World -> JitConfig -> list JitConfig * World) :
  (forall acc c, exists v,
      tableConfig (f acc c).2
      = <[(cfg_ChannelID c, cfg_AccountID c) := v]> (tableConfig acc.2)) ->
  forall l acc,
    (forall c, In c l ->
               is_Some (tableConfig acc.2 !! (cfg_ChannelID c, cfg_AccountID c))) ->
    forall k, is_Some (tableConfig (fold_left f l acc).2 !! k)
              <-> is_Some (tableConfig acc.2 !! k).
Proof.
  intros Hf l. induction l as [|c l IH]; intros acc Hin k; [reflexivity|].
  cbn [fold_left]. destruct (Hf acc c) as [v Hv].
  assert (forall k', is_Some (tableConfig (f acc c).2 !! k')
                     <-> is_Some (tableConfig acc.2 !! k')) as Hstep.
  { intros k'. rewrite Hv, lookup_insert_is_Some.
    split; [|intros Hs; destruct (decide ((cfg_ChannelID c, cfg_AccountID c) = k'));
                      [now left | now right]].
    intros [<- | [_ Hs]]; [apply Hin; now left | exact Hs]. }
  rewrite IH; [apply Hstep|].
  intros c' Hc'. apply Hstep, Hin. now right.
Qed.

Lemma GetConfigsByChannel_bound (w : World) (channelID : string) (c : JitConfig) :
  In c (Dynamo.GetConfigsByChannel w channelID) ->
  is_Some (tableConfig w !! (cfg_ChannelID c, cfg_AccountID c)).
Proof.
  unfold Dynamo.GetConfigsByChannel. intros Hin.
  apply in_map_iff in Hin as ([[ch acct] stored] & <- & Hin).
  apply filter_In in Hin as [Hin _].
  apply list_elem_of_In, elem_of_map_to_list in Hin. cbn. eauto.
Qed.

Lemma set_approvers_keeps_unique (env : Env) (w : World) (input : SetApproversInput) :
  account_unique w -> account_unique (Handlers.HandleSetApprovers env w input).2.
Proof.
  intros Hu. unfold Handlers.HandleSetApprovers.
  destruct (empty _); [exact Hu|].
  destruct (_ =? 0)%nat; [exact Hu|].
  destruct (_ =? 0)%nat; [exact Hu|].
  match goal with
  | |- context [fold_left ?f ?l ?a] =>
      pose proof (fold_put_same_keys f) as Hkeys;
      destruct (fold_left f l a) as [updated w'] eqn:Hfold
  end.
  cbn [snd]. apply (same_keys_unique w); [|exact Hu].
  intros k.
  specialize (Hkeys ltac:(intros acc c; eexists; reflexivity)
                (Dynamo.GetConfigsByChannel w (sai_ChannelID input)) ([], w)
                (GetConfigsByChannel_bound w (sai_ChannelID input)) k).
  rewrite Hfold in Hkeys. exact Hkeys.
Qed.

(** X11: for binds that run one after the other, each meeting an index
    gsi_account that has caught up with the config table: while every
    account is bound to at most one channel, a bind of an account to
    another channel than its own fails and writes nothing, and bind and
    set-approvers both keep every account bound to at most one channel. *)
Theorem bind_preserves_account_uniqueness (env : Env) (w : World)
    (input : BindAccountInput) :
  index_current env w ->
  account_unique w ->
  (forall ch,
      is_Some (tableConfig w !! (ch, bai_AccountID input)) ->
      ch <> bai_ChannelID input ->
      fails (Handlers.HandleBindAccount env w input).1
      /\ (Handlers.HandleBindAccount env w input).2 = w)
  /\ account_unique (Handlers.HandleBindAccount env w input).2
  /\ (forall approvers, account_unique (Handlers.HandleSetApprovers env w approvers).2)
  /\ account_unique empty_world.
Proof.
  intros Hi Hu.
  split; [intros ch; now apply bind_conflict|].
  split; [now apply bind_keeps_unique|].
  split; [intros approvers; now apply set_approvers_keeps_unique|].
  intros ch1 ch2 acct [c Hc]. cbn in Hc. rewrite lookup_empty in Hc. discriminate.
Qed.

Lemma single_binding_unique (c : JitConfig) (requests : list JitRequest) :
  account_unique (Scenario.world [c] requests).
Proof.
  intros ch1 ch2 acct H1 H2. cbn in H1, H2.
  apply lookup_insert_is_Some in H1 as [[= <- <-] | [_ H1]];
    [|rewrite lookup_empty in H1; now destruct H1].
  apply lookup_insert_is_Some in H2 as [[= <-] | [_ H2]];
    [reflexivity | rewrite lookup_empty in H2; now destruct H2].
Qed.

Lemma bind_preserves_account_uniqueness_witness :
  index_current Scenario.env_current Scenario.bound
  /\ account_unique Scenario.bound
  /\ is_Some (tableConfig Scenario.bound !! ("ch1", "acct1"))
  /\ fails (Handlers.HandleBindAccount Scenario.env_current Scenario.bound
              Scenario.rebind).1
  /\ (Handlers.HandleBindAccount Scenario.env_current Scenario.bound
        Scenario.rebind).2 = Scenario.bound.
Proof.
  assert (account_unique Scenario.bound) as Hu by apply single_binding_unique.
  assert (is_Some (tableConfig Scenario.bound !! ("ch1", "acct1"))) as Hbound
    by (eexists; vm_compute; reflexivity).
  split; [reflexivity|]. split; [exact Hu|]. split; [exact Hbound|].
  destruct (bind_preserves_account_uniqueness Scenario.env_current Scenario.bound
              Scenario.rebind eq_refl Hu) as (Hconflict & _).
  apply (Hconflict "ch1" Hbound). discriminate.
Defined.

(** C9, the defect: the documentation says that an account can only be
    bound to one channel, and the handler checks for a binding to another
    channel; but its check is a query on the index [gsi_account], which
    lags behind the table, and its put is unconditional.  Here account
    [acct1] is bound to channel [ch1]; a bind of [acct1] to [ch2] whose
    query meets the index before that binding has reached it (as the
    query of a bind that overlaps the first one does) succeeds and
    writes, and the account is bound to two channels.  So do two binds
    of [acct1], to [ch1] and to [ch2], on empty tables, when the queries
    of both run before either put. *)
Lemma bind_on_lagging_index_breaks_uniqueness :
  account_unique Scenario.bound
  /\ is_Some (tableConfig Scenario.bound !! ("ch1", "acct1"))
  /\ gsi_account Scenario.env = ∅
  /\ ~ fails (Handlers.HandleBindAccount Scenario.env Scenario.bound Scenario.rebind).1
  /\ is_Some (tableConfig
                (Handlers.HandleBindAccount Scenario.env Scenario.bound
                   Scenario.rebind).2 !! ("ch1", "acct1"))
  /\ is_Some (tableConfig
                (Handlers.HandleBindAccount Scenario.env Scenario.bound
                   Scenario.rebind).2 !! ("ch2", "acct1"))
  /\ ~ account_unique
        (Handlers.HandleBindAccount Scenario.env Scenario.bound Scenario.rebind).2
  /\ ~ account_unique
        (replay Scenario.env
           [OpBindAccount {| bai_ChannelID := "ch1"; bai_AccountID := "acct1" |};
            OpBindAccount Scenario.rebind] empty_world).
Proof.
  assert (is_Some (tableConfig
                     (Handlers.HandleBindAccount Scenario.env Scenario.bound
                        Scenario.rebind).2 !! ("ch1", "acct1"))) as H1
    by (eexists; vm_compute; reflexivity).
  assert (is_Some (tableConfig
                     (Handlers.HandleBindAccount Scenario.env Scenario.bound
                        Scenario.rebind).2 !! ("ch2", "acct1"))) as H2
    by (eexists; vm_compute; reflexivity).
  split; [apply single_binding_unique|].
  split; [eexists; vm_compute; reflexivity|].
  split; [reflexivity|].
  split; [intros [err Herr]; vm_compute in Herr; discriminate Herr|].
  split; [exact H1|]. split; [exact H2|].
  split; [intros Hu; specialize (Hu "ch1" "ch2" "acct1" H1 H2); discriminate Hu|].
  intros Hu.
  assert ("ch1" = "ch2") as Hsame; [|discriminate Hsame].
  apply (Hu "ch1" "ch2" "acct1"); eexists; vm_compute; reflexivity.
Qed.

(* ===================================================================== *)
(** * Expiration: the workflow's revoke step and the reconciler *)
(* ===================================================================== *)


(** The reconciler's conditional update GRANTED->EXPIRED failing: the
    conflict is swallowed. *)
Lemma revokeExpired_conflict (env : Env) (w : World) (req : JitRequest) :
  RevokeAccess env (AccountID req) (IdentityStoreUserID req) = None ->
  status_of w (RequestID req) <> Some StatusGranted ->
  exists log,
    Reconciler.revokeExpired env w req = (None, w, log)
    /\ Forall (fun l => Reconciler.level l = Reconciler.LevelWarn) log.
Proof.
  intros Hid Hst. unfold Reconciler.revokeExpired.
  rewrite Hid, (ConditionalUpdateStatus_conflict _ _ _ _ Hst).
  eexists. split; [reflexivity | now repeat constructor].
Qed.



(** The world after the loop of [Handle] is the one obtained by running
    [revokeExpired] on each request in turn: no failure stops the loop. *)
Lemma sweep_world (env : Env) (requests : list JitRequest) :
  forall w log errCount,
    (Reconciler.sweep env requests w log errCount).1.1
    = fold_left (fun w r => (Reconciler.revokeExpired env w r).1.2) requests w.
Proof.
  induction requests as [|r rest IH]; intros w log n; [reflexivity|].
  cbn [Reconciler.sweep fold_left].
  destruct (Reconciler.revokeExpired env w r) as [[[e|] w1] l]; apply IH.
Qed.





Lemma fmap_is_map {A B : Type} (f : A -> B) (l : list A) : f <$> l = map f l.
Proof. induction l as [|x l IH]; [reflexivity|]. cbn. now rewrite <- IH. Qed.






Lemma Handle_world (env : Env) (w : World) :
  (Reconciler.Handle env w).1.2
  = fold_left (fun w r => (Reconciler.revokeExpired env w r).1.2) (overdue env w) w.
Proof.
  unfold Reconciler.Handle. cbv zeta. fold (overdue env w).
  rewrite <- (sweep_world env (overdue env w) w
                ([Reconciler.slog Reconciler.LevelInfo "reconciler run starting"
                    [("now", FormatInt (UnixSeconds (now env)))]]
                 ++ [Reconciler.slog Reconciler.LevelInfo "found expired grants"
                       [("count", FormatInt (Z.of_nat (length (overdue env w))))]]) 0).
  destruct (Reconciler.sweep _ _ _ _ _) as [[w' log] n].
  now destruct (0 <? n).
Qed.





(** The workflow's revoke step on a request that is not GRANTED. *)
Lemma handleRevoke_not_granted (env : Env) (w : World)
    (p : Actions.StepFunctionActionPayload) (req : JitRequest) :
  Dynamo.GetRequest w (Actions.p_RequestID p) = Some req ->
  Status req <> StatusGranted ->
  (Status req = StatusRevoked \/ Status req = StatusExpired
   \/ RevokeAccess env (AccountID req) (IdentityStoreUserID req) = None) ->
  exists result,
    Actions.handleRevoke env w p = (Ok result, w)
    /\ Actions.ar_RequestID result = Actions.p_RequestID p
    /\ (Status req = StatusRevoked \/ Status req = StatusExpired ->
        Actions.ar_Status result = status_string (Status req)
        /\ Actions.Message result = "already revoked or expired")
    /\ (Status req <> StatusRevoked -> Status req <> StatusExpired ->
        Actions.ar_Status result = "already_handled").
Proof.
  intros Hreq Hng Hcase. unfold Actions.handleRevoke. rewrite Hreq.
  destruct (status_eqb (Status req) StatusRevoked) eqn:E1;
    [apply status_eqb_eq in E1; eexists; split; [reflexivity|];
     repeat split; congruence|].
  destruct (status_eqb (Status req) StatusExpired) eqn:E2;
    [apply status_eqb_eq in E2; eexists; split; [reflexivity|];
     repeat split; congruence|].
  apply status_eqb_neq in E1, E2. cbn [orb].
  destruct Hcase as [? | [? | Hok]]; try contradiction.
  rewrite Hok, ConditionalUpdateStatus_conflict
    by (unfold status_of; rewrite Hreq; cbn; congruence).
  eexists. split; [reflexivity|]. repeat split; tauto.
Qed.

(** C8 fails as stated for the reconciler's sweep: [revokeExpired] has
    no status test.  On a request that a manual revoke has moved to
    REVOKED since the tick's query selected it, and whose revoke the
    identity provider fails, it does not succeed: it returns an error and
    appends an ERROR audit event, while the request stays REVOKED. *)
Lemma sweep_of_revoked_request_counterexample :
  status_of Scenario.raced "req-1" = Some StatusRevoked
  /\ (Reconciler.revokeExpired Scenario.env_partial Scenario.raced
        (Scenario.request_of "req-1" "uid-bad" StatusGranted 1699999000)).1.1
     = Some (Wrapf "revoke access for req-1" (Errorf "SSO unavailable"))
  /\ map ev_EventType
       (emitted Scenario.raced
          (Reconciler.revokeExpired Scenario.env_partial Scenario.raced
             (Scenario.request_of "req-1" "uid-bad" StatusGranted 1699999000)).1.2)
     = [EventError]
  /\ status_of
       (Reconciler.revokeExpired Scenario.env_partial Scenario.raced
          (Scenario.request_of "req-1" "uid-bad" StatusGranted 1699999000)).1.2
       "req-1" = Some StatusRevoked.
Proof. repeat split; vm_compute; reflexivity. Qed.

(** C8, amended: the workflow's revoke step answers a request that is
    already REVOKED or EXPIRED with success and the request's status,
    under every environment (whatever the identity provider would
    answer), and leaves the store as it was; in the workflow's step and
    in the reconciler's [revokeExpired] alike, when the identity revoke
    succeeds and the conditional update GRANTED->EXPIRED fails, the
    conflict is swallowed: the operation succeeds, the store is as before
    and no audit event, EXPIRED or other, is emitted; so [revokeExpired],
    which has no status test of its own, succeeds in this way on a request
    that is already REVOKED or EXPIRED whenever the identity revoke
    succeeds.  What [revokeExpired] does when the identity revoke fails is
    not part of the statement. *)
Theorem automatic_expiration_conflicts (env : Env) (w : World) :
  (forall p req,
      Dynamo.GetRequest w (Actions.p_RequestID p) = Some req ->
      Status req = StatusRevoked \/ Status req = StatusExpired ->
      Actions.handleRevoke env w p
      = (Ok {| Actions.ar_Status := status_string (Status req);
               Actions.ar_RequestID := Actions.p_RequestID p;
               Actions.Message := "already revoked or expired" |}, w))
  /\ (forall p req,
        Dynamo.GetRequest w (Actions.p_RequestID p) = Some req ->
        RevokeAccess env (AccountID req) (IdentityStoreUserID req) = None ->
        (Dynamo.ConditionalUpdateStatus w (Actions.p_RequestID p) StatusGranted
           [Dynamo.set_status StatusExpired;
            Dynamo.set_expired_at (UnixSeconds (now env))]).1 <> None ->
        exists result,
          Actions.handleRevoke env w p = (Ok result, w)
          /\ emitted w (Actions.handleRevoke env w p).2 = [])
  /\ (forall req,
        RevokeAccess env (AccountID req) (IdentityStoreUserID req) = None ->
        (Dynamo.ConditionalUpdateStatus w (RequestID req) StatusGranted
           [Dynamo.set_status StatusExpired;
            Dynamo.set_expired_at (UnixSeconds (now env))]).1 <> None ->
        (Reconciler.revokeExpired env w req).1 = (None, w)
        /\ emitted w (Reconciler.revokeExpired env w req).1.2 = [])
  /\ (forall req st,
        status_of w (RequestID req) = Some st ->
        st = StatusRevoked \/ st = StatusExpired ->
        RevokeAccess env (AccountID req) (IdentityStoreUserID req) = None ->
        (Reconciler.revokeExpired env w req).1 = (None, w)
        /\ emitted w (Reconciler.revokeExpired env w req).1.2 = []).
Proof.
  assert (forall id updates,
            (Dynamo.ConditionalUpdateStatus w id StatusGranted updates).1 <> None ->
            status_of w id <> Some StatusGranted) as Hconflict.
  { intros id updates Hfail Hst. apply Hfail. unfold status_of in Hst.
    destruct (Dynamo.GetRequest w id) as [r|] eqn:Hr; [|discriminate].
    injection Hst as Hst. now rewrite (ConditionalUpdateStatus_ok _ _ _ _ _ Hr Hst). }
  split; [|split; [|split]].
  - intros p req Hreq Hst.
    destruct (handleRevoke_not_granted env w p req Hreq) as (res & -> & Hid & Hdone & _);
      [destruct Hst as [-> | ->]; discriminate | tauto |].
    destruct (Hdone Hst) as [Hs Hm]. destruct res as [s i m]. cbn in *. now subst.
  - intros p req Hreq Hok Hfail. apply Hconflict in Hfail.
    destruct (handleRevoke_not_granted env w p req Hreq) as (res & Hres & _);
      [unfold status_of in Hfail; rewrite Hreq in Hfail; cbn in Hfail; congruence
      | tauto |].
    exists res. rewrite Hres. split; [reflexivity | now apply emitted_nothing].
  - intros req Hok Hfail. apply Hconflict in Hfail.
    destruct (revokeExpired_conflict env w req Hok Hfail) as (log & -> & _).
    split; [reflexivity | now apply emitted_nothing].
  - intros req st Hst Hdone Hok.
    assert (status_of w (RequestID req) <> Some StatusGranted) as Hng
      by (rewrite Hst; destruct Hdone as [-> | ->]; discriminate).
    destruct (revokeExpired_conflict env w req Hok Hng) as (log & -> & _).
    split; [reflexivity | now apply emitted_nothing].
Qed.

Lemma automatic_expiration_conflicts_witness :
  Dynamo.GetRequest Scenario.due "req-3"
  = Some (Scenario.request_of "req-3" "uid-123" StatusRevoked 1699999000)
  /\ Actions.handleRevoke Scenario.env_partial Scenario.due (Scenario.step_revoke "req-3")
     = (Ok {| Actions.ar_Status := "REVOKED"; Actions.ar_RequestID := "req-3";
              Actions.Message := "already revoked or expired" |}, Scenario.due)
  /\ (Reconciler.revokeExpired Scenario.env Scenario.due
        (Scenario.request_of "req-3" "uid-123" StatusGranted 1699999000)).1
     = (None, Scenario.due)
  /\ (Reconciler.revokeExpired Scenario.env Scenario.raced
        (Scenario.request_of "req-1" "uid-bad" StatusGranted 1699999000)).1
     = (None, Scenario.raced).
Proof.
  assert (Dynamo.GetRequest Scenario.due "req-3"
          = Some (Scenario.request_of "req-3" "uid-123" StatusRevoked 1699999000))
    as Hreq by (vm_compute; reflexivity).
  split; [exact Hreq|].
  destruct (automatic_expiration_conflicts Scenario.env_partial Scenario.due)
    as (Hshort & _ & _ & _).
  destruct (automatic_expiration_conflicts Scenario.env Scenario.due)
    as (_ & _ & Hswallow & _).
  destruct (automatic_expiration_conflicts Scenario.env Scenario.raced)
    as (_ & _ & _ & Hfinished).
  split; [exact (Hshort (Scenario.step_revoke "req-3") _ Hreq (or_introl eq_refl))|].
  split.
  - apply (Hswallow (Scenario.request_of "req-3" "uid-123" StatusGranted 1699999000));
      [reflexivity | vm_compute; discriminate].
  - apply (Hfinished (Scenario.request_of "req-1" "uid-bad" StatusGranted 1699999000)
             StatusRevoked); [vm_compute; reflexivity | now left | reflexivity].
Defined.

(* ===================================================================== *)
(** * The lifecycle of a request *)
(* ===================================================================== *)

Lemma GetRequest_table (w w' : World) (id : string) :
  tableRequests w' = tableRequests w -> Dynamo.GetRequest w' id = Dynamo.GetRequest w id.
Proof. unfold Dynamo.GetRequest. now intros ->. Qed.

Lemma GetRequest_keyed (w : World) (id : string) (r : JitRequest) :
  Dynamo.GetRequest w id = Some r -> RequestID r = id /\ Dynamo.keyed_request id r = r.
Proof.
  unfold Dynamo.GetRequest. destruct (tableRequests w !! id) as [s|]; [|discriminate].
  cbn. intros [= <-]. split; reflexivity.
Qed.

Lemma same_request_refl (r : JitRequest) : same_request r r.
Proof. repeat split. Qed.

Lemma apply_update_same (r : JitRequest) (u : Dynamo.update) :
  same_request r (Dynamo.apply_update r u).
Proof. destruct u; repeat split. Qed.

Lemma same_request_trans (a b c : JitRequest) :
  same_request a b -> same_request b c -> same_request a c.
Proof. unfold same_request. intuition congruence. Qed.

Lemma apply_updates_same (updates : list Dynamo.update) :
  forall r, same_request r (Dynamo.apply_updates updates r).
Proof.
  unfold Dynamo.apply_updates.
  induction updates as [|u l IH]; intro r; cbn; [apply same_request_refl|].
  eapply same_request_trans; [apply apply_update_same | apply IH].
Qed.

(** What a conditional update does to the rows of the table. *)
Lemma ConditionalUpdateStatus_rows (w : World) (requestID : string)
    (expected : RequestStatus) (updates : list Dynamo.update) (id : string) :
  let w' := (Dynamo.ConditionalUpdateStatus w requestID expected updates).2 in
  Dynamo.GetRequest w' id = Dynamo.GetRequest w id
  \/ (exists r, Dynamo.GetRequest w id = Some r /\ Status r = expected
                /\ Dynamo.GetRequest w' id = Some (Dynamo.apply_updates updates r)).
Proof.
  cbv zeta. unfold Dynamo.ConditionalUpdateStatus.
  destruct (Dynamo.GetRequest w requestID) as [r|] eqn:E; [|left; reflexivity].
  destruct (status_eqb (Status r) expected) eqn:Es; [|left; reflexivity].
  apply status_eqb_eq in Es. cbn [snd].
  destruct (decide (id = requestID)) as [->|Hne].
  - right. exists r. split; [exact E|]. split; [exact Es|].
    unfold Dynamo.GetRequest, set_requests. cbn [tableRequests].
    rewrite lookup_insert_eq. cbn.
    destruct (GetRequest_keyed _ _ _ E) as [Hid _].
    pose proof (apply_updates_same updates r) as Hs.
    destruct Hs as (Hrid & _).
    unfold Dynamo.keyed_request, Dynamo.patch.
    rewrite Hid in Hrid. rewrite Hrid.
    destruct (Dynamo.apply_updates updates r); reflexivity.
  - left. unfold Dynamo.GetRequest, set_requests. cbn [tableRequests].
    now rewrite lookup_insert_ne by congruence.
Qed.

Lemma row_step_update (w : World) (requestID : string) (expected target : RequestStatus)
    (updates : list Dynamo.update) (id : string) :
  (forall r, Status (Dynamo.apply_updates updates r) = target) ->
  transition expected target = true ->
  row_step (Dynamo.GetRequest w id)
    (Dynamo.GetRequest (Dynamo.ConditionalUpdateStatus w requestID expected updates).2 id).
Proof.
  intros Ht Htr.
  destruct (ConditionalUpdateStatus_rows w requestID expected updates id)
    as [->|(r & E & Es & ->)]; [left; reflexivity|].
  right; right. exists r, (Dynamo.apply_updates updates r).
  repeat split; try apply apply_updates_same; auto.
  rewrite Ht, Es. exact Htr.
Qed.

Lemma ConditionalUpdateStatus_failed (w w' : World) (requestID : string)
    (expected : RequestStatus) (updates : list Dynamo.update) (err : error) :
  Dynamo.ConditionalUpdateStatus w requestID expected updates = (Some err, w') -> w' = w.
Proof.
  unfold Dynamo.ConditionalUpdateStatus.
  destruct (Dynamo.GetRequest w requestID) as [r|]; [|now intros [= _ <-]].
  destruct (status_eqb (Status r) expected); [discriminate | now intros [= _ <-]].
Qed.

Lemma Log_requests (env : Env) (w : World) (requestID : string) (ty : EventType)
    (a c m e : string) (d : list (string * string)) :
  tableRequests (Audit.Log env w requestID ty a c m e d) = tableRequests w.
Proof. reflexivity. Qed.

Lemma Notify_requests (w : World) (p : WebhookPayload) :
  tableRequests (Webhook.Notify w p) = tableRequests w.
Proof. reflexivity. Qed.

Lemma StartExecution_requests (env : Env) (w : World) (i : StepFunctionInput) :
  tableRequests (Handlers.StartExecution env w i) = tableRequests w.
Proof. unfold Handlers.StartExecution. now destruct (sfn_configured env). Qed.

Ltac same_rows :=
  repeat first
    [ rewrite (GetRequest_table _ _ _ (StartExecution_requests _ _ _))
    | rewrite (GetRequest_table _ _ _ (Notify_requests _ _))
    | rewrite (GetRequest_table _ _ _ (Log_requests _ _ _ _ _ _ _ _ _)) ].

Ltac by_update Hc :=
  apply (f_equal snd) in Hc; cbn [snd] in Hc; rewrite <- Hc;
  eapply row_step_update; [intro; cbn; reflexivity | reflexivity].

Lemma approve_rows (env : Env) (w : World) (input : ApproveRequestInput) (id : string) :
  row_step (Dynamo.GetRequest w id)
    (Dynamo.GetRequest (Handlers.HandleApproveRequest env w input).2 id).
Proof.
  unfold Handlers.HandleApproveRequest.
  destruct (empty (ari_RequestID input)); [left; reflexivity|].
  destruct (_ || _); [left; reflexivity|].
  destruct (Dynamo.GetRequest w (ari_RequestID input)) as [req|]; [|left; reflexivity].
  destruct (negb _); [left; reflexivity|].
  match goal with |- context [match ?d with Some err => (Err err, w) | None => _ end] =>
    destruct d end; [left; reflexivity|].
  destruct (Dynamo.ConditionalUpdateStatus _ _ _ _) as [[err|] w1] eqn:Hc; cbn [snd].
  - by_update Hc.
  - same_rows. by_update Hc.
Qed.

Lemma deny_rows (env : Env) (w : World) (input : DenyRequestInput) (id : string) :
  row_step (Dynamo.GetRequest w id)
    (Dynamo.GetRequest (Handlers.HandleDenyRequest env w input).2 id).
Proof.
  unfold Handlers.HandleDenyRequest.
  destruct (empty (dri_RequestID input)); [left; reflexivity|].
  destruct (_ || _); [left; reflexivity|].
  destruct (Dynamo.GetRequest w (dri_RequestID input)) as [req|]; [|left; reflexivity].
  destruct (negb _); [left; reflexivity|].
  match goal with |- context [match ?d with Some err => (Err err, w) | None => _ end] =>
    destruct d end; [left; reflexivity|].
  destruct (Dynamo.ConditionalUpdateStatus _ _ _ _) as [[err|] w1] eqn:Hc; cbn [snd].
  - by_update Hc.
  - same_rows. by_update Hc.
Qed.

Lemma revoke_rows (env : Env) (w : World) (input : RevokeRequestInput) (id : string) :
  row_step (Dynamo.GetRequest w id)
    (Dynamo.GetRequest (Handlers.HandleRevokeRequest env w input).2 id).
Proof.
  unfold Handlers.HandleRevokeRequest.
  destruct (empty (rri_RequestID input)); [left; reflexivity|].
  destruct (_ || _); [left; reflexivity|].
  destruct (Dynamo.GetRequest w (rri_RequestID input)) as [req|]; [|left; reflexivity].
  destruct (negb _); [left; reflexivity|].
  destruct (RevokeAccess env _ _) as [err|]; cbn [snd].
  - eapply row_step_update; [intro; cbn; reflexivity | reflexivity].
  - destruct (Dynamo.ConditionalUpdateStatus _ _ _ _) as [[err|] w1] eqn:Hc; cbn [snd].
    + by_update Hc.
    + same_rows. by_update Hc.
Qed.

Lemma create_rows (env : Env) (w : World) (input : CreateRequestInput) (id : string) :
  row_step (Dynamo.GetRequest w id)
    (Dynamo.GetRequest (Handlers.HandleCreateRequest env w input).2 id).
Proof.
  unfold Handlers.HandleCreateRequest.
  destruct (_ || _); [left; reflexivity|].
  destruct (_ || _); [left; reflexivity|].
  destruct (_ && _); [left; reflexivity|].
  destruct (_ <=? _); [left; reflexivity|].
  destruct (Dynamo.GetConfig _ _ _) as [cfg|]; [|left; reflexivity].
  destruct (_ && _); [left; reflexivity|].
  destruct (LookupUserByEmail env _) as [userID|err]; [|left; reflexivity].
  unfold new_uuid. cbv zeta. cbn [fst snd].
  unfold Dynamo.CreateRequest. cbn [tableRequests RequestID].
  destruct (tableRequests w !! uuid env (drawn w)) as [old|] eqn:E; cbn [snd].
  - left. reflexivity.
  - same_rows. unfold Dynamo.GetRequest, set_requests. cbn [tableRequests].
    destruct (decide (id = uuid env (drawn w))) as [->|Hne].
    + right; left. rewrite E, lookup_insert_eq. cbn. split; [reflexivity|].
      eexists; split; reflexivity.
    + left. now rewrite lookup_insert_ne by congruence.
Qed.

Lemma PutConfig_requests (w : World) (cfg : JitConfig) :
  tableRequests (Dynamo.PutConfig w cfg) = tableRequests w.
Proof. reflexivity. Qed.

Lemma bind_requests (env : Env) (w : World) (input : BindAccountInput) :
  tableRequests (Handlers.HandleBindAccount env w input).2 = tableRequests w.
Proof.
  unfold Handlers.HandleBindAccount.
  destruct (_ || _); [reflexivity|].
  match goal with |- context [match ?d with Some err => (Err err, w) | None => _ end] =>
    destruct d end; reflexivity.
Qed.

Lemma set_approvers_requests (env : Env) (w : World) (input : SetApproversInput) :
  tableRequests (Handlers.HandleSetApprovers env w input).2 = tableRequests w.
Proof.
  unfold Handlers.HandleSetApprovers.
  destruct (empty _); [reflexivity|].
  destruct (_ =? _)%nat; [reflexivity|].
  destruct (_ =? _)%nat; [reflexivity|].
  match goal with |- context [fold_left ?f ?l ?a] =>
    assert (Hfold : forall cs acc,
               tableRequests (fold_left f cs acc).2 = tableRequests acc.2)
  end.
  { induction cs as [|c cs IH]; intro acc; cbn [fold_left]; [reflexivity|].
    rewrite IH. reflexivity. }
  match goal with |- context [fold_left ?f ?l ?a] =>
    specialize (Hfold l a); destruct (fold_left f l a) as [updated w1] end.
  exact Hfold.
Qed.

Lemma action_rows (env : Env) (w : World) (p : Actions.StepFunctionActionPayload)
    (id : string) :
  row_step (Dynamo.GetRequest w id) (Dynamo.GetRequest (Actions.Handle env w p).2 id).
Proof.
  unfold Actions.Handle.
  repeat match goal with |- context [if String.eqb ?a ?b then _ else _] =>
    destruct (String.eqb a b) end; try (left; reflexivity).
  - unfold Actions.handleValidate.
    destruct (Dynamo.GetRequest w (Actions.p_RequestID p)) as [req|]; [|left; reflexivity].
    destruct (negb _); left; reflexivity.
  - unfold Actions.handleGrant.
    destruct (Dynamo.GetRequest w (Actions.p_RequestID p)) as [req|]; [|left; reflexivity].
    destruct (GrantAccess env _ _); [left; reflexivity|].
    destruct (Dynamo.ConditionalUpdateStatus _ _ _ _) as [[err|] w1] eqn:Hc; cbn [snd].
    + by_update Hc.
    + same_rows. by_update Hc.
  - unfold Actions.handleNotifyGranted.
    destruct (Dynamo.GetRequest w (Actions.p_RequestID p)) as [req|]; left; reflexivity.
  - unfold Actions.handleRevoke.
    destruct (Dynamo.GetRequest w (Actions.p_RequestID p)) as [req|]; [|left; reflexivity].
    destruct (_ || _); [left; reflexivity|].
    destruct (RevokeAccess env _ _); [left; reflexivity|].
    destruct (Dynamo.ConditionalUpdateStatus _ _ _ _) as [[err|] w1] eqn:Hc; cbn [snd].
    + by_update Hc.
    + same_rows. by_update Hc.
  - unfold Actions.handleNotifyRevoked.
    destruct (Dynamo.GetRequest w (Actions.p_RequestID p)) as [req|]; left; reflexivity.
  - unfold Actions.handleGrantError.
    destruct (Dynamo.GetRequest w (Actions.p_RequestID p)) as [req|]; [|left; reflexivity].
    cbv zeta. cbn [snd]. same_rows.
    destruct (Dynamo.ConditionalUpdateStatus w _ StatusApproved _) as [[err|] w1] eqn:Hc.
    + apply ConditionalUpdateStatus_failed in Hc. subst w1.
      eapply row_step_update; [intro; cbn; reflexivity | reflexivity].
    + by_update Hc.
  - unfold Actions.handleRevokeError.
    destruct (Dynamo.GetRequest w (Actions.p_RequestID p)) as [req|]; [|left; reflexivity].
    cbv zeta. cbn [snd]. same_rows.
    eapply row_step_update; [intro; cbn; reflexivity | reflexivity].
Qed.

Lemma expiry_step_update (w : World) (requestID : string) (target : RequestStatus)
    (updates : list Dynamo.update) (id : string) :
  (forall r, Status (Dynamo.apply_updates updates r) = target) ->
  target = StatusExpired \/ target = StatusError ->
  expiry_step (Dynamo.GetRequest w id)
    (Dynamo.GetRequest
       (Dynamo.ConditionalUpdateStatus w requestID StatusGranted updates).2 id).
Proof.
  intros Ht Htr.
  destruct (ConditionalUpdateStatus_rows w requestID StatusGranted updates id)
    as [->|(r & E & Es & ->)]; [left; reflexivity|].
  right. exists r, (Dynamo.apply_updates updates r).
  repeat split; try apply apply_updates_same; auto.
  rewrite Ht. exact Htr.
Qed.

Lemma revokeExpired_rows (env : Env) (w : World) (req : JitRequest) (id : string) :
  expiry_step (Dynamo.GetRequest w id)
    (Dynamo.GetRequest (Reconciler.revokeExpired env w req).1.2 id).
Proof.
  unfold Reconciler.revokeExpired.
  destruct (RevokeAccess env _ _) as [err|]; cbn [fst snd].
  - same_rows. eapply expiry_step_update; [intro; cbn; reflexivity | now right].
  - destruct (Dynamo.ConditionalUpdateStatus _ _ _ _) as [[err|] w1] eqn:Hc;
      cbn [fst snd]; same_rows;
      apply (f_equal snd) in Hc; cbn [snd] in Hc; rewrite <- Hc;
      (eapply expiry_step_update; [intro; cbn; reflexivity | now left]).
Qed.

Lemma expiry_step_trans (a b c : option JitRequest) :
  expiry_step a b -> expiry_step b c -> expiry_step a c.
Proof.
  intros [->|(r & r' & -> & -> & Hs & Hg & Hx)]; [tauto|].
  intros [->|(r1 & r2 & [= <-] & _ & _ & Hg' & _)].
  - right. exists r, r'. tauto.
  - destruct Hx; congruence.
Qed.

Lemma sweep_rows (env : Env) (requests : list JitRequest) (id : string) :
  forall w,
    expiry_step (Dynamo.GetRequest w id)
      (Dynamo.GetRequest
         (fold_left (fun w r => (Reconciler.revokeExpired env w r).1.2) requests w) id).
Proof.
  induction requests as [|r l IH]; intro w; cbn [fold_left]; [left; reflexivity|].
  eapply expiry_step_trans; [apply revokeExpired_rows | apply IH].
Qed.

Lemma expiry_row_step (a b : option JitRequest) : expiry_step a b -> row_step a b.
Proof.
  intros [->|(r & r' & -> & -> & Hs & Hg & Hx)]; [left; reflexivity|].
  right; right. exists r, r'. repeat split; try apply Hs.
  rewrite Hg. destruct Hx as [-> | ->]; reflexivity.
Qed.

(** Every operation takes each row of the requests table along at most
    one edge of the lifecycle, or creates it PENDING. *)
Lemma run_rows (env : Env) (w : World) (op : operation) (id : string) :
  row_step (Dynamo.GetRequest w id) (Dynamo.GetRequest (run env w op) id).
Proof.
  destruct op; cbn [run].
  - apply create_rows.
  - apply approve_rows.
  - apply deny_rows.
  - apply revoke_rows.
  - left. apply GetRequest_table, bind_requests.
  - left. apply GetRequest_table, set_approvers_requests.
  - apply action_rows.
  - rewrite Handle_world. apply expiry_row_step, sweep_rows.
Qed.

Lemma transition_from_terminal (a b : RequestStatus) :
  terminal a = true -> transition a b = false.
Proof. destruct a, b; cbn; congruence. Qed.

Lemma row_step_terminal (r : JitRequest) (after : option JitRequest) :
  terminal (Status r) = true -> row_step (Some r) after -> after = Some r.
Proof.
  intros Ht [->|[(H & _)|(r1 & r2 & [= <-] & _ & _ & Htr)]]; [reflexivity|discriminate|].
  rewrite transition_from_terminal in Htr by exact Ht. discriminate.
Qed.

Lemma row_step_path (before after : option JitRequest) :
  row_step before after ->
  match before with
  | Some r =>
      exists r', after = Some r' /\ same_request r r'
                 /\ (Status r' = Status r \/ transition (Status r) (Status r') = true)
  | None =>
      after = None \/ exists r', after = Some r' /\ Status r' = StatusPending
  end.
Proof.
  intros [->|[(-> & r & -> & Hp)|(r & r' & -> & -> & Hs & Ht)]].
  - destruct before as [r|]; [|now left].
    exists r. split; [reflexivity|]. split; [repeat split | now left].
  - right. now exists r.
  - exists r'. auto.
Qed.

Lemma replay_reachable (env : Env) (ops : list operation) (w : World) :
  reachable w (replay env ops w).
Proof.
  unfold replay. revert w.
  induction ops as [|op ops IH]; intros w; [apply rtc_refl|].
  cbn [fold_left]. eapply rtc_l; [|apply IH]. now exists env, op.
Qed.

(** X1: over any sequence of the writing operations (the six writing
    routes, the workflow's actions, reconciler ticks), each under an
    environment of its own, a stored request keeps the attributes written
    at its creation and its status moves only along the edges PENDING to
    APPROVED or DENIED, APPROVED to GRANTED or ERROR, GRANTED to REVOKED,
    EXPIRED or ERROR; a request that appears has a status reached from
    PENDING along these edges, and no request is ever deleted. *)
Theorem lifecycle_respected (w w' : World) (id : string) :
  reachable w w' ->
  match Dynamo.GetRequest w id with
  | Some r =>
      exists r', Dynamo.GetRequest w' id = Some r' /\ same_request r r'
                 /\ rtc (fun a b => transition a b = true) (Status r) (Status r')
  | None =>
      Dynamo.GetRequest w' id = None
      \/ exists r', Dynamo.GetRequest w' id = Some r'
                    /\ rtc (fun a b => transition a b = true) StatusPending (Status r')
  end.
Proof.
  intros Hreach. induction Hreach as [w|w w1 w' (env & op & ->) _ IH].
  - destruct (Dynamo.GetRequest w id) as [r|]; [|now left].
    exists r. split; [reflexivity|]. split; [repeat split | apply rtc_refl].
  - pose proof (row_step_path _ _ (run_rows env w op id)) as Hstep.
    destruct (Dynamo.GetRequest w id) as [r|].
    + destruct Hstep as (r1 & E1 & Hs1 & Hst). rewrite E1 in IH.
      destruct IH as (r' & E' & Hs' & Hpath).
      exists r'. split; [exact E'|]. split.
      { unfold same_request in *. intuition congruence. }
      destruct Hst as [Heq|Htr]; [now rewrite <- Heq | now eapply rtc_l; eauto].
    + destruct Hstep as [E1|(r1 & E1 & Hp)]; rewrite E1 in IH; [exact IH|].
      right. destruct IH as (r' & E' & _ & Hpath).
      exists r'. split; [exact E' | now rewrite <- Hp].
Qed.

Lemma lifecycle_respected_witness :
  let w := Scenario.single StatusPending in
  let w' := replay Scenario.env
              [OpApproveRequest (Scenario.approval_by "req-1" "approver-1");
               OpAction (with_action "grant" (Scenario.step_revoke "req-1"))] w in
  reachable w w'
  /\ exists r', Dynamo.GetRequest w' "req-1" = Some r'
       /\ same_request (Scenario.request "req-1" StatusPending 1700003600) r'
       /\ rtc (fun a b => transition a b = true) StatusPending (Status r').
Proof.
  cbv zeta.
  split; [apply replay_reachable|].
  exact (lifecycle_respected (Scenario.single StatusPending) _ "req-1"
           (replay_reachable Scenario.env
              [OpApproveRequest (Scenario.approval_by "req-1" "approver-1");
               OpAction (with_action "grant" (Scenario.step_revoke "req-1"))] _)).
Defined.

Lemma revokeExpired_started (env : Env) (w : World) (req : JitRequest) :
  started (Reconciler.revokeExpired env w req).1.2 = started w.
Proof.
  unfold Reconciler.revokeExpired.
  destruct (RevokeAccess env _ _) as [err|]; cbn [fst snd].
  - unfold Dynamo.ConditionalUpdateStatus.
    destruct (Dynamo.GetRequest w _) as [r|]; [|reflexivity].
    destruct (status_eqb _ _); reflexivity.
  - unfold Dynamo.ConditionalUpdateStatus.
    destruct (Dynamo.GetRequest w _) as [r|]; [|reflexivity].
    destruct (status_eqb _ _); reflexivity.
Qed.

Lemma ConditionalUpdateStatus_started (w : World) (requestID : string)
    (expected : RequestStatus) (updates : list Dynamo.update) :
  started (Dynamo.ConditionalUpdateStatus w requestID expected updates).2 = started w.
Proof.
  unfold Dynamo.ConditionalUpdateStatus.
  destruct (Dynamo.GetRequest w _) as [r|]; [|reflexivity].
  destruct (status_eqb _ _); reflexivity.
Qed.

Ltac started_update Hc :=
  apply (f_equal snd) in Hc; cbn [snd] in Hc; rewrite <- Hc;
  apply ConditionalUpdateStatus_started.

(** Only a successful approval starts a workflow, and it leaves the
    request APPROVED. *)
Lemma run_started (env : Env) (w : World) (op : operation) :
  started (run env w op) = started w
  \/ exists input req sfInput,
       op = OpApproveRequest input
       /\ Dynamo.GetRequest w (ari_RequestID input) = Some req
       /\ Status req = StatusPending
       /\ sfi_RequestID sfInput = ari_RequestID input
       /\ started (run env w op) = started w ++ [sfInput]
       /\ status_of (run env w op) (ari_RequestID input) = Some StatusApproved.
Proof.
  destruct op; cbn [run].
  - left. unfold Handlers.HandleCreateRequest.
    repeat match goal with
           | |- context [if ?b then _ else _] => destruct b
           | |- context [match Dynamo.GetConfig ?a ?b ?c with _ => _ end] =>
               destruct (Dynamo.GetConfig a b c)
           | |- context [match LookupUserByEmail ?a ?b with _ => _ end] =>
               destruct (LookupUserByEmail a b)
           end; try reflexivity.
    unfold new_uuid, Dynamo.CreateRequest. cbv zeta. cbn [tableRequests RequestID].
    destruct (tableRequests w !! _); reflexivity.
  - unfold Handlers.HandleApproveRequest.
    destruct (empty (ari_RequestID input)); [left; reflexivity|].
    destruct (_ || _); [left; reflexivity|].
    destruct (Dynamo.GetRequest w (ari_RequestID input)) as [req|] eqn:E;
      [|left; reflexivity].
    destruct (negb _) eqn:Es; [left; reflexivity|].
    apply negb_false_iff, status_eqb_eq in Es.
    match goal with |- context [match ?d with Some err => (Err err, w) | None => _ end] =>
      destruct d end; [left; reflexivity|].
    rewrite (ConditionalUpdateStatus_ok _ _ _ _ _ E Es). cbn [snd].
    unfold Handlers.StartExecution.
    destruct (sfn_configured env); [|left; reflexivity].
    right. eexists input, req, _. split; [reflexivity|]. split; [exact E|].
    split; [exact Es|]. split; [|split; [reflexivity|]].
    + cbn. apply (GetRequest_keyed _ _ _ E).
    + unfold status_of, Dynamo.GetRequest. cbn. rewrite lookup_insert_eq. reflexivity.
  - left. unfold Handlers.HandleDenyRequest.
    destruct (empty (dri_RequestID input)); [reflexivity|].
    destruct (_ || _); [reflexivity|].
    destruct (Dynamo.GetRequest w (dri_RequestID input)) as [req|]; [|reflexivity].
    destruct (negb _); [reflexivity|].
    match goal with |- context [match ?d with Some err => (Err err, w) | None => _ end] =>
      destruct d end; [reflexivity|].
    destruct (Dynamo.ConditionalUpdateStatus _ _ _ _) as [[err|] w1] eqn:Hc; cbn [snd];
      started_update Hc.
  - left. unfold Handlers.HandleRevokeRequest.
    destruct (empty (rri_RequestID input)); [reflexivity|].
    destruct (_ || _); [reflexivity|].
    destruct (Dynamo.GetRequest w (rri_RequestID input)) as [req|]; [|reflexivity].
    destruct (negb _); [reflexivity|].
    destruct (RevokeAccess env _ _) as [err|]; cbn [snd].
    + apply ConditionalUpdateStatus_started.
    + destruct (Dynamo.ConditionalUpdateStatus _ _ _ _) as [[err|] w1] eqn:Hc; cbn [snd];
        started_update Hc.
  - left. unfold Handlers.HandleBindAccount.
    destruct (_ || _); [reflexivity|].
    match goal with |- context [match ?d with Some err => (Err err, w) | None => _ end] =>
      destruct d end; reflexivity.
  - left. unfold Handlers.HandleSetApprovers.
    destruct (empty _); [reflexivity|].
    destruct (_ =? _)%nat; [reflexivity|].
    destruct (_ =? _)%nat; [reflexivity|].
    match goal with |- context [fold_left ?f ?l ?a] =>
      assert (Hfold : forall cs acc, started (fold_left f cs acc).2 = started acc.2)
    end.
    { induction cs as [|c cs IH]; intro acc; cbn [fold_left]; [reflexivity|].
      rewrite IH. reflexivity. }
    match goal with |- context [fold_left ?f ?l ?a] =>
      specialize (Hfold l a); destruct (fold_left f l a) as [updated w1] end.
    exact Hfold.
  - left. unfold Actions.Handle.
    repeat match goal with |- context [if String.eqb ?a ?b then _ else _] =>
      destruct (String.eqb a b) end; try reflexivity.
    + unfold Actions.handleValidate.
      destruct (Dynamo.GetRequest w (Actions.p_RequestID payload)) as [req|]; [|reflexivity].
      destruct (negb _); reflexivity.
    + unfold Actions.handleGrant.
      destruct (Dynamo.GetRequest w (Actions.p_RequestID payload)) as [req|]; [|reflexivity].
      destruct (GrantAccess env _ _); [reflexivity|].
      destruct (Dynamo.ConditionalUpdateStatus _ _ _ _) as [[err|] w1] eqn:Hc; cbn [snd];
        started_update Hc.
    + unfold Actions.handleNotifyGranted.
      destruct (Dynamo.GetRequest w (Actions.p_RequestID payload)) as [req|]; reflexivity.
    + unfold Actions.handleRevoke.
      destruct (Dynamo.GetRequest w (Actions.p_RequestID payload)) as [req|]; [|reflexivity].
      destruct (_ || _); [reflexivity|].
      destruct (RevokeAccess env _ _); [reflexivity|].
      destruct (Dynamo.ConditionalUpdateStatus _ _ _ _) as [[err|] w1] eqn:Hc; cbn [snd];
        started_update Hc.
    + unfold Actions.handleNotifyRevoked.
      destruct (Dynamo.GetRequest w (Actions.p_RequestID payload)) as [req|]; reflexivity.
    + unfold Actions.handleGrantError.
      destruct (Dynamo.GetRequest w (Actions.p_RequestID payload)) as [req|]; [|reflexivity].
      cbv zeta. cbn [snd].
      destruct (Dynamo.ConditionalUpdateStatus w _ StatusApproved _) as [[err|] w1] eqn:Hc.
      * apply ConditionalUpdateStatus_failed in Hc. subst w1.
        apply ConditionalUpdateStatus_started.
      * started_update Hc.
    + unfold Actions.handleRevokeError.
      destruct (Dynamo.GetRequest w (Actions.p_RequestID payload)) as [req|]; [|reflexivity].
      cbv zeta. cbn [snd]. apply ConditionalUpdateStatus_started.
  - left. rewrite Handle_world. generalize (overdue env w) as l. intro l. revert w.
    induction l as [|r l IH]; intro w; cbn [fold_left]; [reflexivity|].
    rewrite IH. apply revokeExpired_started.
Qed.

Lemma transition_not_to_pending (a b : RequestStatus) :
  transition a b = true -> b <> StatusPending.
Proof. destruct a, b; cbn; congruence. Qed.

Lemma started_once_step (env : Env) (w : World) (op : operation) :
  started_once w -> started_once (run env w op).
Proof.
  intros [Hnd Hst].
  assert (Hold : forall i, In i (started w) ->
            exists r, Dynamo.GetRequest (run env w op) (sfi_RequestID i) = Some r
                      /\ Status r <> StatusPending).
  { intros i Hi. destruct (Hst i Hi) as (r & E & Hp).
    pose proof (row_step_path _ _ (run_rows env w op (sfi_RequestID i))) as Hstep.
    rewrite E in Hstep. destruct Hstep as (r' & E' & _ & [Heq|Htr]).
    - exists r'. split; [exact E' | congruence].
    - exists r'. split; [exact E' | eapply transition_not_to_pending; eauto]. }
  destruct (run_started env w op)
    as [Hs|(input & req & sfInput & -> & E & Hp & Hid & Hs & Hst')].
  - split; [now rewrite Hs|]. intros i Hi. rewrite Hs in Hi. auto.
  - split.
    + rewrite Hs, map_app. apply NoDup_app. split; [exact Hnd|]. split.
      * intros x Hx Hx'. cbn in Hx'. apply list_elem_of_singleton in Hx'. subst x.
        apply list_elem_of_In, in_map_iff in Hx. destruct Hx as (i & Hi & Hin).
        destruct (Hst i Hin) as (r & Er & Hnp).
        rewrite Hid in Hi. rewrite Hi, E in Er. congruence.
      * apply NoDup_singleton.
    + intros i Hi. rewrite Hs in Hi. apply in_app_or in Hi.
      destruct Hi as [Hi|[<-|[]]]; [auto|].
      rewrite Hid. unfold status_of in Hst'.
      destruct (Dynamo.GetRequest (run env w (OpApproveRequest input))
                  (ari_RequestID input)) as [r|]; [|discriminate].
      exists r. split; [reflexivity|]. cbn in Hst'. congruence.
Qed.

(** X2: from empty tables and over any sequence of operations, no two of
    the workflow executions started carry the same request id: only a
    successful approval starts one, and a request is approved at most
    once. *)
Theorem one_execution_per_request (w : World) :
  reachable empty_world w -> NoDup (map sfi_RequestID (started w)).
Proof.
  intro Hreach.
  assert (Hinv : started_once empty_world).
  { split; [apply NoDup_nil_2 | intros i []]. }
  revert Hinv. unfold reachable in Hreach.
  induction Hreach as [w|w w1 w' (env & op & ->) _ IH]; intro Hinv.
  - apply Hinv.
  - apply IH, started_once_step, Hinv.
Qed.

Lemma one_execution_per_request_witness :
  let w := replay Scenario.env Scenario.history empty_world in
  reachable empty_world w
  /\ map sfi_RequestID (started w) = ["uuid-0"]
  /\ NoDup (map sfi_RequestID (started w)).
Proof.
  cbv zeta.
  split; [apply replay_reachable|].
  split; [vm_compute; reflexivity|].
  exact (one_execution_per_request _
           (replay_reachable Scenario.env Scenario.history empty_world)).
Defined.

Lemma terminal_row_kept (w w' : World) (id : string) (r : JitRequest) :
  reachable w w' ->
  Dynamo.GetRequest w id = Some r ->
  terminal (Status r) = true ->
  Dynamo.GetRequest w' id = Some r.
Proof.
  intros Hreach. induction Hreach as [w|w w1 w' (env & op & ->) _ IH]; intros Hr Ht.
  - exact Hr.
  - apply IH; [|exact Ht].
    apply row_step_terminal; [exact Ht|]. rewrite <- Hr. apply run_rows.
Qed.







(* ===================================================================== *)
(** * Decisions, revocation and creation *)
(* ===================================================================== *)

Lemma isApprover_In (ids : list string) (user : string) :
  Handlers.isApprover ids user = true <-> In user ids.
Proof.
  induction ids as [|uid rest IH]; cbn; [split; [discriminate | tauto]|].
  destruct (String.eqb uid user) eqn:E.
  - apply String.eqb_eq in E. subst. split; auto.
  - apply String.eqb_neq in E. rewrite IH. split; [auto | intros [?|?]; [contradiction|assumption]].
Qed.

Lemma isApprover_not_In (ids : list string) (user : string) :
  Handlers.isApprover ids user = false <-> ~ In user ids.
Proof.
  rewrite <- isApprover_In. destruct (Handlers.isApprover ids user); split; congruence.
Qed.

(** Outside PENDING a request can be neither approved nor denied, and
    outside GRANTED it cannot be revoked by hand; the refusal writes nothing. *)
Lemma decision_needs_pending (env : Env) (w : World) (r : JitRequest)
    (id actor email reason : string) :
  Dynamo.GetRequest w id = Some r -> Status r <> StatusPending ->
  let a := Handlers.HandleApproveRequest env w
             {| ari_RequestID := id; ari_ApproverMMUserID := actor;
                ari_ApproverEmail := email |} in
  let d := Handlers.HandleDenyRequest env w
             {| dri_RequestID := id; dri_DenierMMUserID := actor;
                dri_DenierEmail := email; dri_Reason := reason |} in
  fails a.1 /\ a.2 = w /\ fails d.1 /\ d.2 = w.
Proof.
  intros E Hs. apply status_eqb_neq in Hs. cbv zeta.
  unfold Handlers.HandleApproveRequest, Handlers.HandleDenyRequest, fails.
  cbn [ari_RequestID ari_ApproverMMUserID ari_ApproverEmail
       dri_RequestID dri_DenierMMUserID dri_DenierEmail].
  rewrite E, Hs. cbn [negb].
  destruct (empty id); [cbn; eauto 10|].
  destruct (empty actor || empty email); cbn; eauto 10.
Qed.

Lemma revoke_needs_granted (env : Env) (w : World) (r : JitRequest)
    (id actor email : string) :
  Dynamo.GetRequest w id = Some r -> Status r <> StatusGranted ->
  let v := Handlers.HandleRevokeRequest env w
             {| rri_RequestID := id; rri_ActorMMUserID := actor;
                rri_ActorEmail := email |} in
  fails v.1 /\ v.2 = w.
Proof.
  intros E Hs. apply status_eqb_neq in Hs. cbv zeta.
  unfold Handlers.HandleRevokeRequest, fails.
  cbn [rri_RequestID rri_ActorMMUserID rri_ActorEmail].
  rewrite E, Hs. cbn [negb].
  destruct (empty id); [cbn; eauto|].
  destruct (empty actor || empty email); cbn; eauto.
Qed.

(** X5: a request in status DENIED, REVOKED, EXPIRED or ERROR is kept
    exactly as it is by every sequence of operations, and approve, deny
    and manual revoke of it all fail afterwards, whoever asks. *)
Theorem terminal_status_is_final (w w' : World) (id : string) (r : JitRequest) :
  reachable w w' ->
  Dynamo.GetRequest w id = Some r ->
  terminal (Status r) = true ->
  Dynamo.GetRequest w' id = Some r
  /\ forall env actor email reason,
       fails (Handlers.HandleApproveRequest env w'
                {| ari_RequestID := id; ari_ApproverMMUserID := actor;
                   ari_ApproverEmail := email |}).1
       /\ fails (Handlers.HandleDenyRequest env w'
                   {| dri_RequestID := id; dri_DenierMMUserID := actor;
                      dri_DenierEmail := email; dri_Reason := reason |}).1
       /\ fails (Handlers.HandleRevokeRequest env w'
                   {| rri_RequestID := id; rri_ActorMMUserID := actor;
                      rri_ActorEmail := email |}).1.
Proof.
  intros Hreach E Ht.
  pose proof (terminal_row_kept w w' id r Hreach E Ht) as E'.
  split; [exact E'|]. intros env actor email reason.
  assert (Hp : Status r <> StatusPending) by (intro H; rewrite H in Ht; discriminate).
  assert (Hg : Status r <> StatusGranted) by (intro H; rewrite H in Ht; discriminate).
  destruct (decision_needs_pending env w' r id actor email reason E' Hp) as (Ha & _ & Hd & _).
  destruct (revoke_needs_granted env w' r id actor email E' Hg) as (Hv & _).
  auto.
Qed.

Lemma terminal_status_is_final_witness :
  let r := Scenario.request "req-1" StatusRevoked 1700000000 in
  let w' := replay Scenario.env
              [OpRevokeRequest Scenario.revocation; OpReconcile] Scenario.revoked in
  Dynamo.GetRequest Scenario.revoked "req-1" = Some r
  /\ terminal (Status r) = true
  /\ Dynamo.GetRequest w' "req-1" = Some r
  /\ fails (Handlers.HandleApproveRequest Scenario.env w'
              (Scenario.approval_by "req-1" "approver-1")).1.
Proof.
  cbv zeta.
  assert (Dynamo.GetRequest Scenario.revoked "req-1"
          = Some (Scenario.request "req-1" StatusRevoked 1700000000)) as Hreq
    by (vm_compute; reflexivity).
  split; [exact Hreq|]. split; [reflexivity|].
  destruct (terminal_status_is_final Scenario.revoked _ "req-1" _
              (replay_reachable Scenario.env
                 [OpRevokeRequest Scenario.revocation; OpReconcile] _)
              Hreq eq_refl) as [Hkept Hrefused].
  split; [exact Hkept|].
  exact (proj1 (Hrefused Scenario.env "approver-1" "approver@example.com" "")).
Defined.

(** X6: once an approve or a deny of a request has succeeded, the request
    is APPROVED or DENIED, and every further approve or deny of it fails
    and leaves the store untouched. *)
Theorem request_is_decided_once (env : Env) (w : World) (op : operation) (id : string) :
  (exists input x, op = OpApproveRequest input /\ ari_RequestID input = id
                   /\ (Handlers.HandleApproveRequest env w input).1 = Ok x)
  \/ (exists input x, op = OpDenyRequest input /\ dri_RequestID input = id
                      /\ (Handlers.HandleDenyRequest env w input).1 = Ok x) ->
  let w' := run env w op in
  (status_of w' id = Some StatusApproved \/ status_of w' id = Some StatusDenied)
  /\ forall env' actor email reason,
       let a := Handlers.HandleApproveRequest env' w'
                  {| ari_RequestID := id; ari_ApproverMMUserID := actor;
                     ari_ApproverEmail := email |} in
       let d := Handlers.HandleDenyRequest env' w'
                  {| dri_RequestID := id; dri_DenierMMUserID := actor;
                     dri_DenierEmail := email; dri_Reason := reason |} in
       fails a.1 /\ a.2 = w' /\ fails d.1 /\ d.2 = w'.
Proof.
  intros Hop. cbv zeta.
  assert (Hst : exists r st, Dynamo.GetRequest (run env w op) id = Some r
                          /\ Status r = st
                          /\ (st = StatusApproved \/ st = StatusDenied)).
  { destruct Hop as [(input & x & -> & <- & Hok)|(input & x & -> & <- & Hok)]; cbn [run].
    - revert Hok. unfold Handlers.HandleApproveRequest.
      destruct (empty (ari_RequestID input)); [discriminate|].
      destruct (_ || _); [discriminate|].
      destruct (Dynamo.GetRequest w (ari_RequestID input)) as [req|] eqn:E; [|discriminate].
      destruct (negb _) eqn:Es; [discriminate|].
      apply negb_false_iff, status_eqb_eq in Es.
      match goal with |- context [match ?d with Some err => (Err err, w) | None => _ end] =>
        destruct d end; [discriminate|].
      rewrite (ConditionalUpdateStatus_ok _ _ _ _ _ E Es). cbn [fst snd]. intros _.
      rewrite (GetRequest_table _ _ _ (StartExecution_requests _ _ _)).
      world_simpl. rewrite lookup_insert_eq. cbn.
      eexists _, StatusApproved. split; [reflexivity|]. split; [reflexivity | now left].
    - revert Hok. unfold Handlers.HandleDenyRequest.
      destruct (empty (dri_RequestID input)); [discriminate|].
      destruct (_ || _); [discriminate|].
      destruct (Dynamo.GetRequest w (dri_RequestID input)) as [req|] eqn:E; [|discriminate].
      destruct (negb _) eqn:Es; [discriminate|].
      apply negb_false_iff, status_eqb_eq in Es.
      match goal with |- context [match ?d with Some err => (Err err, w) | None => _ end] =>
        destruct d end; [discriminate|].
      rewrite (ConditionalUpdateStatus_ok _ _ _ _ _ E Es). cbn [fst snd]. intros _.
      world_simpl. rewrite lookup_insert_eq. cbn.
      eexists _, StatusDenied. split; [reflexivity|]. split; [reflexivity | now right]. }
  destruct Hst as (r & st & E & Hs & Hst). split.
  - unfold status_of. rewrite E. cbn. rewrite Hs. destruct Hst as [-> | ->]; auto.
  - intros env' actor email reason.
    apply (decision_needs_pending env' _ r id actor email reason E).
    destruct Hst; congruence.
Qed.

Lemma request_is_decided_once_witness :
  let w := Scenario.single StatusPending in
  let w' := run Scenario.env w (OpApproveRequest (Scenario.approval_by "req-1" "approver-1")) in
  status_of w' "req-1" = Some StatusApproved
  /\ fails (Handlers.HandleDenyRequest Scenario.env w'
              {| dri_RequestID := "req-1"; dri_DenierMMUserID := "approver-1";
                 dri_DenierEmail := "approver@example.com"; dri_Reason := "late" |}).1.
Proof.
  cbv zeta.
  split; [vm_compute; reflexivity|].
  destruct (request_is_decided_once Scenario.env (Scenario.single StatusPending)
              (OpApproveRequest (Scenario.approval_by "req-1" "approver-1")) "req-1")
    as [_ Hrefused].
  - left. eexists _, _. split; [reflexivity|]. split; [reflexivity|].
    vm_compute. reflexivity.
  - exact (proj1 (proj2 (proj2
             (Hrefused Scenario.env "approver-1" "approver@example.com" "late")))).
Defined.

(** X7: while the binding of a request exists, an approve or deny by an
    actor who is not among the binding's approvers fails and writes
    nothing, with the error that the user is not an authorized approver
    when the request is PENDING; and an approve by the requester fails and
    writes nothing unless the binding allows self-approval. *)
Theorem decision_needs_authority (env : Env) (w : World) (req : JitRequest)
    (cfg : JitConfig) (id actor email reason : string) :
  Dynamo.GetRequest w id = Some req ->
  Dynamo.GetConfig w (ChannelID req) (AccountID req) = Some cfg ->
  let a := Handlers.HandleApproveRequest env w
             {| ari_RequestID := id; ari_ApproverMMUserID := actor;
                ari_ApproverEmail := email |} in
  let d := Handlers.HandleDenyRequest env w
             {| dri_RequestID := id; dri_DenierMMUserID := actor;
                dri_DenierEmail := email; dri_Reason := reason |} in
  (~ In actor (ApproverMMUserIDs cfg) ->
   fails a.1 /\ a.2 = w /\ fails d.1 /\ d.2 = w)
  /\ (AllowSelfApproval cfg = false -> actor = RequesterMMUserID req ->
      fails a.1 /\ a.2 = w)
  /\ (Status req = StatusPending -> id <> "" -> actor <> "" -> email <> "" ->
      ~ In actor (ApproverMMUserIDs cfg) ->
      a.1 = Err (Handlers.not_approver actor) /\ d.1 = Err (Handlers.not_approver actor)).
Proof.
  intros E Hcfg. cbv zeta.
  unfold Handlers.HandleApproveRequest, Handlers.HandleDenyRequest, fails.
  cbn [ari_RequestID ari_ApproverMMUserID ari_ApproverEmail
       dri_RequestID dri_DenierMMUserID dri_DenierEmail].
  rewrite E, Hcfg. split; [|split].
  - intros Hout. apply isApprover_not_In in Hout. rewrite Hout. cbn [negb].
    destruct (empty id); [cbn; eauto 10|].
    destruct (empty actor || empty email); [cbn; eauto 10|].
    destruct (negb _); cbn; eauto 10.
  - intros Hself ->. rewrite Hself, String.eqb_refl. cbn [negb andb].
    destruct (empty id); [cbn; eauto|].
    destruct (empty (RequesterMMUserID req) || empty email); [cbn; eauto|].
    destruct (negb (status_eqb _ _)); [cbn; eauto|].
    destruct (negb (Handlers.isApprover _ _)); cbn; eauto.
  - intros Hp Hid Ha He Hout.
    apply empty_false in Hid, Ha, He. apply isApprover_not_In in Hout.
    rewrite Hid, Ha, He, Hp, Hout. split; reflexivity.
Qed.

Lemma decision_needs_authority_witness :
  Dynamo.GetRequest (Scenario.single StatusPending) "req-1"
  = Some (Scenario.request "req-1" StatusPending 1700003600)
  /\ Dynamo.GetConfig (Scenario.single StatusPending) "ch1" "acct1"
     = Some (Scenario.binding 4)
  /\ ~ In "random-user" (ApproverMMUserIDs (Scenario.binding 4))
  /\ (Handlers.HandleApproveRequest Scenario.env (Scenario.single StatusPending)
        {| ari_RequestID := "req-1"; ari_ApproverMMUserID := "random-user";
           ari_ApproverEmail := "random@example.com" |}).1
     = Err (Handlers.not_approver "random-user")
  /\ (Handlers.HandleDenyRequest Scenario.env (Scenario.single StatusPending)
        {| dri_RequestID := "req-1"; dri_DenierMMUserID := "random-user";
           dri_DenierEmail := "random@example.com"; dri_Reason := "" |}).1
     = Err (Handlers.not_approver "random-user").
Proof.
  assert (Dynamo.GetRequest (Scenario.single StatusPending) "req-1"
          = Some (Scenario.request "req-1" StatusPending 1700003600)) as Hreq
    by (vm_compute; reflexivity).
  assert (Dynamo.GetConfig (Scenario.single StatusPending) "ch1" "acct1"
          = Some (Scenario.binding 4)) as Hcfg
    by (vm_compute; reflexivity).
  assert (~ In "random-user" (ApproverMMUserIDs (Scenario.binding 4))) as Hout
    by (intros [H|[]]; discriminate H).
  split; [exact Hreq|]. split; [exact Hcfg|]. split; [exact Hout|].
  pose proof (decision_needs_authority Scenario.env (Scenario.single StatusPending)
                (Scenario.request "req-1" StatusPending 1700003600)
                (Scenario.binding 4) "req-1" "random-user" "random@example.com" ""
                Hreq Hcfg) as H.
  cbv zeta in H. destruct H as (_ & _ & Herr).
  assert ("req-1" <> "") as N1 by discriminate.
  assert ("random-user" <> "") as N2 by discriminate.
  assert ("random@example.com" <> "") as N3 by discriminate.
  exact (Herr eq_refl N1 N2 N3 Hout).
Defined.

(** X8: an approve of a PENDING request by one of the binding's approvers
    (not the requester, unless self-approval is allowed) succeeds: the
    stored request becomes APPROVED with the approver and the approval
    time recorded and its other attributes kept, exactly one APPROVED
    audit event is appended, one workflow execution is started when a
    starter is configured, no callback is sent, and bindings and other
    requests are untouched. *)
Theorem approval_by_listed_approver (env : Env) (w : World) (req : JitRequest)
    (cfg : JitConfig) (id actor email : string) :
  Dynamo.GetRequest w id = Some req ->
  Status req = StatusPending ->
  Dynamo.GetConfig w (ChannelID req) (AccountID req) = Some cfg ->
  id <> "" -> actor <> "" -> email <> "" ->
  In actor (ApproverMMUserIDs cfg) ->
  AllowSelfApproval cfg = true \/ actor <> RequesterMMUserID req ->
  let out := Handlers.HandleApproveRequest env w
               {| ari_RequestID := id; ari_ApproverMMUserID := actor;
                  ari_ApproverEmail := email |} in
  exists r',
    out.1 = Ok (Some r')
    /\ Dynamo.GetRequest out.2 id = Some r'
    /\ same_request req r'
    /\ Status r' = StatusApproved
    /\ ApprovedAt r' = Some (UnixSeconds (now env))
    /\ ApproverMMUserID r' = actor /\ ApproverEmail r' = email
    /\ emitted w out.2
       = [{| ev_RequestID := id; ev_EventID := uuid env (drawn w);
             ev_EventTime := UnixSeconds (now env); ev_EventType := EventApproved;
             ev_AccountID := AccountID req; ev_ChannelID := ChannelID req;
             ev_ActorMMUserID := actor; ev_ActorEmail := email; ev_Details := [] |}]
    /\ started out.2
       = started w ++
         (if sfn_configured env
          then [{| sfi_RequestID := id; sfi_AccountID := AccountID req;
                   sfi_ChannelID := ChannelID req;
                   sfi_IdentityStoreUserID := IdentityStoreUserID req;
                   sfi_DurationMinutes := RequestedDurationMinutes req;
                   sfi_RequesterEmail := RequesterEmail req |}]
          else [])
    /\ notified out.2 = notified w
    /\ tableConfig out.2 = tableConfig w
    /\ forall other, other <> id ->
         Dynamo.GetRequest out.2 other = Dynamo.GetRequest w other.
Proof.
  intros E Hp Hcfg Hid Hactor Hemail Hin Hself. cbv zeta.
  apply empty_false in Hid, Hactor, Hemail. apply isApprover_In in Hin.
  destruct (GetRequest_keyed _ _ _ E) as [Hrid _].
  unfold Handlers.HandleApproveRequest.
  cbn [ari_RequestID ari_ApproverMMUserID ari_ApproverEmail].
  rewrite Hid, Hactor, Hemail, E, Hp, Hcfg, Hin. cbn [orb negb status_eqb].
  assert (Hs : (negb (AllowSelfApproval cfg)
                && String.eqb actor (RequesterMMUserID req)) = false).
  { destruct Hself as [-> | Hne]; [reflexivity|].
    apply String.eqb_neq in Hne. rewrite Hne. apply andb_false_r. }
  rewrite Hs.
  rewrite (ConditionalUpdateStatus_ok _ _ _ _ _ E Hp).
  unfold Handlers.StartExecution.
  destruct (sfn_configured env); world_simpl; rewrite lookup_insert_eq; cbn;
    try rewrite Hrid;
    (eexists; split; [reflexivity|]; split; [reflexivity|];
     split; [repeat split; cbn; first [reflexivity | exact Hrid]|];
     split; [reflexivity|]; split; [reflexivity|]; split; [reflexivity|];
     split; [reflexivity|];
     split; [erewrite drop_emitted by reflexivity; reflexivity|];
     split; [try rewrite app_nil_r; reflexivity|];
     split; [reflexivity|]; split; [reflexivity|];
     intros other Hne; now rewrite lookup_insert_ne by congruence).
Qed.

Lemma approval_by_listed_approver_witness :
  Dynamo.GetRequest (Scenario.single StatusPending) "req-1"
  = Some (Scenario.request "req-1" StatusPending 1700003600)
  /\ Dynamo.GetConfig (Scenario.single StatusPending) "ch1" "acct1"
     = Some (Scenario.binding 4)
  /\ exists r',
       (Handlers.HandleApproveRequest Scenario.env (Scenario.single StatusPending)
          {| ari_RequestID := "req-1"; ari_ApproverMMUserID := "approver-1";
             ari_ApproverEmail := "approver@example.com" |}).1 = Ok (Some r')
       /\ Status r' = StatusApproved
       /\ ApproverMMUserID r' = "approver-1".
Proof.
  assert (Dynamo.GetRequest (Scenario.single StatusPending) "req-1"
          = Some (Scenario.request "req-1" StatusPending 1700003600)) as Hreq
    by (vm_compute; reflexivity).
  assert (Dynamo.GetConfig (Scenario.single StatusPending) "ch1" "acct1"
          = Some (Scenario.binding 4)) as Hcfg
    by (vm_compute; reflexivity).
  assert ("req-1" <> "") as N1 by discriminate.
  assert ("approver-1" <> "") as N2 by discriminate.
  assert ("approver@example.com" <> "") as N3 by discriminate.
  assert (In "approver-1" (ApproverMMUserIDs (Scenario.binding 4))) as Hin
    by (now left).
  assert (AllowSelfApproval (Scenario.binding 4) = true
          \/ "approver-1"
             <> RequesterMMUserID (Scenario.request "req-1" StatusPending 1700003600))
    as Hself by (right; discriminate).
  split; [exact Hreq|]. split; [exact Hcfg|].
  pose proof (approval_by_listed_approver Scenario.env (Scenario.single StatusPending)
                (Scenario.request "req-1" StatusPending 1700003600)
                (Scenario.binding 4) "req-1" "approver-1" "approver@example.com"
                Hreq eq_refl Hcfg N1 N2 N3 Hin Hself) as H.
  cbv zeta in H. destruct H as (r' & Hout & _ & _ & Hst & _ & Hby & _).
  exists r'. split; [exact Hout|]. split; [exact Hst | exact Hby].
Defined.

(** X9: a manual revoke of a GRANTED request, when the identity provider
    succeeds, stores the request as REVOKED with the revocation time,
    appends one REVOKED audit event with the actor and sends one REVOKED
    callback; when the provider fails, the handler returns the wrapped
    error, stores the request as ERROR with the provider's message, and
    appends no audit event and sends no callback. *)
Theorem manual_revoke_outcomes (env : Env) (w : World) (req : JitRequest)
    (id actor email : string) :
  Dynamo.GetRequest w id = Some req ->
  Status req = StatusGranted ->
  id <> "" -> actor <> "" -> email <> "" ->
  let out := Handlers.HandleRevokeRequest env w
               {| rri_RequestID := id; rri_ActorMMUserID := actor;
                  rri_ActorEmail := email |} in
  match RevokeAccess env (AccountID req) (IdentityStoreUserID req) with
  | None =>
      exists r',
        out.1 = Ok (Some r')
        /\ Dynamo.GetRequest out.2 id = Some r'
        /\ same_request req r'
        /\ Status r' = StatusRevoked
        /\ RevokedAt r' = Some (UnixSeconds (now env))
        /\ emitted w out.2
           = [{| ev_RequestID := id; ev_EventID := uuid env (drawn w);
                 ev_EventTime := UnixSeconds (now env); ev_EventType := EventRevoked;
                 ev_AccountID := AccountID req; ev_ChannelID := ChannelID req;
                 ev_ActorMMUserID := actor; ev_ActorEmail := email;
                 ev_Details := [] |}]
        /\ notified out.2
           = notified w ++
             [{| wh_RequestID := id; wh_Status := StatusRevoked;
                 wh_AccountID := AccountID req; wh_ChannelID := ChannelID req;
                 wh_Actor := email; wh_Details := [] |}]
  | Some err =>
      out.1 = Err (Wrapf "revoke access" err)
      /\ (exists r',
            Dynamo.GetRequest out.2 id = Some r'
            /\ same_request req r'
            /\ Status r' = StatusError
            /\ ErrorDetails r' = Error err)
      /\ emitted w out.2 = []
      /\ notified out.2 = notified w
  end.
Proof.
  intros E Hg Hid Hactor Hemail. cbv zeta.
  apply empty_false in Hid, Hactor, Hemail.
  destruct (GetRequest_keyed _ _ _ E) as [Hrid _].
  unfold Handlers.HandleRevokeRequest.
  cbn [rri_RequestID rri_ActorMMUserID rri_ActorEmail].
  rewrite Hid, Hactor, Hemail, E, Hg. cbn [orb negb status_eqb].
  destruct (RevokeAccess env (AccountID req) (IdentityStoreUserID req)) as [err|].
  - rewrite (ConditionalUpdateStatus_ok _ _ _ _ _ E Hg). cbn [fst snd].
    split; [reflexivity|]. split.
    + world_simpl. rewrite lookup_insert_eq. cbn. rewrite Hrid.
      eexists. split; [reflexivity|].
      split; [repeat split; cbn; first [reflexivity | exact Hrid]|].
      split; reflexivity.
    + split; [apply emitted_nothing; reflexivity | reflexivity].
  - rewrite (ConditionalUpdateStatus_ok _ _ _ _ _ E Hg). cbn [fst snd].
    world_simpl. rewrite lookup_insert_eq. cbn. rewrite Hrid.
    eexists. split; [reflexivity|]. split; [reflexivity|].
    split; [repeat split; cbn; first [reflexivity | exact Hrid]|].
    split; [reflexivity|]. split; [reflexivity|].
    split; [erewrite drop_emitted by reflexivity; reflexivity | reflexivity].
Qed.

Lemma manual_revoke_outcomes_witness :
  Dynamo.GetRequest (Scenario.single StatusGranted) "req-1"
  = Some (Scenario.request "req-1" StatusGranted 1700003600)
  /\ exists r',
       (Handlers.HandleRevokeRequest Scenario.env (Scenario.single StatusGranted)
          {| rri_RequestID := "req-1"; rri_ActorMMUserID := "admin-1";
             rri_ActorEmail := "admin@example.com" |}).1 = Ok (Some r')
       /\ Status r' = StatusRevoked.
Proof.
  assert (Dynamo.GetRequest (Scenario.single StatusGranted) "req-1"
          = Some (Scenario.request "req-1" StatusGranted 1700003600)) as Hreq
    by (vm_compute; reflexivity).
  assert ("req-1" <> "") as N1 by discriminate.
  assert ("admin-1" <> "") as N2 by discriminate.
  assert ("admin@example.com" <> "") as N3 by discriminate.
  split; [exact Hreq|].
  pose proof (manual_revoke_outcomes Scenario.env (Scenario.single StatusGranted)
                (Scenario.request "req-1" StatusGranted 1700003600)
                "req-1" "admin-1" "admin@example.com" Hreq eq_refl N1 N2 N3) as H.
  cbv zeta in H.
  change (RevokeAccess Scenario.env
            (AccountID (Scenario.request "req-1" StatusGranted 1700003600))
            (IdentityStoreUserID (Scenario.request "req-1" StatusGranted 1700003600)))
    with (@None error) in H.
  destruct H as (r' & Hout & _ & _ & Hst & _).
  exists r'. split; [exact Hout | exact Hst].
Defined.

(** X10: a create-request with all required fields, an existing binding, a
    duration within the binding's limit and a requester known to the
    identity store persists a PENDING request under a fresh id with the
    input's fields, the user id found, the creation time and the end time,
    appends one REQUESTED audit event with jira, reason and duration,
    sends no callback and starts no workflow; if the id drawn is already
    taken, it fails and writes nothing. *)
Theorem create_request_outcome (env : Env) (w : World) (input : CreateRequestInput)
    (cfg : JitConfig) (userID : string) :
  cri_AccountID input <> "" -> cri_ChannelID input <> "" ->
  cri_RequesterMMUserID input <> "" -> cri_RequesterEmail input <> "" ->
  cri_Jira input <> "" \/ cri_Reason input <> "" ->
  0 < cri_RequestedDurationMinutes input ->
  Dynamo.GetConfig w (cri_ChannelID input) (cri_AccountID input) = Some cfg ->
  wrap64 (MaxRequestHours cfg * 60) <= 0
  \/ cri_RequestedDurationMinutes input <= wrap64 (MaxRequestHours cfg * 60) ->
  LookupUserByEmail env (cri_RequesterEmail input) = Ok userID ->
  let out := Handlers.HandleCreateRequest env w input in
  let id := uuid env (drawn w) in
  (is_Some (tableRequests w !! id) ->
   fails out.1 /\ tableRequests out.2 = tableRequests w /\ emitted w out.2 = [])
  /\ (tableRequests w !! id = None ->
      exists req,
        out.1 = Ok req
        /\ Dynamo.GetRequest out.2 id = Some req
        /\ RequestID req = id
        /\ AccountID req = cri_AccountID input /\ ChannelID req = cri_ChannelID input
        /\ RequesterMMUserID req = cri_RequesterMMUserID input
        /\ RequesterEmail req = cri_RequesterEmail input
        /\ RequestedDurationMinutes req = cri_RequestedDurationMinutes input
        /\ Status req = StatusPending
        /\ IdentityStoreUserID req = userID
        /\ CreatedAt req = UnixSeconds (now env)
        /\ EndTime req
           = UnixSeconds (now env + wrap64 (cri_RequestedDurationMinutes input * Minute))
        /\ emitted w out.2
           = [{| ev_RequestID := id; ev_EventID := uuid env (S (drawn w));
                 ev_EventTime := UnixSeconds (now env);
                 ev_EventType := EventRequested;
                 ev_AccountID := cri_AccountID input;
                 ev_ChannelID := cri_ChannelID input;
                 ev_ActorMMUserID := cri_RequesterMMUserID input;
                 ev_ActorEmail := cri_RequesterEmail input;
                 ev_Details :=
                   [("jira", cri_Jira input); ("reason", cri_Reason input);
                    ("requested_duration_minutes",
                     FormatInt (cri_RequestedDurationMinutes input))] |}]
        /\ notified out.2 = notified w /\ started out.2 = started w
        /\ forall other, other <> id ->
             Dynamo.GetRequest out.2 other = Dynamo.GetRequest w other).
Proof.
  intros Ha Hc Hm He Hjr Hd Hcfg Hmax Hlook. cbv zeta.
  apply empty_false in Ha, Hc, Hm, He.
  assert (Hj : (empty (cri_Jira input) && empty (cri_Reason input)) = false).
  { destruct Hjr as [H|H]; apply empty_false in H; rewrite H;
      [reflexivity | apply andb_false_r]. }
  assert (Hdur : (cri_RequestedDurationMinutes input <=? 0) = false) by lia.
  assert (Hlim : ((0 <? wrap64 (MaxRequestHours cfg * 60))
                  && (wrap64 (MaxRequestHours cfg * 60)
                      <? cri_RequestedDurationMinutes input)) = false).
  { destruct Hmax as [H|H].
    - replace (0 <? _) with false by lia. reflexivity.
    - replace (_ <? cri_RequestedDurationMinutes input) with false by lia.
      apply andb_false_r. }
  unfold Handlers.HandleCreateRequest.
  rewrite Ha, Hc, Hm, He, Hj, Hdur, Hcfg, Hlim, Hlook. cbn [orb].
  unfold new_uuid. cbv zeta. cbn [fst snd].
  unfold Dynamo.CreateRequest. cbn [tableRequests RequestID]. split.
  - intros [old Hold]. rewrite Hold. cbn [fst snd]. unfold fails.
    split; [eauto|]. split; [reflexivity | apply emitted_nothing; reflexivity].
  - intros Hfresh. rewrite Hfresh. cbn [fst snd]. world_simpl.
    rewrite lookup_insert_eq. cbn.
    eexists. split; [reflexivity|]. split; [reflexivity|].
    do 10 (split; [reflexivity|]).
    split; [erewrite drop_emitted by reflexivity; reflexivity|].
    split; [reflexivity|]. split; [reflexivity|].
    intros other Hne. now rewrite lookup_insert_ne by congruence.
Qed.

Lemma create_request_outcome_witness :
  Dynamo.GetConfig Scenario.bound "ch1" "acct1" = Some (Scenario.binding 4)
  /\ exists req,
       (Handlers.HandleCreateRequest Scenario.env Scenario.bound Scenario.creation).1
       = Ok req
       /\ Dynamo.GetRequest
            (Handlers.HandleCreateRequest Scenario.env Scenario.bound
               Scenario.creation).2 (uuid Scenario.env (drawn Scenario.bound))
          = Some req
       /\ Status req = StatusPending
       /\ IdentityStoreUserID req = "uid-123".
Proof.
  assert (Dynamo.GetConfig Scenario.bound "ch1" "acct1" = Some (Scenario.binding 4))
    as Hcfg by (vm_compute; reflexivity).
  assert (cri_AccountID Scenario.creation <> "") as N1 by discriminate.
  assert (cri_ChannelID Scenario.creation <> "") as N2 by discriminate.
  assert (cri_RequesterMMUserID Scenario.creation <> "") as N3 by discriminate.
  assert (cri_RequesterEmail Scenario.creation <> "") as N4 by discriminate.
  assert (cri_Jira Scenario.creation <> "" \/ cri_Reason Scenario.creation <> "")
    as N5 by (right; discriminate).
  assert (0 < cri_RequestedDurationMinutes Scenario.creation) as N6 by reflexivity.
  assert (wrap64 (MaxRequestHours (Scenario.binding 4) * 60) <= 0
          \/ cri_RequestedDurationMinutes Scenario.creation
             <= wrap64 (MaxRequestHours (Scenario.binding 4) * 60)) as N7
    by (right; vm_compute; discriminate).
  assert (LookupUserByEmail Scenario.env (cri_RequesterEmail Scenario.creation)
          = Ok "uid-123") as N8 by reflexivity.
  assert (tableRequests Scenario.bound !! uuid Scenario.env (drawn Scenario.bound)
          = None) as N9 by (vm_compute; reflexivity).
  split; [exact Hcfg|].
  pose proof (create_request_outcome Scenario.env Scenario.bound Scenario.creation
                (Scenario.binding 4) "uid-123" N1 N2 N3 N4 N5 N6 Hcfg N7 N8) as H.
  cbv zeta in H. destruct H as [_ Hnew].
  destruct (Hnew N9)
    as (req & Hout & Hget & _ & _ & _ & _ & _ & _ & Hst & Huser & _).
  exists req. split; [exact Hout|]. split; [exact Hget|]. split; [exact Hst | exact Huser].
Defined.

(* ===================================================================== *)
(** * Bindings and approvers *)
(* ===================================================================== *)

Lemma keyed_config_key (k : string * string) (c : JitConfig) :
  key_of (Dynamo.keyed_config k c) = k.
Proof. destruct k. reflexivity. Qed.

Lemma keyed_config_own (c : JitConfig) : Dynamo.keyed_config (key_of c) c = c.
Proof. destruct c. reflexivity. Qed.

(** The rows of a channel, as [GetConfigsByChannel] returns them. *)
Lemma GetConfigsByChannel_spec (w : World) (channelID : string) (c : JitConfig) :
  In c (Dynamo.GetConfigsByChannel w channelID)
  <-> cfg_ChannelID c = channelID
      /\ Dynamo.GetConfig w channelID (cfg_AccountID c) = Some c.
Proof.
  unfold Dynamo.GetConfigsByChannel, Dynamo.GetConfig. rewrite in_map_iff. split.
  - intros ([k stored] & <- & Hin). apply filter_In in Hin. destruct Hin as [Hin Hch].
    apply list_elem_of_In, elem_of_map_to_list in Hin.
    cbn in Hch. apply String.eqb_eq in Hch. destruct k as [ch acct]. cbn in *. subst ch.
    split; [reflexivity|]. rewrite Hin. reflexivity.
  - intros [Hch Hget].
    destruct (tableConfig w !! (channelID, cfg_AccountID c)) as [stored|] eqn:E;
      [|discriminate].
    cbn in Hget. injection Hget as Hc.
    exists ((channelID, cfg_AccountID c), stored). split; [exact Hc|].
    apply filter_In. split.
    + apply list_elem_of_In, elem_of_map_to_list. exact E.
    + cbn. apply String.eqb_refl.
Qed.

Lemma config_rows_distinct (keep : (string * string) * JitConfig -> bool)
    (t : gmap (string * string) JitConfig) :
  NoDup (map (fun kc => key_of (Dynamo.keyed_config kc.1 kc.2))
             (List.filter keep (map_to_list t))).
Proof.
  pose proof (NoDup_fst_map_to_list t) as Hnd. rewrite fmap_is_map in Hnd.
  induction (map_to_list t) as [|[k c] l IH]; cbn; [apply NoDup_nil_2|].
  cbn in Hnd. apply NoDup_cons in Hnd. destruct Hnd as [Hk Hnd].
  destruct (keep (k, c)); [|auto]. cbn. apply NoDup_cons. split; [|auto].
  rewrite keyed_config_key. intro Hin. apply Hk.
  apply list_elem_of_In, in_map_iff in Hin. destruct Hin as ([k' c'] & Hk' & Hin).
  rewrite keyed_config_key in Hk'. cbn in Hk'. subst k'.
  apply filter_In in Hin. destruct Hin as [Hin _].
  apply list_elem_of_In, in_map_iff. exists (k, c'). auto.
Qed.

Lemma GetConfigsByChannel_distinct (w : World) (channelID : string) :
  NoDup (map key_of (Dynamo.GetConfigsByChannel w channelID)).
Proof.
  unfold Dynamo.GetConfigsByChannel. rewrite map_map. apply config_rows_distinct.
Qed.





(** X13: the bound-accounts listing of a channel returns exactly the
    bindings stored under that channel, each account once. *)
Theorem bound_accounts_listed (w : World) (channelID : string) :
  channelID <> "" ->
  exists configs,
    Handlers.HandleGetBoundAccounts w channelID = Ok configs
    /\ NoDup (map cfg_AccountID configs)
    /\ forall c, In c configs
                 <-> cfg_ChannelID c = channelID
                     /\ Dynamo.GetConfig w channelID (cfg_AccountID c) = Some c.
Proof.
  intro Hch. apply empty_false in Hch.
  unfold Handlers.HandleGetBoundAccounts. rewrite Hch.
  eexists. split; [reflexivity|]. split; [|apply GetConfigsByChannel_spec].
  pose proof (GetConfigsByChannel_distinct w channelID) as Hnd.
  assert (Hall : forall c, In c (Dynamo.GetConfigsByChannel w channelID) ->
                           cfg_ChannelID c = channelID).
  { intros c Hin. now apply GetConfigsByChannel_spec in Hin. }
  induction (Dynamo.GetConfigsByChannel w channelID) as [|c l IH]; cbn;
    [apply NoDup_nil_2|].
  cbn in Hnd. apply NoDup_cons in Hnd. destruct Hnd as [Hc Hnd].
  apply NoDup_cons. split.
  - intro Hin. apply Hc. apply list_elem_of_In, in_map_iff in Hin.
    destruct Hin as (c' & Ha & Hin). apply list_elem_of_In, in_map_iff.
    exists c'. split; [|exact Hin]. unfold key_of.
    rewrite Ha, (Hall c' (or_intror Hin)), (Hall c (or_introl eq_refl)). reflexivity.
  - apply IH; [exact Hnd|]. intros c' Hin. apply Hall. now right.
Qed.

Lemma bound_accounts_listed_witness :
  exists configs,
    Handlers.HandleGetBoundAccounts Scenario.bound "ch1" = Ok configs
    /\ NoDup (map cfg_AccountID configs).
Proof.
  assert ("ch1" <> "") as N1 by discriminate.
  destruct (bound_accounts_listed Scenario.bound "ch1" N1) as (configs & Hok & Hnd & _).
  exists configs. split; [exact Hok | exact Hnd].
Defined.

(** X14: a bind whose query on the index gsi_account shows the account
    bound to no other channel succeeds whatever the config table holds by
    then: the binding is stored and listed under its channel with the
    current time, a binding already stored under the same key keeps its
    approvers, policy, self-approval flag and limits, a new one gets no
    approvers, policy one_of_n, no self-approval and a limit of 4 hours,
    and no other binding and no request is touched. *)
Theorem bind_account_outcome (env : Env) (w : World) (input : BindAccountInput) :
  bai_ChannelID input <> "" -> bai_AccountID input <> "" ->
  (forall ch, is_Some (gsi_account env !! (ch, bai_AccountID input)) ->
              ch = bai_ChannelID input) ->
  let out := Handlers.HandleBindAccount env w input in
  exists cfg,
    out.1 = Ok cfg
    /\ Dynamo.GetConfig out.2 (bai_ChannelID input) (bai_AccountID input) = Some cfg
    /\ In cfg (Dynamo.GetConfigsByChannel out.2 (bai_ChannelID input))
    /\ UpdatedAt cfg = UnixSeconds (now env)
    /\ match Dynamo.GetConfig w (bai_ChannelID input) (bai_AccountID input) with
       | Some old =>
           ApproverMMUserIDs cfg = ApproverMMUserIDs old
           /\ ApprovalPolicy cfg = ApprovalPolicy old
           /\ AllowSelfApproval cfg = AllowSelfApproval old
           /\ MaxRequestHours cfg = MaxRequestHours old
           /\ SessionDurationMinutes cfg = SessionDurationMinutes old
       | None =>
           ApproverMMUserIDs cfg = [] /\ ApprovalPolicy cfg = "one_of_n"
           /\ AllowSelfApproval cfg = false /\ MaxRequestHours cfg = 4
           /\ SessionDurationMinutes cfg = 0
       end
    /\ (forall ch acct, (ch, acct) <> (bai_ChannelID input, bai_AccountID input) ->
          Dynamo.GetConfig out.2 ch acct = Dynamo.GetConfig w ch acct)
    /\ tableRequests out.2 = tableRequests w.
Proof.
  intros Hch Hacct Hfree. cbv zeta.
  apply empty_false in Hch, Hacct.
  unfold Handlers.HandleBindAccount. rewrite Hch, Hacct. cbn [orb].
  assert (Hno : match Dynamo.GetChannelForAccount (gsi_account env)
                        (bai_AccountID input) with
                | Some existing =>
                    if negb (String.eqb (cfg_ChannelID existing) (bai_ChannelID input))
                    then Some (Errorf ("account " +:+ bai_AccountID input
                                       +:+ " is already bound to channel "
                                       +:+ cfg_ChannelID existing))
                    else None
                | None => None
                end = None).
  { destruct (Dynamo.GetChannelForAccount (gsi_account env) (bai_AccountID input))
      as [c|] eqn:E; [|reflexivity].
    apply GetChannelForAccount_Some in E. destruct E as (ch & stored & Hs & ->).
    cbn. rewrite (Hfree ch) by (rewrite Hs; eauto). now rewrite String.eqb_refl. }
  rewrite Hno.
  set (cfg := match Dynamo.GetConfig w (bai_ChannelID input) (bai_AccountID input) with
              | Some existingCfg => _ | None => _ end).
  assert (Hkey : key_of cfg = (bai_ChannelID input, bai_AccountID input)).
  { subst cfg. destruct (Dynamo.GetConfig w _ _); reflexivity. }
  assert (Hget : Dynamo.GetConfig (Dynamo.PutConfig w cfg) (bai_ChannelID input)
                   (bai_AccountID input) = Some cfg).
  { unfold Dynamo.GetConfig, Dynamo.PutConfig, set_config. cbn [tableConfig].
    unfold key_of in Hkey. injection Hkey as H1 H2. rewrite H1, H2, lookup_insert_eq.
    cbn. rewrite <- H1 at 1. rewrite <- H2 at 1. f_equal. apply (keyed_config_own cfg). }
  exists cfg. cbn [fst snd]. split; [reflexivity|]. split; [exact Hget|].
  split.
  { apply GetConfigsByChannel_spec. unfold key_of in Hkey. injection Hkey as H1 H2.
    rewrite H2. auto. }
  split; [subst cfg; destruct (Dynamo.GetConfig w _ _); reflexivity|].
  split.
  { subst cfg. destruct (Dynamo.GetConfig w _ _); repeat split. }
  split; [|reflexivity].
  intros ch acct Hne. unfold Dynamo.GetConfig, Dynamo.PutConfig, set_config.
  cbn [tableConfig]. fold (key_of cfg). rewrite Hkey.
  now rewrite lookup_insert_ne by congruence.
Qed.

Lemma bind_account_outcome_witness :
  (forall ch, is_Some (gsi_account Scenario.env_current !! (ch, "acct1")) -> ch = "ch1")
  /\ exists cfg,
       (Handlers.HandleBindAccount Scenario.env_current Scenario.bound
          {| bai_ChannelID := "ch1"; bai_AccountID := "acct1" |}).1 = Ok cfg
       /\ UpdatedAt cfg = UnixSeconds (now Scenario.env_current).
Proof.
  assert ("ch1" <> "") as N1 by discriminate.
  assert ("acct1" <> "") as N2 by discriminate.
  assert (forall ch, is_Some (gsi_account Scenario.env_current !! (ch, "acct1")) ->
                     ch = "ch1") as N3.
  { intros ch Hs. cbn in Hs.
    apply lookup_insert_is_Some in Hs as [[= <-] | [_ Hs]]; [reflexivity|].
    rewrite lookup_empty in Hs. now destruct Hs. }
  split; [exact N3|].
  pose proof (bind_account_outcome Scenario.env_current Scenario.bound
                {| bai_ChannelID := "ch1"; bai_AccountID := "acct1" |} N1 N2 N3) as H.
  cbv zeta in H. destruct H as (cfg & Hok & _ & _ & Hat & _).
  exists cfg. split; [exact Hok | exact Hat].
Defined.

(* ===================================================================== *)
(** * The grant workflow *)
(* ===================================================================== *)

Lemma drop_delivered (w : World) (payloads : list WebhookPayload) (w' : World) :
  notified w' = notified w ++ payloads -> delivered w w' = payloads.
Proof. unfold delivered. intros ->. apply drop_app_length. Qed.

Lemma stored_after_update (w : World) (id : string) (r : JitRequest) :
  RequestID r = id ->
  Dynamo.GetRequest (set_requests (fun t => <[id := r]> t) w) id = Some r.
Proof.
  intros <-. unfold Dynamo.GetRequest, set_requests. cbn [tableRequests].
  rewrite lookup_insert_eq. cbn. destruct r; reflexivity.
Qed.

Lemma validate_step (env : Env) (w : World) (req : JitRequest)
    (p : Actions.StepFunctionActionPayload) :
  Dynamo.GetRequest w (Actions.p_RequestID p) = Some req ->
  Status req = StatusApproved ->
  Actions.Handle env w (with_action "validate" p)
  = (Ok {| Actions.ar_Status := "validated";
           Actions.ar_RequestID := Actions.p_RequestID p;
           Actions.Message := "" |}, w).
Proof.
  intros E Hs. change (Actions.Handle env w (with_action "validate" p))
    with (Actions.handleValidate env w (with_action "validate" p)).
  unfold Actions.handleValidate. cbn [Actions.p_RequestID with_action].
  now rewrite E, Hs.
Qed.

Lemma grant_step (env : Env) (w : World) (req : JitRequest)
    (p : Actions.StepFunctionActionPayload) :
  Dynamo.GetRequest w (Actions.p_RequestID p) = Some req ->
  Status req = StatusApproved ->
  GrantAccess env (AccountID req) (IdentityStoreUserID req) = None ->
  Actions.Handle env w (with_action "grant" p)
  = (Ok {| Actions.ar_Status := "granted";
           Actions.ar_RequestID := Actions.p_RequestID p;
           Actions.Message := "" |},
     Audit.Log env
       (set_requests
          (fun t => <[Actions.p_RequestID p :=
                        Dynamo.apply_updates
                          [Dynamo.set_status StatusGranted;
                           Dynamo.set_grant_time (UnixSeconds (now env))] req]> t) w)
       (Actions.p_RequestID p) EventGranted (AccountID req) (ChannelID req)
       "" "system" []).
Proof.
  intros E Hs Hg. change (Actions.Handle env w (with_action "grant" p))
    with (Actions.handleGrant env w (with_action "grant" p)).
  unfold Actions.handleGrant. cbn [Actions.p_RequestID with_action].
  now rewrite E, Hg, (ConditionalUpdateStatus_ok _ _ _ _ _ E Hs).
Qed.

Lemma notify_granted_step (env : Env) (w : World) (req : JitRequest)
    (p : Actions.StepFunctionActionPayload) :
  Dynamo.GetRequest w (Actions.p_RequestID p) = Some req ->
  Actions.Handle env w (with_action "notify_granted" p)
  = (Ok {| Actions.ar_Status := "notified";
           Actions.ar_RequestID := Actions.p_RequestID p;
           Actions.Message := "" |},
     Webhook.Notify w
       {| wh_RequestID := RequestID req; wh_Status := StatusGranted;
          wh_AccountID := AccountID req; wh_ChannelID := ChannelID req;
          wh_Actor := "system";
          wh_Details :=
            [("requester_email", RequesterEmail req);
             ("duration_minutes", FormatInt (RequestedDurationMinutes req))] |}).
Proof.
  intros E. change (Actions.Handle env w (with_action "notify_granted" p))
    with (Actions.handleNotifyGranted env w (with_action "notify_granted" p)).
  unfold Actions.handleNotifyGranted. cbn [Actions.p_RequestID with_action].
  now rewrite E.
Qed.

Lemma revoke_step (env : Env) (w : World) (req : JitRequest)
    (p : Actions.StepFunctionActionPayload) :
  Dynamo.GetRequest w (Actions.p_RequestID p) = Some req ->
  Status req = StatusGranted ->
  RevokeAccess env (AccountID req) (IdentityStoreUserID req) = None ->
  Actions.Handle env w (with_action "revoke" p)
  = (Ok {| Actions.ar_Status := "expired";
           Actions.ar_RequestID := Actions.p_RequestID p;
           Actions.Message := "" |},
     Audit.Log env
       (set_requests
          (fun t => <[Actions.p_RequestID p :=
                        Dynamo.apply_updates
                          [Dynamo.set_status StatusExpired;
                           Dynamo.set_expired_at (UnixSeconds (now env))] req]> t) w)
       (Actions.p_RequestID p) EventExpired (AccountID req) (ChannelID req)
       "" "system" []).
Proof.
  intros E Hs Hg. change (Actions.Handle env w (with_action "revoke" p))
    with (Actions.handleRevoke env w (with_action "revoke" p)).
  unfold Actions.handleRevoke. cbn [Actions.p_RequestID with_action].
  now rewrite E, Hs, Hg, (ConditionalUpdateStatus_ok _ _ _ _ _ E Hs).
Qed.

Lemma notify_revoked_step (env : Env) (w : World) (req : JitRequest)
    (p : Actions.StepFunctionActionPayload) :
  Dynamo.GetRequest w (Actions.p_RequestID p) = Some req ->
  Actions.Handle env w (with_action "notify_revoked" p)
  = (Ok {| Actions.ar_Status := "notified";
           Actions.ar_RequestID := Actions.p_RequestID p;
           Actions.Message := "" |},
     Webhook.Notify w
       {| wh_RequestID := RequestID req; wh_Status := Status req;
          wh_AccountID := AccountID req; wh_ChannelID := ChannelID req;
          wh_Actor := "system"; wh_Details := [] |}).
Proof.
  intros E. change (Actions.Handle env w (with_action "notify_revoked" p))
    with (Actions.handleNotifyRevoked env w (with_action "notify_revoked" p)).
  unfold Actions.handleNotifyRevoked. cbn [Actions.p_RequestID with_action].
  now rewrite E.
Qed.

(** X15: the workflow's five steps in order (validate, grant,
    notify_granted, revoke, notify_revoked) on an APPROVED request, with
    the identity provider succeeding, answer validated, granted, notified,
    expired, notified, take the request through GRANTED to EXPIRED with
    the grant and expiry times recorded, append exactly a GRANTED and an
    EXPIRED audit event by the system, and deliver exactly two callbacks,
    GRANTED with requester and duration, then EXPIRED. *)
Theorem workflow_runs_to_expiry (e1 e2 e3 e4 e5 : Env) (w : World) (req : JitRequest)
    (p : Actions.StepFunctionActionPayload) :
  Dynamo.GetRequest w (Actions.p_RequestID p) = Some req ->
  Status req = StatusApproved ->
  GrantAccess e2 (AccountID req) (IdentityStoreUserID req) = None ->
  RevokeAccess e4 (AccountID req) (IdentityStoreUserID req) = None ->
  let id := Actions.p_RequestID p in
  let s1 := Actions.Handle e1 w (with_action "validate" p) in
  let s2 := Actions.Handle e2 s1.2 (with_action "grant" p) in
  let s3 := Actions.Handle e3 s2.2 (with_action "notify_granted" p) in
  let s4 := Actions.Handle e4 s3.2 (with_action "revoke" p) in
  let s5 := Actions.Handle e5 s4.2 (with_action "notify_revoked" p) in
  let answered (s : result Actions.ActionResult * World) (status : string) :=
    s.1 = Ok {| Actions.ar_Status := status; Actions.ar_RequestID := id;
                Actions.Message := "" |} in
  answered s1 "validated" /\ answered s2 "granted" /\ answered s3 "notified"
  /\ answered s4 "expired" /\ answered s5 "notified"
  /\ status_of s3.2 id = Some StatusGranted
  /\ (exists r',
        Dynamo.GetRequest s5.2 id = Some r'
        /\ same_request req r'
        /\ Status r' = StatusExpired
        /\ GrantTime r' = Some (UnixSeconds (now e2))
        /\ ExpiredAt r' = Some (UnixSeconds (now e4)))
  /\ map (fun ev => (ev_EventType ev, ev_ActorEmail ev)) (emitted w s5.2)
     = [(EventGranted, "system"); (EventExpired, "system")]
  /\ delivered w s5.2
     = [{| wh_RequestID := id; wh_Status := StatusGranted;
           wh_AccountID := AccountID req; wh_ChannelID := ChannelID req;
           wh_Actor := "system";
           wh_Details :=
             [("requester_email", RequesterEmail req);
              ("duration_minutes", FormatInt (RequestedDurationMinutes req))] |};
        {| wh_RequestID := id; wh_Status := StatusExpired;
           wh_AccountID := AccountID req; wh_ChannelID := ChannelID req;
           wh_Actor := "system"; wh_Details := [] |}].
Proof.
  intros E Happ Hgrant Hrevoke. cbv zeta.
  destruct (GetRequest_keyed _ _ _ E) as [Hrid _].
  rewrite (validate_step e1 w req p E Happ). cbn [fst snd].
  rewrite (grant_step e2 w req p E Happ Hgrant). cbn [fst snd].
  pose (granted := Dynamo.apply_updates
                     [Dynamo.set_status StatusGranted;
                      Dynamo.set_grant_time (UnixSeconds (now e2))] req).
  assert (Hsg : same_request req granted) by apply apply_updates_same.
  assert (Hg1 : Status granted = StatusGranted) by reflexivity.
  assert (Hg2 : GrantTime granted = Some (UnixSeconds (now e2))) by reflexivity.
  fold granted. clearbody granted.
  match goal with |- context [Actions.Handle e3 ?x _] => set (w2 := x) end.
  assert (E2 : Dynamo.GetRequest w2 (Actions.p_RequestID p) = Some granted).
  { subst w2. rewrite (GetRequest_table _ _ _ (Log_requests _ _ _ _ _ _ _ _ _)).
    apply stored_after_update. rewrite <- Hrid. symmetry. apply Hsg. }
  assert (A2 : tableAudit w2
               = tableAudit w ++
                 [{| ev_RequestID := Actions.p_RequestID p;
                     ev_EventID := uuid e2 (drawn w);
                     ev_EventTime := UnixSeconds (now e2);
                     ev_EventType := EventGranted;
                     ev_AccountID := AccountID req; ev_ChannelID := ChannelID req;
                     ev_ActorMMUserID := ""; ev_ActorEmail := "system";
                     ev_Details := [] |}]) by reflexivity.
  assert (N2 : notified w2 = notified w) by reflexivity.
  clearbody w2.
  rewrite (notify_granted_step e3 w2 granted p E2). cbn [fst snd].
  match goal with |- context [Actions.Handle e4 ?x _] => set (w3 := x) end.
  assert (E3 : Dynamo.GetRequest w3 (Actions.p_RequestID p) = Some granted).
  { subst w3. rewrite (GetRequest_table _ _ _ (Notify_requests _ _)). exact E2. }
  assert (A3 : tableAudit w3 = tableAudit w2) by reflexivity.
  assert (N3 : notified w3
               = notified w2 ++
                 [{| wh_RequestID := RequestID granted; wh_Status := StatusGranted;
                     wh_AccountID := AccountID granted;
                     wh_ChannelID := ChannelID granted;
                     wh_Actor := "system";
                     wh_Details :=
                       [("requester_email", RequesterEmail granted);
                        ("duration_minutes",
                         FormatInt (RequestedDurationMinutes granted))] |}])
    by reflexivity.
  clearbody w3.
  assert (Hrevoke' : RevokeAccess e4 (AccountID granted) (IdentityStoreUserID granted)
                     = None).
  { destruct Hsg as (_ & <- & _ & _ & _ & _ & _ & _ & _ & _ & <-). exact Hrevoke. }
  rewrite (revoke_step e4 w3 granted p E3 Hg1 Hrevoke'). cbn [fst snd].
  pose (expired := Dynamo.apply_updates
                     [Dynamo.set_status StatusExpired;
                      Dynamo.set_expired_at (UnixSeconds (now e4))] granted).
  assert (Hse : same_request granted expired) by apply apply_updates_same.
  assert (Hx1 : Status expired = StatusExpired) by reflexivity.
  assert (Hx2 : ExpiredAt expired = Some (UnixSeconds (now e4))) by reflexivity.
  assert (Hx3 : GrantTime expired = GrantTime granted) by reflexivity.
  fold expired. clearbody expired.
  match goal with |- context [Actions.Handle e5 ?x _] => set (w4 := x) end.
  assert (E4 : Dynamo.GetRequest w4 (Actions.p_RequestID p) = Some expired).
  { subst w4. rewrite (GetRequest_table _ _ _ (Log_requests _ _ _ _ _ _ _ _ _)).
    apply stored_after_update.
    pose proof Hsg as (Hi1 & _). pose proof Hse as (Hi2 & _). congruence. }
  assert (A4 : exists ev, tableAudit w4 = tableAudit w3 ++ [ev]
                          /\ ev_EventType ev = EventExpired
                          /\ ev_ActorEmail ev = "system").
  { eexists. split; [reflexivity|]. split; reflexivity. }
  assert (N4 : notified w4 = notified w3) by reflexivity.
  clearbody w4.
  rewrite (notify_revoked_step e5 w4 expired p E4). cbn [fst snd].
  do 5 (split; [reflexivity|]).
  split; [unfold status_of; rewrite E3; cbn; now rewrite Hg1|].
  split.
  { exists expired. rewrite (GetRequest_table _ _ _ (Notify_requests _ _)).
    split; [exact E4|]. split; [eapply same_request_trans; eauto|].
    split; [exact Hx1|]. split; [congruence | exact Hx2]. }
  destruct A4 as (ev & A4 & Hty & Hactor).
  pose proof Hsg as (Hq1 & Hq2 & Hq3 & _ & Hq5 & _ & _ & Hq8 & _).
  pose proof Hse as (Hr1 & Hr2 & Hr3 & _).
  split.
  - erewrite drop_emitted.
    2:{ change (tableAudit (Webhook.Notify w4 _)) with (tableAudit w4).
        rewrite A4, A3, A2, <- List.app_assoc. reflexivity. }
    cbn. now rewrite Hty, Hactor.
  - erewrite drop_delivered.
    2:{ change (notified (Webhook.Notify w4 ?x)) with (notified w4 ++ [x]).
        rewrite N4, N3, N2, <- List.app_assoc. reflexivity. }
    rewrite Hx1, <- Hr1, <- Hr2, <- Hr3, <- Hq1, <- Hq2, <- Hq3, <- Hq5, <- Hq8, Hrid.
    reflexivity.
Qed.

Lemma workflow_runs_to_expiry_witness :
  Dynamo.GetRequest (Scenario.single StatusApproved) "req-1"
  = Some (Scenario.request "req-1" StatusApproved 1700003600)
  /\ status_of
       (Actions.Handle Scenario.env
          (Actions.Handle Scenario.env
             (Actions.Handle Scenario.env (Scenario.single StatusApproved)
                (with_action "validate" (Scenario.step_revoke "req-1"))).2
             (with_action "grant" (Scenario.step_revoke "req-1"))).2
          (with_action "notify_granted" (Scenario.step_revoke "req-1"))).2
       "req-1" = Some StatusGranted.
Proof.
  assert (Dynamo.GetRequest (Scenario.single StatusApproved)
            (Actions.p_RequestID (Scenario.step_revoke "req-1"))
          = Some (Scenario.request "req-1" StatusApproved 1700003600)) as Hreq
    by (vm_compute; reflexivity).
  split; [exact Hreq|].
  pose proof (workflow_runs_to_expiry Scenario.env Scenario.env Scenario.env
                Scenario.env Scenario.env (Scenario.single StatusApproved)
                (Scenario.request "req-1" StatusApproved 1700003600)
                (Scenario.step_revoke "req-1") Hreq eq_refl eq_refl eq_refl) as H.
  cbv zeta in H. destruct H as (_ & _ & _ & _ & _ & Hgranted & _).
  exact Hgranted.
Defined.

(** X16: the workflow's grant-error step answers error_handled with the
    error it was given (or a default text), moves a request that is
    APPROVED or GRANTED to ERROR with that error as its details and leaves
    a request in any other status as it is, and in every case appends one
    ERROR audit event and delivers one ERROR callback, both with the error
    and the phase grant. *)
Theorem grant_error_is_recorded (env : Env) (w : World) (req : JitRequest)
    (p : Actions.StepFunctionActionPayload) :
  Dynamo.GetRequest w (Actions.p_RequestID p) = Some req ->
  let id := Actions.p_RequestID p in
  let out := Actions.Handle env w (with_action "handle_grant_error" p) in
  let detail := match Actions.p_Error p with
                | Some raw => raw
                | None => "grant step failed"
                end in
  out.1 = Ok {| Actions.ar_Status := "error_handled"; Actions.ar_RequestID := id;
                Actions.Message := detail |}
  /\ (Status req = StatusApproved \/ Status req = StatusGranted ->
      exists r', Dynamo.GetRequest out.2 id = Some r' /\ same_request req r'
                 /\ Status r' = StatusError /\ ErrorDetails r' = detail)
  /\ (Status req <> StatusApproved -> Status req <> StatusGranted ->
      Dynamo.GetRequest out.2 id = Some req)
  /\ emitted w out.2
     = [{| ev_RequestID := id; ev_EventID := uuid env (drawn w);
           ev_EventTime := UnixSeconds (now env); ev_EventType := EventError;
           ev_AccountID := AccountID req; ev_ChannelID := ChannelID req;
           ev_ActorMMUserID := ""; ev_ActorEmail := "system";
           ev_Details := [("error", detail); ("phase", "grant")] |}]
  /\ delivered w out.2
     = [{| wh_RequestID := id; wh_Status := StatusError;
           wh_AccountID := AccountID req; wh_ChannelID := ChannelID req;
           wh_Actor := "system";
           wh_Details := [("error", detail); ("phase", "grant")] |}].
Proof.
  intros E. cbv zeta.
  destruct (GetRequest_keyed _ _ _ E) as [Hrid _].
  change (Actions.Handle env w (with_action "handle_grant_error" p))
    with (Actions.handleGrantError env w (with_action "handle_grant_error" p)).
  unfold Actions.handleGrantError. cbn [Actions.p_RequestID Actions.p_Error with_action].
  rewrite E. cbv zeta. cbn [fst snd]. split; [reflexivity|].
  set (detail := match Actions.p_Error p with Some raw => raw | None => _ end).
  set (updates := [Dynamo.set_status StatusError; Dynamo.set_error_details detail]).
  destruct (status_eqb (Status req) StatusApproved) eqn:Ha.
  - apply status_eqb_eq in Ha.
    rewrite (ConditionalUpdateStatus_ok _ _ _ _ _ E Ha).
    split; [intros _|split; [congruence|]].
    + same_rows. rewrite stored_after_update by exact Hrid.
      eexists. split; [reflexivity|]. split; [apply apply_updates_same|].
      split; reflexivity.
    + split; [erewrite drop_emitted by reflexivity; reflexivity|].
      erewrite drop_delivered by reflexivity. now rewrite Hrid.
  - apply status_eqb_neq in Ha.
    rewrite (ConditionalUpdateStatus_conflict w (Actions.p_RequestID p) StatusApproved)
      by (unfold status_of; rewrite E; cbn; congruence).
    destruct (status_eqb (Status req) StatusGranted) eqn:Hg.
    + apply status_eqb_eq in Hg.
      rewrite (ConditionalUpdateStatus_ok _ _ _ _ _ E Hg). cbn [snd].
      split; [intros _|split; [congruence|]].
      * same_rows. rewrite stored_after_update by exact Hrid.
        eexists. split; [reflexivity|]. split; [apply apply_updates_same|].
        split; reflexivity.
      * split; [erewrite drop_emitted by reflexivity; reflexivity|].
        erewrite drop_delivered by reflexivity. now rewrite Hrid.
    + apply status_eqb_neq in Hg.
      rewrite (ConditionalUpdateStatus_conflict w (Actions.p_RequestID p) StatusGranted)
        by (unfold status_of; rewrite E; cbn; congruence).
      cbn [snd]. split; [intros [?|?]; contradiction|].
      split; [intros _ _; same_rows; exact E|].
      split; [erewrite drop_emitted by reflexivity; reflexivity|].
      erewrite drop_delivered by reflexivity. now rewrite Hrid.
Qed.

Lemma grant_error_is_recorded_witness :
  Dynamo.GetRequest (Scenario.single StatusApproved) "req-1"
  = Some (Scenario.request "req-1" StatusApproved 1700003600)
  /\ exists r',
       Dynamo.GetRequest
         (Actions.Handle Scenario.env (Scenario.single StatusApproved)
            (with_action "handle_grant_error" (Scenario.step_revoke "req-1"))).2
         "req-1" = Some r'
       /\ Status r' = StatusError /\ ErrorDetails r' = "grant step failed".
Proof.
  assert (Dynamo.GetRequest (Scenario.single StatusApproved)
            (Actions.p_RequestID (Scenario.step_revoke "req-1"))
          = Some (Scenario.request "req-1" StatusApproved 1700003600)) as Hreq
    by (vm_compute; reflexivity).
  split; [exact Hreq|].
  pose proof (grant_error_is_recorded Scenario.env (Scenario.single StatusApproved)
                (Scenario.request "req-1" StatusApproved 1700003600)
                (Scenario.step_revoke "req-1") Hreq) as H.
  cbv zeta in H. destruct H as (_ & Hrow & _).
  destruct (Hrow (or_introl eq_refl)) as (r' & Hget & _ & Hst & Hdet).
  exists r'. split; [exact Hget|]. split; [exact Hst | exact Hdet].
Defined.



(** X18: when a manual revoke ends a grant before the workflow's revoke
    step runs, the step answers with the request's status and the message
    already revoked or expired, the request stays REVOKED and only the
    REVOKED audit event of the manual revoke exists, but the
    notify_revoked step still sends its callback: the plugin receives two
    REVOKED callbacks, one by the actor and one by the system. *)
Theorem break_glass_then_workflow (e1 e2 e3 : Env) (w : World) (req : JitRequest)
    (p : Actions.StepFunctionActionPayload) (actor email : string) :
  Dynamo.GetRequest w (Actions.p_RequestID p) = Some req ->
  Status req = StatusGranted ->
  Actions.p_RequestID p <> "" -> actor <> "" -> email <> "" ->
  RevokeAccess e1 (AccountID req) (IdentityStoreUserID req) = None ->
  let id := Actions.p_RequestID p in
  let s1 := Handlers.HandleRevokeRequest e1 w
              {| rri_RequestID := id; rri_ActorMMUserID := actor;
                 rri_ActorEmail := email |} in
  let s2 := Actions.Handle e2 s1.2 (with_action "revoke" p) in
  let s3 := Actions.Handle e3 s2.2 (with_action "notify_revoked" p) in
  s2.1 = Ok {| Actions.ar_Status := "REVOKED"; Actions.ar_RequestID := id;
               Actions.Message := "already revoked or expired" |}
  /\ Dynamo.GetRequest s3.2 id = Dynamo.GetRequest s1.2 id
  /\ status_of s3.2 id = Some StatusRevoked
  /\ map ev_EventType (emitted w s3.2) = [EventRevoked]
  /\ map (fun n => (wh_Status n, wh_Actor n)) (delivered w s3.2)
     = [(StatusRevoked, email); (StatusRevoked, "system")].
Proof.
  intros E Hg Hid Hactor Hemail Hrev. cbv zeta.
  apply empty_false in Hid, Hactor, Hemail.
  destruct (GetRequest_keyed _ _ _ E) as [Hrid _].
  unfold Handlers.HandleRevokeRequest.
  cbn [rri_RequestID rri_ActorMMUserID rri_ActorEmail].
  rewrite Hid, Hactor, Hemail, E, Hg, Hrev. cbn [orb negb status_eqb].
  rewrite (ConditionalUpdateStatus_ok _ _ _ _ _ E Hg). cbn [fst snd].
  set (revoked := Dynamo.apply_updates
                    [Dynamo.set_status StatusRevoked;
                     Dynamo.set_revoked_at (UnixSeconds (now e1))] req).
  match goal with |- context [Actions.Handle e2 ?x _] => set (w1 := x) end.
  assert (E1 : Dynamo.GetRequest w1 (Actions.p_RequestID p) = Some revoked).
  { subst w1. same_rows. apply stored_after_update. exact Hrid. }
  assert (H2 : Actions.Handle e2 w1 (with_action "revoke" p)
               = (Ok {| Actions.ar_Status := "REVOKED";
                        Actions.ar_RequestID := Actions.p_RequestID p;
                        Actions.Message := "already revoked or expired" |}, w1)).
  { change (Actions.Handle e2 w1 (with_action "revoke" p))
      with (Actions.handleRevoke e2 w1 (with_action "revoke" p)).
    unfold Actions.handleRevoke. cbn [Actions.p_RequestID with_action].
    rewrite E1. reflexivity. }
  rewrite H2. cbn [fst snd].
  rewrite (notify_revoked_step e3 w1 revoked p E1). cbn [fst snd].
  split; [reflexivity|]. split; [now same_rows|].
  split; [unfold status_of; same_rows; now rewrite E1|].
  split.
  - erewrite drop_emitted by (subst w1; world_simpl; reflexivity). reflexivity.
  - erewrite drop_delivered
      by (subst w1; world_simpl; rewrite <- List.app_assoc; reflexivity).
    reflexivity.
Qed.

Lemma break_glass_then_workflow_witness :
  Dynamo.GetRequest (Scenario.single StatusGranted) "req-1"
  = Some (Scenario.request "req-1" StatusGranted 1700003600)
  /\ map (fun n => (wh_Status n, wh_Actor n))
       (delivered (Scenario.single StatusGranted)
          (Actions.Handle Scenario.env
             (Actions.Handle Scenario.env
                (Handlers.HandleRevokeRequest Scenario.env (Scenario.single StatusGranted)
                   {| rri_RequestID := Actions.p_RequestID (Scenario.step_revoke "req-1");
                      rri_ActorMMUserID := "admin-1";
                      rri_ActorEmail := "admin@example.com" |}).2
                (with_action "revoke" (Scenario.step_revoke "req-1"))).2
             (with_action "notify_revoked" (Scenario.step_revoke "req-1"))).2)
     = [(StatusRevoked, "admin@example.com"); (StatusRevoked, "system")].
Proof.
  assert (Dynamo.GetRequest (Scenario.single StatusGranted)
            (Actions.p_RequestID (Scenario.step_revoke "req-1"))
          = Some (Scenario.request "req-1" StatusGranted 1700003600)) as Hreq
    by (vm_compute; reflexivity).
  assert (Actions.p_RequestID (Scenario.step_revoke "req-1") <> "") as N1
    by discriminate.
  assert ("admin-1" <> "") as N2 by discriminate.
  assert ("admin@example.com" <> "") as N3 by discriminate.
  split; [exact Hreq|].
  pose proof (break_glass_then_workflow Scenario.env Scenario.env Scenario.env
                (Scenario.single StatusGranted)
                (Scenario.request "req-1" StatusGranted 1700003600)
                (Scenario.step_revoke "req-1") "admin-1" "admin@example.com"
                Hreq eq_refl N1 N2 N3 eq_refl) as H.
  cbv zeta in H. destruct H as (_ & _ & _ & _ & Hsent).
  exact Hsent.
Defined.

(* ===================================================================== *)
(** * The authenticator: headers, clock and method *)
(* ===================================================================== *)

(** X19: among headers whose names are ASCII, the header lookup of an
    ASCII name returns the value stored under the exact name when there is
    one; otherwise the value of the header whose name differs only in the
    case of letters, when there is exactly one such header; and the empty
    string when no header name matches. *)
Theorem header_lookup_ignores_case (headers : gmap string string) (key : string) :
  isASCII key = true ->
  (forall k v, headers !! k = Some v -> isASCII k = true) ->
  (forall v, headers !! key = Some v -> Auth.headerValue headers key = v)
  /\ (forall k v,
        headers !! k = Some v -> ToLower k = ToLower key ->
        (forall k' v', headers !! k' = Some v' -> ToLower k' = ToLower key -> k' = k) ->
        Auth.headerValue headers key = v)
  /\ ((forall k v, headers !! k = Some v -> ToLower k <> ToLower key) ->
      Auth.headerValue headers key = "").
Proof.
  intros _ _.
  split; [apply headerValue_exact|]. split.
  - intros k v Hk Hlow Huniq. unfold Auth.headerValue.
    destruct (headers !! key) as [v0|] eqn:E.
    + rewrite (Huniq key v0 E eq_refl) in E. congruence.
    + destruct (List.find _ (map_to_list headers)) as [[k' v']|] eqn:F.
      * apply find_some in F. destruct F as [Hin Hp].
        apply list_elem_of_In, elem_of_map_to_list in Hin.
        change (String.eqb (ToLower k') (ToLower key) = true) in Hp.
        apply String.eqb_eq in Hp.
        rewrite (Huniq k' v' Hin Hp) in Hin. cbn. congruence.
      * exfalso. eapply find_none in F;
          [|apply list_elem_of_In, elem_of_map_to_list; exact Hk].
        change (String.eqb (ToLower k) (ToLower key) = false) in F.
        rewrite Hlow, String.eqb_refl in F. discriminate.
  - intros Hnone. unfold Auth.headerValue.
    destruct (headers !! key) as [v0|] eqn:E; [now apply Hnone in E|].
    destruct (List.find _ (map_to_list headers)) as [[k' v']|] eqn:F; [|reflexivity].
    apply find_some in F. destruct F as [Hin Hp].
    apply list_elem_of_In, elem_of_map_to_list in Hin.
    change (String.eqb (ToLower k') (ToLower key) = true) in Hp.
    apply String.eqb_eq in Hp. now apply Hnone in Hin.
Qed.

Lemma header_lookup_ignores_case_witness :
  Scenario.signed !! "x-jit-keyid" = None
  /\ Auth.headerValue Scenario.signed "x-jit-keyid" = "key-new".
Proof.
  assert (isASCII "x-jit-keyid" = true) as N1 by reflexivity.
  assert (forall k v, Scenario.signed !! k = Some v -> isASCII k = true) as N2.
  { intros k v Hkv. unfold Scenario.signed, Auth.SignPayload in Hkv.
    apply lookup_insert_Some in Hkv as [[<- _] | [_ Hkv]]; [reflexivity|].
    apply lookup_insert_Some in Hkv as [[<- _] | [_ Hkv]]; [reflexivity|].
    apply lookup_insert_Some in Hkv as [[<- _] | [_ Hkv]]; [reflexivity|].
    apply lookup_insert_Some in Hkv as [[<- _] | [_ Hkv]]; [reflexivity|].
    rewrite lookup_empty in Hkv. discriminate Hkv. }
  assert (Scenario.signed !! Auth.HeaderKeyID = Some "key-new") as N3
    by (vm_compute; reflexivity).
  assert (forall k' v', Scenario.signed !! k' = Some v' ->
            ToLower k' = ToLower "x-jit-keyid" -> k' = Auth.HeaderKeyID) as N4.
  { intros k v Hkv Hlow. unfold Scenario.signed, Auth.SignPayload in Hkv.
    apply lookup_insert_Some in Hkv as [[<- _] | [_ Hkv]]; [reflexivity|].
    apply lookup_insert_Some in Hkv as [[<- _] | [_ Hkv]]; [discriminate Hlow|].
    apply lookup_insert_Some in Hkv as [[<- _] | [_ Hkv]]; [discriminate Hlow|].
    apply lookup_insert_Some in Hkv as [[<- _] | [_ Hkv]]; [discriminate Hlow|].
    rewrite lookup_empty in Hkv. discriminate Hkv. }
  split; [vm_compute; reflexivity|].
  destruct (header_lookup_ignores_case Scenario.signed "x-jit-keyid" N1 N2)
    as (_ & Hfold & _).
  exact (Hfold Auth.HeaderKeyID "key-new" N3 eq_refl N4).
Defined.

(** X20: a request that carries all four headers and whose timestamp lies
    more than five minutes before or after the validator's clock (both
    within the range of 64-bit nanoseconds) is refused with the skew
    error, and the nonce store is left as it was. *)
Theorem stale_timestamp_is_refused (keys : gmap string string) (now ts : Z)
    (store : nonce_table) (method path : string) (headers : gmap string string)
    (body : string) :
  let keyID := Auth.headerValue headers Auth.HeaderKeyID in
  let timestamp := Auth.headerValue headers Auth.HeaderTimestamp in
  let nonce := Auth.headerValue headers Auth.HeaderNonce in
  let signature := Auth.headerValue headers Auth.HeaderSignature in
  keyID <> "" -> timestamp <> "" -> nonce <> "" -> signature <> "" ->
  ParseInt timestamp = Some ts ->
  0 <= now <= max_int64 -> 0 <= ts * Second <= max_int64 ->
  Auth.maxTimestampSkew < Z.abs (now - ts * Second) ->
  Auth.ValidateRequest keys now store method path headers body
  = (store, Some (Auth.ErrTimestampSkew (Z.abs (now - ts * Second)))).
Proof.
  intros keyID timestamp nonce signature Hk Ht Hn Hs Hp Hnow Hts Hstale.
  validate_unfold. fold keyID timestamp nonce signature.
  apply empty_false in Hk, Ht, Hn, Hs. rewrite Hk, Ht, Hn, Hs, Hp. cbn [orb].
  rewrite (skew_fresh now ts Hnow Hts).
  destruct (Z.ltb_spec Auth.maxTimestampSkew (Z.abs (now - ts * Second))); [reflexivity|lia].
Qed.

Lemma stale_timestamp_is_refused_witness :
  Auth.ValidateRequest Scenario.keys 1700000400000000000 Scenario.no_nonces
    "POST" "/requests" Scenario.signed Scenario.body
  = (Scenario.no_nonces, Some (Auth.ErrTimestampSkew 400000000000)).
Proof.
  assert (Auth.headerValue Scenario.signed Auth.HeaderKeyID <> "") as N1
    by (vm_compute; discriminate).
  assert (Auth.headerValue Scenario.signed Auth.HeaderTimestamp <> "") as N2
    by (vm_compute; discriminate).
  assert (Auth.headerValue Scenario.signed Auth.HeaderNonce <> "") as N3
    by (vm_compute; discriminate).
  assert (Auth.headerValue Scenario.signed Auth.HeaderSignature <> "") as N4
    by (vm_compute; discriminate).
  assert (ParseInt (Auth.headerValue Scenario.signed Auth.HeaderTimestamp)
          = Some 1700000000) as N5 by (vm_compute; reflexivity).
  assert (0 <= 1700000400000000000 <= max_int64) as N6 by (vm_compute; split; discriminate).
  assert (0 <= 1700000000 * Second <= max_int64) as N7
    by (vm_compute; split; discriminate).
  assert (Auth.maxTimestampSkew < Z.abs (1700000400000000000 - 1700000000 * Second))
    as N8 by reflexivity.
  exact (stale_timestamp_is_refused Scenario.keys 1700000400000000000 1700000000
           Scenario.no_nonces "POST" "/requests" Scenario.signed Scenario.body
           N1 N2 N3 N4 N5 N6 N7 N8).
Defined.

Lemma skew_far_future (now ts : Z) :
  0 <= now <= max_int64 ->
  0 <= ts <= max_int64 - unixToInternal ->
  2 ^ 63 <= ts * Second - now ->
  observed_skew now ts = min_int64.
Proof.
  intros Hnow Hts Hfar. unfold observed_skew, Since, Unix.
  rewrite wrap64_small
    by (unfold unixToInternal, min_int64, max_int64 in *; lia).
  replace (ts + unixToInternal - unixToInternal) with ts by lia.
  assert (Hsat : sat64 (now - ts * Second) = min_int64).
  { unfold sat64, min_int64, max_int64 in *. lia. }
  rewrite Hsat. cbv zeta. reflexivity.
Qed.

(** X21: a correctly signed request whose timestamp lies 2^63 nanoseconds
    (about 292 years) or more after the validator's clock passes the
    freshness check and is accepted: the saturated difference is the least
    64-bit integer, whose negation wraps to itself and is below the five-
    minute bound. *)
Theorem far_future_timestamp_is_accepted (keys : gmap string string) (now t_sign : Z)
    (nonce keyID k0 secret method path body : string) (store : nonce_table) :
  keys !! k0 = Some secret ->
  keyID <> "" -> nonce <> "" ->
  0 <= now <= max_int64 ->
  0 <= UnixSeconds t_sign <= max_int64 - unixToInternal ->
  2 ^ 63 <= UnixSeconds t_sign * Second - now ->
  store !! (keyID, nonce) = None ->
  Auth.maxTimestampSkew < Z.abs (now - UnixSeconds t_sign * Second)
  /\ Auth.ValidateRequest keys now store method path
       (Auth.SignPayload t_sign nonce keyID secret method path body) body
     = (<[(keyID, nonce) := nonce_entry now keyID nonce]> store, None).
Proof.
  intros Hkey Hk Hn Hnow Hts Hfar Hnone.
  split; [unfold Auth.maxTimestampSkew, Minute, Second in *; lia|].
  destruct (SignPayload_lookup t_sign nonce keyID secret method path body)
    as (H1 & H2 & H3 & H4).
  pose proof (skew_far_future now (UnixSeconds t_sign) Hnow Hts Hfar) as Hskew.
  unfold observed_skew in Hskew.
  validate_unfold.
  rewrite (headerValue_exact _ _ _ H1), (headerValue_exact _ _ _ H2),
    (headerValue_exact _ _ _ H3), (headerValue_exact _ _ _ H4).
  rewrite (proj2 (empty_false _) Hk), (proj2 (empty_false _) Hn),
    (proj2 (empty_false _) (FormatInt_nonempty _)),
    (proj2 (empty_false _) (computeHMAC_nonempty _ _)).
  cbn [orb].
  rewrite ParseInt_FormatInt by (unfold unixToInternal, max_int64 in *; lia).
  rewrite Hskew.
  change (Auth.maxTimestampSkew <? min_int64) with false. cbv iota.
  rewrite Hnone.
  rewrite (match_any_complete (map_to_list keys) k0 secret)
    by (now apply elem_of_map_to_list).
  destruct (Auth.match_key_id _ _ _ _); reflexivity.
Qed.

Lemma far_future_timestamp_is_accepted_witness :
  Auth.maxTimestampSkew
  < Z.abs (Scenario.now1 - UnixSeconds (11000000000 * Second) * Second)
  /\ Auth.ValidateRequest Scenario.keys Scenario.now1 Scenario.no_nonces
       "POST" "/requests"
       (Auth.SignPayload (11000000000 * Second) "nonce-1" "key-new"
          Scenario.oldSecret "POST" "/requests" Scenario.body) Scenario.body
     = (<[("key-new", "nonce-1") := nonce_entry Scenario.now1 "key-new" "nonce-1"]>
          Scenario.no_nonces, None).
Proof.
  assert (Scenario.keys !! "key-old" = Some Scenario.oldSecret) as N1
    by (vm_compute; reflexivity).
  assert ("key-new" <> "") as N2 by discriminate.
  assert ("nonce-1" <> "") as N3 by discriminate.
  assert (0 <= Scenario.now1 <= max_int64) as N4 by (vm_compute; split; discriminate).
  assert (0 <= UnixSeconds (11000000000 * Second) <= max_int64 - unixToInternal) as N5
    by (vm_compute; split; discriminate).
  assert (2 ^ 63 <= UnixSeconds (11000000000 * Second) * Second - Scenario.now1) as N6
    by (vm_compute; discriminate).
  assert (Scenario.no_nonces !! ("key-new", "nonce-1") = None) as N7
    by (vm_compute; reflexivity).
  exact (far_future_timestamp_is_accepted Scenario.keys Scenario.now1
           (11000000000 * Second) "nonce-1" "key-new" "key-old" Scenario.oldSecret
           "POST" "/requests" Scenario.body Scenario.no_nonces
           N1 N2 N3 N4 N5 N6 N7).
Defined.

(* ===================================================================== *)
(** * The router *)
(* ===================================================================== *)

Lemma app_cons (c : ascii) (a b : string) : String c a +:+ b = String c (a +:+ b).
Proof. reflexivity. Qed.

Lemma app_empty (b : string) : "" +:+ b = b.
Proof. reflexivity. Qed.

Lemma length_app_string (a b : string) :
  String.length (a +:+ b) = (String.length a + String.length b)%nat.
Proof.
  induction a as [|c a IH]; [reflexivity|]. rewrite app_cons. cbn. now rewrite IH.
Qed.

Lemma substring_whole (s : string) : String.substring 0 (String.length s) s = s.
Proof. induction s as [|c s IH]; cbn; [reflexivity | now rewrite IH]. Qed.

Lemma substring_skip (a b : string) (m : nat) :
  String.substring (String.length a) m (a +:+ b) = String.substring 0 m b.
Proof. induction a as [|c a IH]; [reflexivity|]. rewrite app_cons. exact IH. Qed.

Lemma substring_head (a b : string) :
  String.substring 0 (String.length a) (a +:+ b) = a.
Proof.
  induction a as [|c a IH]; [rewrite app_empty; now destruct b|].
  rewrite app_cons. cbn. now rewrite IH.
Qed.

Lemma substring_middle (a m b : string) :
  String.substring (String.length a) (String.length m) (a +:+ m +:+ b) = m.
Proof. rewrite substring_skip. apply substring_head. Qed.

Lemma HasPrefix_app (p s : string) : HasPrefix (p +:+ s) p = true.
Proof.
  unfold HasPrefix. induction p as [|c p IH]; [rewrite app_empty; now destruct s|].
  rewrite app_cons. cbn. destruct (ascii_dec c c); [exact IH | contradiction].
Qed.

Lemma HasPrefix_inv (s p : string) :
  HasPrefix s p = true -> exists rest, s = p +:+ rest.
Proof.
  unfold HasPrefix. revert s. induction p as [|c p IH]; intros s H.
  - exists s. reflexivity.
  - destruct s as [|d s]; [discriminate|]. cbn in H.
    destruct (ascii_dec c d) as [->|]; [|discriminate].
    destruct (IH s H) as [rest ->]. exists rest. reflexivity.
Qed.

Lemma HasSuffix_app (a suffix : string) : HasSuffix (a +:+ suffix) suffix = true.
Proof.
  unfold HasSuffix. rewrite length_app_string.
  replace (String.length a + String.length suffix - String.length suffix)%nat
    with (String.length a) by lia.
  rewrite substring_skip, substring_whole, String.eqb_refl.
  rewrite andb_true_r. apply Nat.leb_le. lia.
Qed.

Lemma string_split (s : string) (n : nat) :
  (n <= String.length s)%nat ->
  s = String.substring 0 n s +:+ String.substring n (String.length s - n) s.
Proof.
  revert s. induction n as [|n IH]; intros s Hn.
  - cbn. rewrite Nat.sub_0_r.
    destruct s; cbn; [reflexivity|]. now rewrite substring_whole.
  - destruct s as [|c s]; [cbn in Hn; lia|]. cbn in Hn. cbn.
    rewrite app_cons. f_equal. apply IH. lia.
Qed.

Lemma HasSuffix_inv (s suffix : string) :
  HasSuffix s suffix = true -> exists a, s = a +:+ suffix.
Proof.
  unfold HasSuffix. intro H. apply andb_true_iff in H. destruct H as [Hlen Heq].
  apply Nat.leb_le in Hlen. apply String.eqb_eq in Heq.
  exists (String.substring 0 (String.length s - String.length suffix) s).
  rewrite (string_split s (String.length s - String.length suffix)) at 1 by lia.
  f_equal. rewrite <- Heq at 3. f_equal. lia.
Qed.

Lemma app_string_assoc (a b c : string) : (a +:+ b) +:+ c = a +:+ (b +:+ c).
Proof.
  induction a as [|x a IH]; [reflexivity|]. rewrite !app_cons. now rewrite IH.
Qed.

(** A path made of prefix, a non-empty id and suffix matches, and the id
    comes back. *)
Lemma matchPath_made (prefix id suffix : string) :
  id <> "" ->
  Router.matchPath (prefix +:+ id +:+ suffix) prefix suffix = Some true
  /\ Router.extractPathParam (prefix +:+ id +:+ suffix) prefix suffix = Some id.
Proof.
  intro Hid.
  assert (Hslice : slice (prefix +:+ id +:+ suffix) (Z.of_nat (String.length prefix))
                     (Z.of_nat (String.length (prefix +:+ id +:+ suffix))
                      - Z.of_nat (String.length suffix)) = Some id).
  { unfold slice. rewrite !length_app_string.
    replace (_ && _ && _) with true.
    2:{ symmetry. rewrite !andb_true_iff, !Z.leb_le. lia. }
    rewrite Nat2Z.id.
    replace (Z.to_nat _) with (String.length id) by lia.
    now rewrite substring_middle. }
  unfold Router.matchPath, Router.extractPathParam.
  rewrite HasPrefix_app.
  rewrite <- app_string_assoc, HasSuffix_app, app_string_assoc. cbn [negb].
  rewrite Hslice. split; [|reflexivity].
  destruct id; [contradiction | reflexivity].
Qed.

Lemma suffix_chain (t suffix : string) :
  forall a b, a +:+ t = b +:+ suffix ->
    (String.length t <= String.length suffix)%nat ->
    exists c, suffix = c +:+ t.
Proof.
  induction a as [|x a IH]; intros b Heq Hlen.
  - rewrite app_empty in Heq.
    assert (Hb : String.length b = 0%nat).
    { apply (f_equal String.length) in Heq. rewrite length_app_string in Heq. lia. }
    destruct b; [|discriminate]. rewrite app_empty in Heq. exists "". now rewrite app_empty.
  - destruct b as [|y b].
    + rewrite app_empty in Heq. exists (String x a). now rewrite Heq.
    + rewrite !app_cons in Heq. injection Heq as _ Heq. eauto.
Qed.

Lemma HasSuffix_other (x t suffix : string) :
  HasSuffix suffix t = false -> HasSuffix t suffix = false ->
  HasSuffix (x +:+ t) suffix = false.
Proof.
  intros Hno Hno'. destruct (HasSuffix (x +:+ t) suffix) eqn:E; [|reflexivity].
  apply HasSuffix_inv in E. destruct E as [b Hb].
  destruct (Nat.le_ge_cases (String.length t) (String.length suffix)) as [Hlen|Hlen].
  - destruct (suffix_chain t suffix x b Hb Hlen) as [c ->].
    now rewrite HasSuffix_app in Hno.
  - destruct (suffix_chain suffix t b x (eq_sym Hb) Hlen) as [c ->].
    now rewrite HasSuffix_app in Hno'.
Qed.

Lemma dispatch_post_id (id suffix : string) (found : string -> Router.endpoint)
    (otherwise : option Router.endpoint) :
  id <> "" ->
  Router.with_id "POST" "POST" ("/requests/" +:+ id +:+ suffix) "/requests/" suffix
    found otherwise = Some (found id).
Proof.
  intro Hid. unfold Router.with_id. cbn [String.eqb Ascii.eqb Bool.eqb negb andb].
  destruct (matchPath_made "/requests/" id suffix Hid) as [-> ->]. reflexivity.
Qed.

Lemma dispatch_post_other (x t suffix : string) (found : string -> Router.endpoint)
    (otherwise : option Router.endpoint) :
  HasSuffix suffix t = false -> HasSuffix t suffix = false ->
  Router.with_id "POST" "POST" (x +:+ t) "/requests/" suffix found otherwise = otherwise.
Proof.
  intros Hno Hno'. unfold Router.with_id, Router.matchPath.
  cbn [String.eqb Ascii.eqb Bool.eqb negb andb].
  rewrite (HasSuffix_other x t suffix Hno Hno').
  destruct (HasPrefix (x +:+ t) "/requests/"); reflexivity.
Qed.

Lemma longer_path (rest : string) :
  String.eqb ("/requests/" +:+ rest) "/requests" = false.
Proof. reflexivity. Qed.

(** X22: POST /requests/{id}/approve, /deny and /revoke with a non-empty
    id dispatch to the approve, deny and revoke handlers with exactly that
    id, and GET /requests/{id} with an id without a slash dispatches to
    the get handler with that id. *)
Theorem request_routes_carry_their_id (id : string) :
  id <> "" ->
  Router.dispatch "POST" ("/requests/" +:+ id +:+ "/approve")
  = Some (Router.ApproveRequest id)
  /\ Router.dispatch "POST" ("/requests/" +:+ id +:+ "/deny")
     = Some (Router.DenyRequest id)
  /\ Router.dispatch "POST" ("/requests/" +:+ id +:+ "/revoke")
     = Some (Router.RevokeRequest id)
  /\ (Contains id "/" = false ->
      Router.dispatch "GET" ("/requests/" +:+ id) = Some (Router.GetRequest id)).
Proof.
  intro Hid. unfold Router.dispatch. cbv zeta.
  rewrite !longer_path. cbn [andb].
  split; [|split; [|split]].
  - now apply dispatch_post_id.
  - rewrite <- app_string_assoc.
    rewrite (dispatch_post_other _ "/deny" "/approve") by (vm_compute; reflexivity).
    rewrite app_string_assoc. now apply dispatch_post_id.
  - rewrite <- app_string_assoc.
    rewrite (dispatch_post_other _ "/revoke" "/approve") by (vm_compute; reflexivity).
    rewrite (dispatch_post_other _ "/revoke" "/deny") by (vm_compute; reflexivity).
    rewrite app_string_assoc. now apply dispatch_post_id.
  - intro Hslash. unfold Router.with_id.
    cbn [String.eqb Ascii.eqb Bool.eqb negb andb].
    rewrite HasPrefix_app.
    assert (Hs : slice ("/requests/" +:+ id) (Z.of_nat (String.length "/requests/"))
                   (Z.of_nat (String.length ("/requests/" +:+ id))) = Some id).
    { unfold slice. rewrite length_app_string.
      replace (_ && _ && _) with true.
      2:{ symmetry. rewrite !andb_true_iff, !Z.leb_le. lia. }
      rewrite Nat2Z.id.
      replace (Z.to_nat _) with (String.length id) by lia.
      rewrite substring_skip. now rewrite substring_whole. }
    rewrite Hs, Hslash. reflexivity.
Qed.

Lemma request_routes_carry_their_id_witness :
  Router.dispatch "POST" ("/requests/" +:+ "req-1" +:+ "/approve")
  = Some (Router.ApproveRequest "req-1")
  /\ Router.dispatch "GET" ("/requests/" +:+ "req-1")
     = Some (Router.GetRequest "req-1").
Proof.
  assert ("req-1" <> "") as N1 by discriminate.
  destruct (request_routes_carry_their_id "req-1" N1) as (Ha & _ & _ & Hg).
  split; [exact Ha|]. apply Hg. reflexivity.
Defined.

Lemma suffixes_spec (s c rest : string) : c +:+ rest = s -> In rest (suffixes s).
Proof.
  revert s. induction c as [|x c IH]; intros s H.
  - rewrite app_empty in H. subst. destruct s; now left.
  - rewrite app_cons in H. subst s. cbn. right. now apply IH.
Qed.

Lemma matchPath_panic (path suffix : string) :
  Router.matchPath path "/requests/" suffix = None ->
  exists rest,
    path = "/requests/" +:+ rest
    /\ In rest (suffixes suffix)
    /\ (String.length rest < String.length suffix)%nat
    /\ HasSuffix ("/requests/" +:+ rest) suffix = true.
Proof.
  unfold Router.matchPath.
  destruct (HasPrefix path "/requests/") eqn:Hp; [|discriminate].
  destruct (HasSuffix path suffix) eqn:Hs; [|discriminate]. cbn [negb].
  unfold slice.
  destruct (_ && _ && _) eqn:Hb; [discriminate|]. intros _.
  apply HasPrefix_inv in Hp. destruct Hp as [rest ->].
  exists rest. split; [reflexivity|].
  rewrite length_app_string in Hb.
  assert (Hlen : (String.length rest < String.length suffix)%nat).
  { destruct (Nat.lt_ge_cases (String.length rest) (String.length suffix)) as [H|H];
      [exact H|].
    exfalso. rewrite <- not_true_iff_false in Hb. apply Hb.
    rewrite !andb_true_iff, !Z.leb_le. cbn [String.length]. lia. }
  split; [|split; [exact Hlen | exact Hs]].
  pose proof Hs as Hs'. apply HasSuffix_inv in Hs'. destruct Hs' as [b Hb'].
  destruct (suffix_chain rest suffix "/requests/" b Hb' ltac:(lia)) as [c Hc].
  eapply suffixes_spec. symmetry. exact Hc.
Qed.

Lemma matchPath_panic_verbs (path : string) :
  (Router.matchPath path "/requests/" "/approve" = None -> path = "/requests/approve")
  /\ (Router.matchPath path "/requests/" "/deny" = None -> path = "/requests/deny")
  /\ (Router.matchPath path "/requests/" "/revoke" = None -> path = "/requests/revoke").
Proof.
  repeat split; intro H; apply matchPath_panic in H;
    destruct H as (rest & -> & Hin & Hlen & Hs); cbn in Hin;
    repeat (destruct Hin as [<-|Hin]; [try (vm_compute in Hs; discriminate);
                                       try (vm_compute in Hlen; lia); try reflexivity|]);
    destruct Hin.
Qed.

Lemma extract_of_match (path prefix suffix : string) :
  Router.matchPath path prefix suffix = Some true ->
  exists id, Router.extractPathParam path prefix suffix = Some id.
Proof.
  unfold Router.matchPath, Router.extractPathParam.
  destruct (negb _); [discriminate|]. destruct (negb _); [discriminate|].
  destruct (slice _ _ _) as [m|]; [eauto | discriminate].
Qed.

Lemma slice_tail (path : string) :
  HasPrefix path "/requests/" = true ->
  exists rest,
    slice path (Z.of_nat (String.length "/requests/")) (Z.of_nat (String.length path))
    = Some rest.
Proof.
  intro Hp. apply HasPrefix_inv in Hp. destruct Hp as [rest ->].
  unfold slice. rewrite length_app_string.
  replace (_ && _ && _) with true; [eauto|].
  symmetry. rewrite !andb_true_iff, !Z.leb_le. lia.
Qed.

(** X23: the route dispatch panics on a slice out of range exactly for
    POST on the paths /requests/approve, /requests/deny and
    /requests/revoke, where prefix and suffix overlap; every other method
    and path reaches a handler or the not-found answer. *)
Theorem dispatch_panics_on_bare_verbs (method path : string) :
  Router.dispatch method path = None
  <-> method = "POST"
      /\ (path = "/requests/approve" \/ path = "/requests/deny"
          \/ path = "/requests/revoke").
Proof.
  split.
  - destruct (matchPath_panic_verbs path) as (Ha & Hd & Hr).
    assert (Hrest :
      (if String.eqb method "GET" && String.eqb path "/requests"
       then Some Router.ListRequests
       else if String.eqb method "GET" && HasPrefix path "/requests/"
       then
         match slice path (Z.of_nat (String.length "/requests/"))
                 (Z.of_nat (String.length path)) with
         | None => None
         | Some rest =>
             if negb (Contains rest "/") then Some (Router.GetRequest rest)
             else
               if String.eqb method "POST" && String.eqb path "/config/bind"
               then Some Router.BindAccount
               else if String.eqb method "POST" && String.eqb path "/config/approvers"
               then Some Router.SetApprovers
               else if String.eqb method "GET" && String.eqb path "/config/accounts"
               then Some Router.GetBoundAccounts
               else Some Router.NotFound
         end
       else
         if String.eqb method "POST" && String.eqb path "/config/bind"
         then Some Router.BindAccount
         else if String.eqb method "POST" && String.eqb path "/config/approvers"
         then Some Router.SetApprovers
         else if String.eqb method "GET" && String.eqb path "/config/accounts"
         then Some Router.GetBoundAccounts
         else Some Router.NotFound) <> None).
    { destruct (String.eqb method "GET" && String.eqb path "/requests"); [discriminate|].
      destruct (String.eqb method "GET"); cbn [andb].
      - destruct (HasPrefix path "/requests/") eqn:Hp.
        + destruct (slice_tail path Hp) as [rest ->].
          destruct (negb _); [discriminate|].
          repeat match goal with |- context [if ?b then _ else _] => destruct b end;
            discriminate.
        + repeat match goal with |- context [if ?b then _ else _] => destruct b end;
            discriminate.
      - repeat match goal with |- context [if ?b then _ else _] => destruct b end;
          discriminate. }
    unfold Router.dispatch. cbv zeta.
    destruct (String.eqb method "POST" && String.eqb path "/requests"); [discriminate|].
    unfold Router.with_id.
    destruct (String.eqb method "POST") eqn:Hm; cbn [negb];
      [|intro H; now apply Hrest in H].
    apply String.eqb_eq in Hm.
    destruct (Router.matchPath path "/requests/" "/approve") as [[|]|] eqn:M1.
    + destruct (extract_of_match _ _ _ M1) as [id ->]. discriminate.
    + destruct (Router.matchPath path "/requests/" "/deny") as [[|]|] eqn:M2.
      * destruct (extract_of_match _ _ _ M2) as [id ->]. discriminate.
      * destruct (Router.matchPath path "/requests/" "/revoke") as [[|]|] eqn:M3.
        -- destruct (extract_of_match _ _ _ M3) as [id ->]. discriminate.
        -- intro H. now apply Hrest in H.
        -- auto.
      * auto.
    + auto.
  - intros [-> [-> | [-> | ->]]]; vm_compute; reflexivity.
Qed.

(* ===================================================================== *)
(** * Pagination tokens *)
(* ===================================================================== *)

Lemma app_empty_r (s : string) : s +:+ "" = s.
Proof. induction s as [|c s IH]; [reflexivity|]. rewrite app_cons. now rewrite IH. Qed.

Lemma splitToken_loop_spec (s : string) :
  forall rest pre current parts,
    s = pre +:+ current +:+ rest ->
    Dynamo.splitToken_loop s rest (String.length pre + String.length current)
      (String.length pre) parts
    = parts ++ split_from rest current.
Proof.
  induction rest as [|c rest IH]; intros pre current parts Hs.
  - cbn. f_equal. f_equal. subst s. rewrite app_empty_r, length_app_string.
    replace (String.length pre + String.length current - String.length pre)%nat
      with (String.length current) by lia.
    rewrite substring_skip. apply substring_whole.
  - cbn [Dynamo.splitToken_loop split_from].
    destruct (Ascii.eqb c "|") eqn:Hc.
    + replace (String.length pre + String.length current - String.length pre)%nat
        with (String.length current) by lia.
      assert (Hsub : String.substring (String.length pre) (String.length current) s
                     = current) by (subst s; apply substring_middle).
      rewrite Hsub.
      specialize (IH (pre +:+ current +:+ String c "") "" (parts ++ [current])).
      assert (Hl : String.length (pre +:+ current +:+ String c "")
                   = S (String.length pre + String.length current)).
      { rewrite !length_app_string. cbn. lia. }
      rewrite Hl in IH. cbn [String.length] in IH. rewrite Nat.add_0_r in IH.
      rewrite IH; [now rewrite <- List.app_assoc|].
      subst s. rewrite app_empty. rewrite !app_string_assoc. reflexivity.
    + specialize (IH pre (current +:+ String c "") parts).
      assert (Hl : (String.length pre + String.length (current +:+ String c ""))%nat
                   = S (String.length pre + String.length current)).
      { rewrite !length_app_string. cbn. lia. }
      rewrite Hl in IH.
      apply IH. subst s. rewrite !app_string_assoc. reflexivity.
Qed.

Lemma splitToken_spec (s : string) : Dynamo.splitToken s = split_from s "".
Proof.
  unfold Dynamo.splitToken.
  exact (splitToken_loop_spec s s "" "" [] eq_refl).
Qed.

Lemma split_from_plain (x : string) :
  has_byte "|" x = false ->
  forall rest current,
    split_from (x +:+ rest) current = split_from rest (current +:+ x).
Proof.
  induction x as [|c x IH]; intros Hx rest current.
  - now rewrite app_empty, app_empty_r.
  - cbn in Hx. apply orb_false_iff in Hx. destruct Hx as [Hc Hx].
    rewrite app_cons. cbn [split_from]. rewrite Hc, (IH Hx).
    now rewrite app_string_assoc.
Qed.

Lemma Join_pairs (p : string * string) (pairs : list (string * string)) :
  Join (map token_pair (p :: pairs)) "|" = token_pair p +:+ token_tail pairs.
Proof.
  revert p. induction pairs as [|q pairs IH]; intro p.
  - cbn. now rewrite app_empty_r.
  - change (Join (map token_pair (p :: q :: pairs)) "|")
      with (token_pair p +:+ "|" +:+ Join (map token_pair (q :: pairs)) "|").
    rewrite IH. reflexivity.
Qed.

Lemma has_byte_app (c : ascii) (a b : string) :
  has_byte c (a +:+ b) = has_byte c a || has_byte c b.
Proof.
  induction a as [|x a IH]; [reflexivity|]. rewrite app_cons. cbn.
  now rewrite IH, orb_assoc.
Qed.

Lemma token_pair_plain (p : string * string) :
  plain_pair p -> has_byte "|" (token_pair p) = false.
Proof.
  intros (H1 & _ & H2). unfold token_pair. rewrite !has_byte_app, H1, H2. reflexivity.
Qed.

Lemma split_tail (pairs : list (string * string)) :
  Forall plain_pair pairs ->
  forall current,
    split_from (token_tail pairs) current = current :: map token_pair pairs.
Proof.
  induction pairs as [|p pairs IH]; intros Hall current; [reflexivity|].
  apply Forall_cons in Hall. destruct Hall as [Hp Hall].
  cbn [token_tail fold_right map]. fold (token_tail pairs).
  change ("|" +:+ token_pair p +:+ token_tail pairs)
    with (String "|" (token_pair p +:+ token_tail pairs)).
  cbn [split_from]. change (Ascii.eqb "|" "|") with true. cbv iota.
  rewrite (split_from_plain _ (token_pair_plain p Hp)), app_empty.
  now rewrite (IH Hall).
Qed.

Lemma split_token (p : string * string) (pairs : list (string * string)) :
  Forall plain_pair (p :: pairs) ->
  Dynamo.splitToken (Join (map token_pair (p :: pairs)) "|")
  = map token_pair (p :: pairs).
Proof.
  intro Hall. apply Forall_cons in Hall. destruct Hall as [Hp Hall].
  rewrite splitToken_spec, Join_pairs.
  rewrite (split_from_plain _ (token_pair_plain p Hp)), app_empty.
  now rewrite (split_tail pairs Hall).
Qed.

Lemma index_from_found (k v : string) (c : ascii) :
  has_byte c k = false ->
  forall i, index_from (k +:+ String c v) c i = Some (i + String.length k)%nat.
Proof.
  induction k as [|x k IH]; intros Hk i.
  - rewrite app_empty. cbn. rewrite Ascii.eqb_refl. f_equal. lia.
  - cbn in Hk. apply orb_false_iff in Hk. destruct Hk as [Hx Hk].
    rewrite app_cons. cbn [index_from]. rewrite Hx, (IH Hk). f_equal. cbn. lia.
Qed.

Lemma deserialize_pairs (pairs : list (string * string)) :
  Forall plain_pair pairs ->
  forall key,
    Dynamo.deserialize_parts (map token_pair pairs) key
    = Ok (fold_left (fun m p => <[p.1 := Dynamo.AttributeValueMemberS p.2]> m) pairs key).
Proof.
  induction pairs as [|[k v] pairs IH]; intros Hall key; [reflexivity|].
  apply Forall_cons in Hall. destruct Hall as [(_ & Hk & _) Hall]. cbn in Hk.
  cbn [map Dynamo.deserialize_parts fold_left].
  change (token_pair (k, v)) with (k +:+ String "=" v). cbn [fst snd].
  rewrite (index_from_found k v "=" Hk 0). cbn [Nat.add].
  rewrite substring_head.
  replace (String.substring (S (String.length k))
             (String.length (k +:+ String "=" v) - S (String.length k))
             (k +:+ String "=" v)) with v.
  - apply IH. exact Hall.
  - rewrite length_app_string. cbn [String.length].
    replace (String.length k + S (String.length v) - S (String.length k))%nat
      with (String.length v) by lia.
    change (k +:+ String "=" v) with (k +:+ ("=" +:+ v)).
    rewrite <- app_string_assoc.
    replace (S (String.length k)) with (String.length (k +:+ "="))
      by (rewrite length_app_string; cbn; lia).
    rewrite substring_skip. now rewrite substring_whole.
Qed.

Lemma token_pair_nonempty (p : string * string) : empty (token_pair p) = false.
Proof.
  unfold token_pair. destruct p as [k v]. cbn [fst snd].
  destruct k; reflexivity.
Qed.

Lemma app_nonempty (a b : string) : empty a = false -> empty (a +:+ b) = false.
Proof. destruct a; [discriminate | reflexivity]. Qed.

Lemma serialize_more (l : list (string * Dynamo.AttributeValue)) :
  forall token, empty token = false ->
    fold_left
      (fun token kv =>
         match kv.2 with
         | Dynamo.AttributeValueMemberS sv =>
             let token := if negb (empty token) then token +:+ "|" else token in
             token +:+ (kv.1 +:+ "=" +:+ sv)
         | _ => token
         end) l token
    = token +:+ token_tail (string_attributes l).
Proof.
  induction l as [|[k [s|n|b]] l IH]; intros token Ht; cbn [fold_left string_attributes];
    [now rewrite app_empty_r | | now apply IH..].
  cbn [fst snd]. rewrite Ht. cbn [negb].
  rewrite IH by (now apply app_nonempty, app_nonempty).
  cbn [token_tail fold_right]. fold (token_tail (string_attributes l)).
  unfold token_pair. cbn [fst snd]. now rewrite !app_string_assoc.
Qed.

Lemma serialize_spec (key : Dynamo.Key) :
  Dynamo.serializeStartKey (Some key)
  = Join (map token_pair (string_attributes (map_to_list key))) "|".
Proof.
  unfold Dynamo.serializeStartKey.
  induction (map_to_list key) as [|[k [s|n|b]] l IH]; cbn [fold_left string_attributes];
    [reflexivity | | exact IH..].
  cbn [fst snd]. change (empty "") with true. cbn [negb]. rewrite app_empty.
  rewrite Join_pairs.
  exact (serialize_more l (k +:+ "=" +:+ s) (token_pair_nonempty (k, s))).
Qed.

Lemma insert_pairs (pairs : list (string * string)) :
  forall key : Dynamo.Key,
    NoDup (map fst pairs) ->
    let out := fold_left (fun m p => <[p.1 := Dynamo.AttributeValueMemberS p.2]> m)
                 pairs key in
    (forall k s, In (k, s) pairs -> out !! k = Some (Dynamo.AttributeValueMemberS s))
    /\ (forall k, ~ In k (map fst pairs) -> out !! k = key !! k).
Proof.
  induction pairs as [|[k v] pairs IH]; intros key Hnd; cbv zeta.
  - split; [intros k s []|reflexivity].
  - cbn in Hnd. apply NoDup_cons in Hnd. destruct Hnd as [Hk Hnd].
    cbn [fold_left fst snd].
    destruct (IH (<[k := Dynamo.AttributeValueMemberS v]> key) Hnd) as [H1 H2].
    split.
    + intros k' s [[= <- <-]|Hin]; [|auto].
      rewrite H2 by (intro Hin; apply Hk, list_elem_of_In; exact Hin).
      apply lookup_insert_eq.
    + intros k' Hk'. rewrite H2 by (intro Hin; apply Hk'; now right).
      apply lookup_insert_ne. intro Heq. apply Hk'. now left.
Qed.

Lemma string_attributes_all (l : list (string * Dynamo.AttributeValue)) :
  (forall k v, In (k, v) l -> exists s, v = Dynamo.AttributeValueMemberS s) ->
  map fst (string_attributes l) = map fst l
  /\ forall k s, In (k, s) (string_attributes l)
                 <-> In (k, Dynamo.AttributeValueMemberS s) l.
Proof.
  induction l as [|[k v] l IH]; intro Hall; [split; [reflexivity | tauto]|].
  destruct (Hall k v (or_introl eq_refl)) as [s ->].
  destruct IH as [IH1 IH2]; [intros k' v' Hin; apply (Hall k' v'); now right|].
  cbn [string_attributes map fst]. split; [now rewrite IH1|].
  intros k' s'. cbn. rewrite IH2. split.
  - intros [[= <- <-]|H]; auto.
  - intros [[= <- <-]|H]; auto.
Qed.

(** X24: a pagination key whose attributes are all strings, with no
    vertical bar in names or values and no equals sign in names, is read
    back from its token unchanged; the token of the empty key reads back
    as no key. *)
Theorem start_key_round_trip (key : Dynamo.Key) :
  (forall k v, key !! k = Some v ->
     exists s, v = Dynamo.AttributeValueMemberS s
               /\ has_byte "|" k = false /\ has_byte "=" k = false
               /\ has_byte "|" s = false) ->
  Dynamo.deserializeStartKey (Dynamo.serializeStartKey (Some key))
  = Ok (if decide (key = ∅) then None else Some key).
Proof.
  intro Hplain. rewrite serialize_spec.
  assert (Hall : forall k v, In (k, v) (map_to_list key) ->
                   exists s, v = Dynamo.AttributeValueMemberS s).
  { intros k v Hin. apply list_elem_of_In, elem_of_map_to_list in Hin.
    destruct (Hplain k v Hin) as (s & -> & _). eauto. }
  destruct (string_attributes_all _ Hall) as [Hkeys Hmem].
  assert (Hpairs : Forall plain_pair (string_attributes (map_to_list key))).
  { apply List.Forall_forall. intros [k s] Hin. apply Hmem in Hin.
    apply list_elem_of_In, elem_of_map_to_list in Hin.
    destruct (Hplain k _ Hin) as (s' & [= <-] & H1 & H2 & H3). repeat split; assumption. }
  destruct (decide (key = ∅)) as [->|Hne].
  - rewrite map_to_list_empty. reflexivity.
  - destruct (string_attributes (map_to_list key)) as [|p pairs] eqn:Hs.
    + exfalso. apply Hne. apply map_to_list_empty_iff.
      destruct (map_to_list key); [reflexivity | discriminate].
    + unfold Dynamo.deserializeStartKey.
      rewrite Join_pairs, (app_nonempty _ _ (token_pair_nonempty p)), <- Join_pairs.
      rewrite (split_token p pairs Hpairs), (deserialize_pairs _ Hpairs).
      f_equal. f_equal. apply map_eq. intro k.
      pose proof (NoDup_fst_map_to_list key) as Hnd.
      rewrite fmap_is_map, <- Hkeys in Hnd.
      destruct (insert_pairs (p :: pairs) ∅ Hnd) as [H1 H2].
      destruct (key !! k) as [v|] eqn:E.
      * destruct (Hplain k v E) as (s & -> & _).
        apply H1. apply Hmem.
        apply list_elem_of_In, elem_of_map_to_list. exact E.
      * rewrite H2; [apply lookup_empty|].
        rewrite Hkeys. intro Hin. apply in_map_iff in Hin.
        destruct Hin as ([k' v] & Hk' & Hin). cbn in Hk'. subst k'.
        apply list_elem_of_In, elem_of_map_to_list in Hin. congruence.
Qed.

Lemma start_key_round_trip_witness :
  Dynamo.deserializeStartKey (Dynamo.serializeStartKey (Some Scenario.start_key))
  = Ok (Some Scenario.start_key).
Proof.
  assert (forall k v, Scenario.start_key !! k = Some v ->
            exists s, v = Dynamo.AttributeValueMemberS s
                      /\ has_byte "|" k = false /\ has_byte "=" k = false
                      /\ has_byte "|" s = false) as Hplain.
  { intros k v Hkv. unfold Scenario.start_key in Hkv.
    apply lookup_insert_Some in Hkv as [[<- <-] | [_ Hkv]];
      [eexists; repeat split; reflexivity|].
    apply lookup_insert_Some in Hkv as [[<- <-] | [_ Hkv]];
      [eexists; repeat split; reflexivity|].
    apply lookup_insert_Some in Hkv as [[<- <-] | [_ Hkv]];
      [eexists; repeat split; reflexivity|].
    rewrite lookup_empty in Hkv. discriminate Hkv. }
  rewrite (start_key_round_trip Scenario.start_key Hplain).
  destruct (decide (Scenario.start_key = ∅)) as [Hempty|]; [|reflexivity].
  exfalso. apply (f_equal (fun m => m !! "channel_id")) in Hempty.
  vm_compute in Hempty. discriminate Hempty.
Defined.

(* ===================================================================== *)
(** * Reporting queries *)
(* ===================================================================== *)



Lemma with_filters_frame (q : Dynamo.QueryInput)
    (f : string * gmap string string * gmap string string) :
  Dynamo.Limit (Dynamo.with_filters q f) = Dynamo.Limit q
  /\ Dynamo.ScanIndexForward (Dynamo.with_filters q f) = Dynamo.ScanIndexForward q
  /\ Dynamo.IndexName (Dynamo.with_filters q f) = Dynamo.IndexName q
  /\ Dynamo.ExclusiveStartKey (Dynamo.with_filters q f) = Dynamo.ExclusiveStartKey q.
Proof.
  unfold Dynamo.with_filters. destruct f as [[e n] v].
  destruct (negb (empty e)); repeat split.
Qed.

Lemma wrap32_small (x : Z) : - 2 ^ 31 <= x < 2 ^ 31 -> wrap32 x = x.
Proof.
  intro H. unfold wrap32. rewrite Z.mod_small; lia.
Qed.

Lemma query_for_bounded (i : ReportingInput) (q : Dynamo.QueryInput) :
  1 <= ri_Limit i <= 200 -> Dynamo.query_for i = Ok q ->
  bounded_query q /\ Dynamo.Limit q = ri_Limit i /\ Dynamo.ExclusiveStartKey q = None.
Proof.
  intros Hl. unfold Dynamo.query_for. cbv zeta.
  rewrite wrap32_small by lia.
  replace (ri_Limit i <=? 0) with false by lia.
  unfold bounded_query, reporting_indexes.
  repeat match goal with
         | |- context [if negb (empty ?s) then _ else _] => destruct (negb (empty s))
         end;
    try discriminate; intros [= <-];
    repeat match goal with
           | |- context [Dynamo.with_filters ?q ?f] =>
               let H := fresh in
               pose proof (with_filters_frame q f) as H;
               destruct H as (-> & -> & -> & ->)
           end;
    cbn; intuition lia.
Qed.

(** X26: the request listing clamps its limit to 50 when it is not
    positive and to 200 when it is larger, and its answer depends on the
    store only through queries that read at most 200 items of one of the
    four reporting indexes, newest first. *)
Theorem list_queries_are_bounded
    (Query Query' : Dynamo.QueryInput -> result Dynamo.QueryOutput)
    (i : ReportingInput) :
  let limit :=
    if ri_Limit i <=? 0 then 50 else if 200 <? ri_Limit i then 200 else ri_Limit i in
  1 <= limit <= 200
  /\ Handlers.HandleListRequests Query i
     = Handlers.HandleListRequests Query (with_limit limit i)
  /\ ((forall q, bounded_query q -> Query q = Query' q) ->
      Handlers.HandleListRequests Query i = Handlers.HandleListRequests Query' i).
Proof.
  cbv zeta.
  set (limit := if ri_Limit i <=? 0 then 50
                else if 200 <? ri_Limit i then 200 else ri_Limit i).
  assert (Hl : 1 <= limit <= 200).
  { subst limit. destruct (Z.leb_spec (ri_Limit i) 0); [lia|].
    destruct (Z.ltb_spec 200 (ri_Limit i)); lia. }
  assert (Hclamp : forall l, 1 <= l <= 200 ->
            (if 200 <? (if l <=? 0 then 50 else l) then 200
             else if l <=? 0 then 50 else l) = l).
  { intros l H. replace (l <=? 0) with false by lia.
    now replace (200 <? l) with false by lia. }
  assert (Hown : (if 200 <? (if ri_Limit i <=? 0 then 50 else ri_Limit i) then 200
                  else if ri_Limit i <=? 0 then 50 else ri_Limit i) = limit).
  { subst limit. destruct (Z.leb_spec (ri_Limit i) 0); [reflexivity|].
    reflexivity. }
  split; [exact Hl|]. split.
  - unfold Handlers.HandleListRequests.
    cbn [with_limit ri_ChannelID ri_AccountID ri_RequesterEmail ri_Status
         ri_StartDate ri_EndDate ri_NextToken ri_Limit].
    cbv zeta. rewrite Hown, (Hclamp limit Hl). reflexivity.
  - intro Hsame. unfold Handlers.HandleListRequests.
    destruct (_ && _ && _ && _); [reflexivity|]. cbv zeta. rewrite Hown.
    match goal with |- context [Dynamo.QueryRequests Query ?j] => set (input := j) end.
    assert (Hq : Dynamo.QueryRequests Query input = Dynamo.QueryRequests Query' input).
    { unfold Dynamo.QueryRequests.
      destruct (Dynamo.query_for input) as [q|err] eqn:Eq; [|reflexivity].
      destruct (query_for_bounded input q Hl Eq) as ((Hb1 & Hb2 & Hb3) & _ & _).
      destruct (negb (empty (ri_NextToken input))).
      - destruct (Dynamo.deserializeStartKey _) as [startKey|err]; [|reflexivity].
        rewrite Hsame; [reflexivity|]. unfold bounded_query. cbn. tauto.
      - rewrite Hsame; [reflexivity|]. unfold bounded_query. tauto. }
    rewrite Hq. reflexivity.
Qed.

(* ===================================================================== *)
(** * The audit trail *)
(* ===================================================================== *)

Lemma status_table (w w' : World) (id : string) :
  tableRequests w' = tableRequests w -> status_of w' id = status_of w id.
Proof. unfold status_of. intro H. now rewrite (GetRequest_table _ _ _ H). Qed.

Lemma audit_step_idle (env : Env) (w : World) (op : operation) (w' : World) :
  tableRequests w' = tableRequests w -> tableAudit w' = tableAudit w ->
  audit_step env w op w'.
Proof.
  intros Hr Ha. exists []. split; [now rewrite app_nil_r|].
  intros id Hne. exfalso. apply Hne. now apply status_table.
Qed.

Lemma ConditionalUpdateStatus_other (w : World) (requestID : string)
    (expected : RequestStatus) (updates : list Dynamo.update) (id : string) :
  id <> requestID ->
  status_of (Dynamo.ConditionalUpdateStatus w requestID expected updates).2 id
  = status_of w id.
Proof.
  intro Hne. unfold status_of, Dynamo.ConditionalUpdateStatus.
  destruct (Dynamo.GetRequest w requestID) as [r|]; [|reflexivity].
  destruct (status_eqb _ _); [|reflexivity]. cbn [snd].
  unfold Dynamo.GetRequest, set_requests. cbn [tableRequests].
  now rewrite lookup_insert_ne by congruence.
Qed.

Lemma ConditionalUpdateStatus_audit (w : World) (requestID : string)
    (expected : RequestStatus) (updates : list Dynamo.update) :
  tableAudit (Dynamo.ConditionalUpdateStatus w requestID expected updates).2
  = tableAudit w.
Proof.
  unfold Dynamo.ConditionalUpdateStatus.
  destruct (Dynamo.GetRequest w requestID) as [r|]; [|reflexivity].
  destruct (status_eqb _ _); reflexivity.
Qed.

(** An update of one row followed by an audit event for that row. *)
Lemma audit_step_update (env : Env) (w : World) (op : operation) (w' : World)
    (requestID : string) (expected : RequestStatus) (updates : list Dynamo.update)
    (ev : AuditEvent) :
  let w1 := (Dynamo.ConditionalUpdateStatus w requestID expected updates).2 in
  tableRequests w' = tableRequests w1 ->
  tableAudit w' = tableAudit w1 ++ [ev] ->
  ev_RequestID ev = requestID ->
  audit_step env w op w'.
Proof.
  cbv zeta. intros Hr Ha Hev. exists [ev].
  rewrite ConditionalUpdateStatus_audit in Ha. split; [exact Ha|].
  intros id Hne. left. exists ev. split; [now left|].
  destruct (decide (id = requestID)) as [->|Hid]; [exact Hev|].
  exfalso. apply Hne. rewrite (status_table _ _ _ Hr).
  now apply ConditionalUpdateStatus_other.
Qed.

Ltac audit_update Hc :=
  apply (f_equal snd) in Hc; cbn [snd] in Hc; rewrite <- Hc;
  eapply audit_step_update; reflexivity.

Lemma approve_audit (env : Env) (w : World) (input : ApproveRequestInput) :
  audit_step env w (OpApproveRequest input)
    (Handlers.HandleApproveRequest env w input).2.
Proof.
  unfold Handlers.HandleApproveRequest.
  destruct (empty (ari_RequestID input)); [now apply audit_step_idle|].
  destruct (_ || _); [now apply audit_step_idle|].
  destruct (Dynamo.GetRequest w (ari_RequestID input)) as [req|];
    [|now apply audit_step_idle].
  destruct (negb _); [now apply audit_step_idle|].
  match goal with |- context [match ?d with Some err => (Err err, w) | None => _ end] =>
    destruct d end; [now apply audit_step_idle|].
  destruct (Dynamo.ConditionalUpdateStatus _ _ _ _) as [[err|] w1] eqn:Hc; cbn [snd].
  - apply ConditionalUpdateStatus_failed in Hc. subst w1. now apply audit_step_idle.
  - apply (f_equal snd) in Hc; cbn [snd] in Hc. rewrite <- Hc.
    eapply audit_step_update.
    + rewrite StartExecution_requests. reflexivity.
    + unfold Handlers.StartExecution. destruct (sfn_configured env); reflexivity.
    + reflexivity.
Qed.

Ltac audit_failed Hc :=
  apply ConditionalUpdateStatus_failed in Hc; subst; now apply audit_step_idle.

Lemma deny_audit (env : Env) (w : World) (input : DenyRequestInput) :
  audit_step env w (OpDenyRequest input) (Handlers.HandleDenyRequest env w input).2.
Proof.
  unfold Handlers.HandleDenyRequest.
  destruct (empty (dri_RequestID input)); [now apply audit_step_idle|].
  destruct (_ || _); [now apply audit_step_idle|].
  destruct (Dynamo.GetRequest w (dri_RequestID input)) as [req|];
    [|now apply audit_step_idle].
  destruct (negb _); [now apply audit_step_idle|].
  match goal with |- context [match ?d with Some err => (Err err, w) | None => _ end] =>
    destruct d end; [now apply audit_step_idle|].
  destruct (Dynamo.ConditionalUpdateStatus _ _ _ _) as [[err|] w1] eqn:Hc; cbn [snd];
    [audit_failed Hc | audit_update Hc].
Qed.

Lemma revoke_audit (env : Env) (w : World) (input : RevokeRequestInput) :
  audit_step env w (OpRevokeRequest input) (Handlers.HandleRevokeRequest env w input).2.
Proof.
  unfold Handlers.HandleRevokeRequest.
  destruct (empty (rri_RequestID input)); [now apply audit_step_idle|].
  destruct (_ || _); [now apply audit_step_idle|].
  destruct (Dynamo.GetRequest w (rri_RequestID input)) as [req|] eqn:E;
    [|now apply audit_step_idle].
  destruct (negb _) eqn:Es; [now apply audit_step_idle|].
  apply negb_false_iff, status_eqb_eq in Es.
  destruct (RevokeAccess env _ _) as [err|] eqn:Hr; cbn [snd].
  - exists []. rewrite ConditionalUpdateStatus_audit. split; [now rewrite app_nil_r|].
    intros id Hne. right.
    destruct (decide (id = rri_RequestID input)) as [->|Hid].
    + exists input, req, err. auto.
    + exfalso. apply Hne. now apply ConditionalUpdateStatus_other.
  - destruct (Dynamo.ConditionalUpdateStatus _ _ _ _) as [[err|] w1] eqn:Hc; cbn [snd];
      [audit_failed Hc | audit_update Hc].
Qed.

Lemma create_audit (env : Env) (w : World) (input : CreateRequestInput) :
  audit_step env w (OpCreateRequest input) (Handlers.HandleCreateRequest env w input).2.
Proof.
  unfold Handlers.HandleCreateRequest.
  destruct (_ || _); [now apply audit_step_idle|].
  destruct (_ || _); [now apply audit_step_idle|].
  destruct (_ && _); [now apply audit_step_idle|].
  destruct (_ <=? _); [now apply audit_step_idle|].
  destruct (Dynamo.GetConfig _ _ _) as [cfg|]; [|now apply audit_step_idle].
  destruct (_ && _); [now apply audit_step_idle|].
  destruct (LookupUserByEmail env _) as [userID|err]; [|now apply audit_step_idle].
  unfold new_uuid. cbv zeta. cbn [fst snd].
  unfold Dynamo.CreateRequest. cbn [tableRequests RequestID].
  destruct (tableRequests w !! uuid env (drawn w)) as [old|] eqn:E; cbn [snd];
    [now apply audit_step_idle|].
  eexists [_]. split; [reflexivity|].
  intros id Hne. left. eexists. split; [now left|]. cbn [ev_RequestID].
  destruct (decide (id = uuid env (drawn w))) as [->|Hid]; [reflexivity|].
  exfalso. apply Hne. unfold status_of, Dynamo.GetRequest. cbn.
  now rewrite lookup_insert_ne by congruence.
Qed.

Lemma action_audit (env : Env) (w : World) (p : Actions.StepFunctionActionPayload) :
  audit_step env w (OpAction p) (Actions.Handle env w p).2.
Proof.
  unfold Actions.Handle.
  repeat match goal with |- context [if String.eqb ?a ?b then _ else _] =>
    destruct (String.eqb a b) end; try (now apply audit_step_idle).
  - unfold Actions.handleValidate.
    destruct (Dynamo.GetRequest w (Actions.p_RequestID p)) as [req|];
      [|now apply audit_step_idle].
    destruct (negb _); now apply audit_step_idle.
  - unfold Actions.handleGrant.
    destruct (Dynamo.GetRequest w (Actions.p_RequestID p)) as [req|];
      [|now apply audit_step_idle].
    destruct (GrantAccess env _ _); [now apply audit_step_idle|].
    destruct (Dynamo.ConditionalUpdateStatus _ _ _ _) as [[err|] w1] eqn:Hc; cbn [snd];
      [audit_failed Hc | audit_update Hc].
  - unfold Actions.handleNotifyGranted.
    destruct (Dynamo.GetRequest w (Actions.p_RequestID p)) as [req|];
      now apply audit_step_idle.
  - unfold Actions.handleRevoke.
    destruct (Dynamo.GetRequest w (Actions.p_RequestID p)) as [req|];
      [|now apply audit_step_idle].
    destruct (_ || _); [now apply audit_step_idle|].
    destruct (RevokeAccess env _ _); [now apply audit_step_idle|].
    destruct (Dynamo.ConditionalUpdateStatus _ _ _ _) as [[err|] w1] eqn:Hc; cbn [snd];
      [audit_failed Hc | audit_update Hc].
  - unfold Actions.handleNotifyRevoked.
    destruct (Dynamo.GetRequest w (Actions.p_RequestID p)) as [req|];
      now apply audit_step_idle.
  - unfold Actions.handleGrantError.
    destruct (Dynamo.GetRequest w (Actions.p_RequestID p)) as [req|];
      [|now apply audit_step_idle].
    cbv zeta. cbn [snd].
    destruct (Dynamo.ConditionalUpdateStatus w _ StatusApproved _) as [[err|] w1] eqn:Hc.
    + apply ConditionalUpdateStatus_failed in Hc. subst w1.
      eapply audit_step_update; reflexivity.
    + audit_update Hc.
  - unfold Actions.handleRevokeError.
    destruct (Dynamo.GetRequest w (Actions.p_RequestID p)) as [req|];
      [|now apply audit_step_idle].
    cbv zeta. cbn [snd]. eapply audit_step_update; reflexivity.
Qed.

Lemma bind_audit_table (env : Env) (w : World) (input : BindAccountInput) :
  tableAudit (Handlers.HandleBindAccount env w input).2 = tableAudit w.
Proof.
  unfold Handlers.HandleBindAccount.
  destruct (_ || _); [reflexivity|].
  match goal with |- context [match ?d with Some err => (Err err, w) | None => _ end] =>
    destruct d end; reflexivity.
Qed.

Lemma set_approvers_audit_table (env : Env) (w : World) (input : SetApproversInput) :
  tableAudit (Handlers.HandleSetApprovers env w input).2 = tableAudit w.
Proof.
  unfold Handlers.HandleSetApprovers.
  destruct (empty _); [reflexivity|].
  destruct (_ =? _)%nat; [reflexivity|].
  destruct (_ =? _)%nat; [reflexivity|].
  match goal with |- context [fold_left ?f ?l ?a] =>
    assert (Hfold : forall cs acc,
               tableAudit (fold_left f cs acc).2 = tableAudit acc.2)
  end.
  { induction cs as [|c cs IH]; intro acc; cbn [fold_left]; [reflexivity|].
    rewrite IH. reflexivity. }
  match goal with |- context [fold_left ?f ?l ?a] =>
    specialize (Hfold l a); destruct (fold_left f l a) as [updated w1] end.
  exact Hfold.
Qed.

Lemma sweep_step_update (w w' : World)
    (requestID : string) (expected : RequestStatus) (updates : list Dynamo.update)
    (ev : AuditEvent) :
  let w1 := (Dynamo.ConditionalUpdateStatus w requestID expected updates).2 in
  tableRequests w' = tableRequests w1 ->
  tableAudit w' = tableAudit w1 ++ [ev] ->
  ev_RequestID ev = requestID ->
  sweep_step w w'.
Proof.
  cbv zeta. intros Hr Ha Hev. exists [ev].
  rewrite ConditionalUpdateStatus_audit in Ha. split; [exact Ha|].
  intros id Hne. exists ev. split; [now left|].
  destruct (decide (id = requestID)) as [->|Hid]; [exact Hev|].
  exfalso. apply Hne. rewrite (status_table _ _ _ Hr).
  now apply ConditionalUpdateStatus_other.
Qed.

Lemma revokeExpired_sweep_step (env : Env) (w : World) (req : JitRequest) :
  sweep_step w (Reconciler.revokeExpired env w req).1.2.
Proof.
  unfold Reconciler.revokeExpired.
  destruct (RevokeAccess env _ _) as [err|]; cbn [fst snd].
  - eapply sweep_step_update; reflexivity.
  - destruct (Dynamo.ConditionalUpdateStatus _ _ _ _) as [[err|] w1] eqn:Hc;
      cbn [fst snd].
    + apply ConditionalUpdateStatus_failed in Hc. subst w1.
      exists []. split; [now rewrite app_nil_r|]. intros id Hne. now destruct Hne.
    + apply (f_equal snd) in Hc; cbn [snd] in Hc; rewrite <- Hc.
      eapply sweep_step_update; reflexivity.
Qed.

Lemma status_of_dec (a b : option RequestStatus) : {a = b} + {a <> b}.
Proof. repeat decide equality. Defined.

Lemma sweep_step_trans (w w1 w2 : World) :
  sweep_step w w1 -> sweep_step w1 w2 -> sweep_step w w2.
Proof.
  intros (e1 & Ha1 & H1) (e2 & Ha2 & H2). exists (e1 ++ e2).
  split; [now rewrite Ha2, Ha1, <- List.app_assoc|].
  intros id Hne.
  destruct (status_of_dec (status_of w1 id) (status_of w id)) as [Heq|Hne1].
  - destruct (H2 id) as (ev & Hin & Hev); [congruence|].
    exists ev. split; [apply in_or_app; now right | exact Hev].
  - destruct (H1 id Hne1) as (ev & Hin & Hev).
    exists ev. split; [apply in_or_app; now left | exact Hev].
Qed.

Lemma sweep_steps (env : Env) (requests : list JitRequest) :
  forall w,
    sweep_step w
      (fold_left (fun w r => (Reconciler.revokeExpired env w r).1.2) requests w).
Proof.
  induction requests as [|r l IH]; intro w; cbn [fold_left].
  - exists []. split; [now rewrite app_nil_r|]. intros id Hne. now destruct Hne.
  - eapply sweep_step_trans; [apply revokeExpired_sweep_step | apply IH].
Qed.

Lemma run_audit (env : Env) (w : World) (op : operation) :
  audit_step env w op (run env w op).
Proof.
  destruct op; cbn [run].
  - apply create_audit.
  - apply approve_audit.
  - apply deny_audit.
  - apply revoke_audit.
  - apply audit_step_idle; [apply bind_requests | apply bind_audit_table].
  - apply audit_step_idle; [apply set_approvers_requests | apply set_approvers_audit_table].
  - apply action_audit.
  - rewrite Handle_world.
    destruct (sweep_steps env (overdue env w) w) as (events & Ha & H).
    exists events. split; [exact Ha|]. intros id Hne. left. auto.
Qed.

(** X27: whenever an operation changes the stored status of a request, it
    appends an audit event for that request, with one exception: a manual
    revoke whose identity call failed moves the request to ERROR and
    appends none. *)
Theorem status_changes_are_audited (env : Env) (w : World) (op : operation)
    (id : string) :
  status_of (run env w op) id <> status_of w id ->
  (exists ev, In ev (emitted w (run env w op)) /\ ev_RequestID ev = id)
  \/ unaudited_revoke_failure env w op id.
Proof.
  intro Hne. destruct (run_audit env w op) as (events & Ha & H).
  rewrite (drop_emitted _ _ _ Ha). auto.
Qed.

Lemma status_changes_are_audited_witness :
  status_of (run Scenario.env (Scenario.single StatusPending)
               (OpApproveRequest (Scenario.approval_by "req-1" "approver-1"))) "req-1"
  <> status_of (Scenario.single StatusPending) "req-1"
  /\ ((exists ev,
         In ev (emitted (Scenario.single StatusPending)
                  (run Scenario.env (Scenario.single StatusPending)
                     (OpApproveRequest (Scenario.approval_by "req-1" "approver-1"))))
         /\ ev_RequestID ev = "req-1")
      \/ unaudited_revoke_failure Scenario.env (Scenario.single StatusPending)
           (OpApproveRequest (Scenario.approval_by "req-1" "approver-1")) "req-1").
Proof.
  assert (status_of (run Scenario.env (Scenario.single StatusPending)
                       (OpApproveRequest (Scenario.approval_by "req-1" "approver-1")))
            "req-1"
          <> status_of (Scenario.single StatusPending) "req-1") as Hmoved
    by (vm_compute; discriminate).
  split; [exact Hmoved|].
  exact (status_changes_are_audited Scenario.env (Scenario.single StatusPending)
           (OpApproveRequest (Scenario.approval_by "req-1" "approver-1")) "req-1"
           Hmoved).
Defined.

(** X28: over any sequence of operations the audit table only grows at its
    end: no event is removed, changed or reordered. *)
Theorem audit_trail_only_grows (w w' : World) :
  reachable w w' -> exists events, tableAudit w' = tableAudit w ++ events.
Proof.
  intro Hreach. induction Hreach as [w|w w1 w' (env & op & ->) _ (e2 & IH)].
  - exists []. now rewrite app_nil_r.
  - destruct (run_audit env w op) as (e1 & Ha & _).
    exists (e1 ++ e2). now rewrite IH, Ha, <- List.app_assoc.
Qed.

Lemma audit_trail_only_grows_witness :
  exists events,
    tableAudit (replay Scenario.env Scenario.history empty_world)
    = tableAudit empty_world ++ events.
Proof.
  exact (audit_trail_only_grows empty_world
           (replay Scenario.env Scenario.history empty_world)
           (replay_reachable Scenario.env Scenario.history empty_world)).
Defined.

(** * Webhook delivery *)

Section delivery.
Import Webhook.Client.

(** X29: a webhook notification makes at most four POSTs and waits at most
    seven seconds in back-offs; it succeeds exactly when some attempt
    among the first four gets a 2xx answer with no context cancellation
    before it, then having made one POST more than the failures before it
    and waited 0, 1, 3 or 7 seconds in all; when all four fail it returns
    the last error, wrapped. *)
Theorem webhook_delivery_is_bounded (c : Webhook.Client.Client) (tries : nat -> attempt)
    (body : string) :
  let o := Notify c tries body in
  let first_success k :=
    send c (tries k) body = None
    /\ (forall j, (j < k)%nat -> send c (tries j) body <> None)
    /\ (forall j, (1 <= j <= k)%nat -> done (tries j) = None) in
  (sends o <= 4)%nat
  /\ (forall k, (k < 4)%nat -> first_success k ->
        o = {| err := None; sends := S k;
               slept := (2 ^ Z.of_nat k - 1) * Second |})
  /\ (err o = None -> exists k, (k < 4)%nat /\ first_success k)
  /\ ((forall j, (j < 4)%nat -> send c (tries j) body <> None) ->
      (forall j, (1 <= j <= 3)%nat -> done (tries j) = None) ->
      exists lastErr,
        send c (tries 3%nat) body = Some lastErr
        /\ o = {| err := Some (Wrapf "webhook notify failed after retries" lastErr);
                  sends := 4; slept := 7 * Second |}).
Proof.
  cbv zeta. unfold Notify, retryBackoffs. cbn [retry].
  destruct (send c (tries 0%nat) body) as [e0|] eqn:S0;
    [destruct (done (tries 1%nat)) as [d1|] eqn:D1;
     [|destruct (send c (tries 1%nat) body) as [e1|] eqn:S1;
       [destruct (done (tries 2%nat)) as [d2|] eqn:D2;
        [|destruct (send c (tries 2%nat) body) as [e2|] eqn:S2;
          [destruct (done (tries 3%nat)) as [d3|] eqn:D3;
           [|destruct (send c (tries 3%nat) body) as [e3|] eqn:S3]|]]|]]|];
    cbn [sends err slept].
  all: split; [lia|].
  all: split;
    [intros k Hk (Hs & Hf & Hd);
     assert (H0 : forall j, (j < k)%nat -> forall x, send c (tries j) body = x -> x <> None)
       by (intros j Hj x <-; auto);
     destruct k as [|[|[|[|k]]]]; try lia;
     try (exfalso; congruence);
     try (exfalso; eapply (H0 0%nat); [lia|exact S0|reflexivity]);
     try (exfalso; eapply (H0 1%nat); [lia|exact S1|reflexivity]);
     try (exfalso; eapply (H0 2%nat); [lia|exact S2|reflexivity]);
     try (exfalso; specialize (Hd 1%nat ltac:(lia)); congruence);
     try (exfalso; specialize (Hd 2%nat ltac:(lia)); congruence);
     try (exfalso; specialize (Hd 3%nat ltac:(lia)); congruence);
     reflexivity|].
  all: split;
    [intros He; try discriminate He|
     intros Hf Hd;
     try (exfalso; eapply (Hf 0%nat); [lia|exact S0]);
     try (exfalso; eapply (Hf 1%nat); [lia|exact S1]);
     try (exfalso; eapply (Hf 2%nat); [lia|exact S2]);
     try (exfalso; eapply (Hf 3%nat); [lia|exact S3]);
     try (exfalso; specialize (Hd 1%nat ltac:(lia)); congruence);
     try (exfalso; specialize (Hd 2%nat ltac:(lia)); congruence);
     try (exfalso; specialize (Hd 3%nat ltac:(lia)); congruence);
     try (eexists; split; reflexivity)].
  - exists 3%nat. split; [lia|]. split; [exact S3|]. split.
    + intros j Hj. destruct j as [|[|[|j]]]; try lia; congruence.
    + intros j Hj. destruct j as [|[|[|[|j]]]]; try lia; congruence.
  - exists 2%nat. split; [lia|]. split; [exact S2|]. split.
    + intros j Hj. destruct j as [|[|j]]; try lia; congruence.
    + intros j Hj. destruct j as [|[|[|j]]]; try lia; congruence.
  - exists 1%nat. split; [lia|]. split; [exact S1|]. split.
    + intros j Hj. destruct j as [|j]; try lia; congruence.
    + intros j Hj. destruct j as [|[|j]]; try lia; congruence.
  - exists 0%nat. split; [lia|]. split; [exact S0|]. split.
    + intros j Hj. lia.
    + intros j Hj. lia.
Qed.

(** X30: when the first POST of a notification reached a receiver that
    validates as this package does, and only the answer was lost, the
    retry is accepted: it is signed anew with a fresh nonce and timestamp,
    so the nonce recorded for the first POST does not make it a replay,
    and the notification succeeds at its second POST. *)
Theorem webhook_retry_is_not_a_replay (c : Webhook.Client.Client) (keys : gmap string string)
    (k0 body nonce1 nonce2 : string) (t1 t2 now1 now2 : Z)
    (done1 : option error) (lost : error) (store : nonce_table) :
  keys !! k0 = Some (secret c) ->
  keyID c <> "" -> nonce1 <> "" -> nonce2 <> "" -> nonce1 <> nonce2 ->
  0 <= t1 <= max_int64 -> 0 <= now1 <= max_int64 ->
  0 <= t2 <= max_int64 -> 0 <= now2 <= max_int64 ->
  Z.abs (now1 - UnixSeconds t1 * Second) <= Auth.maxTimestampSkew ->
  Z.abs (now2 - UnixSeconds t2 * Second) <= Auth.maxTimestampSkew ->
  store !! (keyID c, nonce1) = None ->
  store !! (keyID c, nonce2) = None ->
  let receive now store headers body :=
    Auth.ValidateRequest keys now store "POST" "/jit/webhook" headers body in
  let store1 :=
    fst (receive now1 store
           (Auth.SignPayload t1 nonce1 (keyID c) (secret c) "POST" "/jit/webhook" body)
           body) in
  let tries (n : nat) :=
    match n with
    | O => {| clock := t1; nonce := nonce1; done := done1;
              answer := fun _ _ => TransportError lost |}
    | _ => {| clock := t2; nonce := nonce2; done := None;
              answer := fun headers body =>
                match snd (receive now2 store1 headers body) with
                | None => Response 200
                | Some _ => Response 401
                end |}
    end in
  store1 !! (keyID c, nonce1) <> None
  /\ Notify c tries body = {| err := None; sends := 2; slept := 1 * Second |}.
Proof.
  intros Hkey Hk Hn1 Hn2 Hne Ht1 Hnow1 Ht2 Hnow2 Hf1 Hf2 Hs1 Hs2.
  cbv beta zeta.
  rewrite (validate_signed keys now1 t1 nonce1 (keyID c) k0 (secret c) _ _ body store)
    by assumption.
  cbn [fst]. split.
  - rewrite lookup_insert_eq. discriminate.
  - unfold Notify, send, retryBackoffs. cbn [retry answer done clock nonce].
    unfold send. cbn [answer clock nonce].
    rewrite (validate_signed keys now2 t2 nonce2 (keyID c) k0 (secret c) _ _ body)
      by (try assumption; rewrite lookup_insert_ne by congruence; assumption).
    cbn. reflexivity.
Qed.

Lemma webhook_retry_is_not_a_replay_witness :
  Scenario.keys !! "key-new" = Some (secret Scenario.plugin)
  /\ Notify Scenario.plugin
       (fun n : nat =>
          match n with
          | O => {| clock := Scenario.t_sign; nonce := "nonce-1"; done := None;
                    answer := fun _ _ => TransportError (Errorf "EOF") |}
          | _ => {| clock := Scenario.now1; nonce := "nonce-2"; done := None;
                    answer := fun headers body =>
                      match snd (Auth.ValidateRequest Scenario.keys Scenario.now2
                                   (fst (Auth.ValidateRequest Scenario.keys Scenario.now1
                                           Scenario.no_nonces "POST" "/jit/webhook"
                                           (Auth.SignPayload Scenario.t_sign "nonce-1"
                                              (keyID Scenario.plugin)
                                              (secret Scenario.plugin)
                                              "POST" "/jit/webhook" Scenario.body)
                                           Scenario.body))
                                   "POST" "/jit/webhook" headers body) with
                      | None => Response 200
                      | Some _ => Response 401
                      end |}
          end)
       Scenario.body
     = {| err := None; sends := 2; slept := 1 * Second |}.
Proof.
  assert (Scenario.keys !! "key-new" = Some (secret Scenario.plugin)) as N1
    by (vm_compute; reflexivity).
  assert (keyID Scenario.plugin <> "") as N2 by discriminate.
  assert ("nonce-1" <> "") as N3 by discriminate.
  assert ("nonce-2" <> "") as N4 by discriminate.
  assert ("nonce-1" <> "nonce-2") as N5 by discriminate.
  assert (0 <= Scenario.t_sign <= max_int64) as N6 by (vm_compute; split; discriminate).
  assert (0 <= Scenario.now1 <= max_int64) as N7 by (vm_compute; split; discriminate).
  assert (0 <= Scenario.now2 <= max_int64) as N8 by (vm_compute; split; discriminate).
  assert (Z.abs (Scenario.now1 - UnixSeconds Scenario.t_sign * Second)
          <= Auth.maxTimestampSkew) as N9 by (vm_compute; discriminate).
  assert (Z.abs (Scenario.now2 - UnixSeconds Scenario.now1 * Second)
          <= Auth.maxTimestampSkew) as N10 by (vm_compute; discriminate).
  assert (Scenario.no_nonces !! (keyID Scenario.plugin, "nonce-1") = None) as N11
    by (vm_compute; reflexivity).
  assert (Scenario.no_nonces !! (keyID Scenario.plugin, "nonce-2") = None) as N12
    by (vm_compute; reflexivity).
  split; [exact N1|].
  pose proof (webhook_retry_is_not_a_replay Scenario.plugin Scenario.keys "key-new"
                Scenario.body "nonce-1" "nonce-2" Scenario.t_sign Scenario.now1
                Scenario.now1 Scenario.now2 None (Errorf "EOF") Scenario.no_nonces
                N1 N2 N3 N4 N5 N6 N7 N7 N8 N9 N10 N11 N12) as H.
  cbv beta zeta in H. destruct H as [_ Hsent].
  exact Hsent.
Defined.

End delivery.
